(** * AI resume reviewer: the deterministic analysis pipeline

    A shallow embedding of the services of the backend
    ([resume_parser.py], [skill_gap.py], [ats_score.py], [vector_store.py],
    [recommender.py], [llm_agent.py]) and of the analysis endpoint of
    [main.py], and the properties stated for them.

    Conventions of the embedding.
    - A Python [str] is a [string]; a character is a code point below 256
      (after [clean_text] every character of a resume is below 128).  The
      character classes of Python ([str.isspace], [str.lower], the class
      [\w] of [re]) are written out for these code points.
    - A Python [int] used as an offset is a [Z], with [-1] for "not found".
    - A Python [float] is a binary64 number, written as the rational ([Q])
      it denotes.  Every operation on floats rounds its exact result to the
      nearest number with 53 significant bits, a tie going to the even
      significand ([Num.b64]); a literal such as [0.4] is the binary64
      number nearest to it.  The exponent range is not modelled: the
      numbers of the services are counts below [2^63] and scores up to 100,
      far from overflow and underflow.  [round(x, 2)] is the binary64
      number nearest to the two-decimal number nearest to [x], a half going
      to the even digit.
    - A [dict] with string keys is a [gmap string _]; a [set] of strings is a
      [gset string].
    - The files of the role store are a [gmap] from path strings to what
      the path holds; paths are those of a POSIX system.  Whether a
      directory can be made and how a write ends are parameters.
    - A raised exception is the [Raise] case of [outcome]. *)

From Stdlib Require Import ZArith QArith Qround Qabs Qpower Lia Lqa Bool.
From Stdlib Require Import PrimFloat FloatOps.
From Stdlib Require Import Strings.Ascii Strings.String.
From stdpp Require Import base list strings gmap sorting.

(** ** Python strings *)

Module Py.

(** The line feed, ["\n"]. *)
Definition LF : ascii := ascii_of_nat 10.
Definition nl : string := String LF "".

(** [c.isspace()] for a code point below 256. *)
Definition isspace (c : ascii) : bool :=
  let n := nat_of_ascii c in
  ((9 <=? n) && (n <=? 13) || (28 <=? n) && (n <=? 32)
   || (n =? 133) || (n =? 160))%nat.

(** The class [\w] of [re] on [str] patterns: alphanumeric or underscore. *)
Definition isword (c : ascii) : bool :=
  let n := nat_of_ascii c in
  ((48 <=? n) && (n <=? 57) || (65 <=? n) && (n <=? 90) || (n =? 95)
   || (97 <=? n) && (n <=? 122)
   || (n =? 170) || (n =? 178) || (n =? 179) || (n =? 181) || (n =? 185)
   || (n =? 186) || (188 <=? n) && (n <=? 190)
   || (192 <=? n) && (n <=? 214) || (216 <=? n) && (n <=? 246)
   || (248 <=? n) && (n <=? 255))%nat.

(** [c.lower()] for a code point below 256. *)
Definition lower_char (c : ascii) : ascii :=
  let n := nat_of_ascii c in
  if ((65 <=? n) && (n <=? 90) || (192 <=? n) && (n <=? 214)
      || (216 <=? n) && (n <=? 222))%nat
  then ascii_of_nat (n + 32) else c.

(** [s.lower()] *)
Fixpoint lower (s : string) : string :=
  match s with
  | EmptyString => EmptyString
  | String c r => String (lower_char c) (lower r)
  end.

(** [len(s)] *)
Definition len (s : string) : Z := Z.of_nat (String.length s).

(** [s.lstrip()], [s.rstrip()], [s.strip()] *)
Fixpoint lstrip (s : string) : string :=
  match s with
  | EmptyString => EmptyString
  | String c r => if isspace c then lstrip r else s
  end.

Fixpoint rstrip (s : string) : string :=
  match s with
  | EmptyString => EmptyString
  | String c r =>
      match rstrip r with
      | EmptyString => if isspace c then EmptyString else String c EmptyString
      | r' => String c r'
      end
  end.

Definition strip (s : string) : string := rstrip (lstrip s).

(** Truth value of a string: non-empty. *)
Definition truthy (s : string) : bool :=
  match s with EmptyString => false | _ => true end.

Fixpoint drop (n : nat) (s : string) : string :=
  match n, s with
  | O, _ => s
  | S n', String _ r => drop n' r
  | S _, EmptyString => EmptyString
  end.

Fixpoint take (n : nat) (s : string) : string :=
  match n, s with
  | S n', String c r => String c (take n' r)
  | _, _ => EmptyString
  end.

(** Slice bounds as Python normalises them: a negative bound counts from
    the end, then the bound is clamped to [0, len(s)]. *)
Definition clamp (s : string) (i : Z) : nat :=
  let i' := if (i <? 0)%Z then (i + len s)%Z else i in
  Z.to_nat (Z.min (Z.max i' 0) (len s)).

(** [s[a:b]] and [s[a:]] *)
Definition slice (s : string) (a b : Z) : string :=
  let a' := clamp s a in
  let b' := clamp s b in
  take (b' - a') (drop a' s).

Definition slice_from (s : string) (a : Z) : string := drop (clamp s a) s.

(** First offset [>= i] at which [sub] occurs in the suffix [s], the suffix
    starting at offset [i] of the whole string; [-1] when there is none. *)
Fixpoint find_go (sub s : string) (i : Z) : Z :=
  if String.prefix sub s then i
  else match s with
       | EmptyString => (-1)%Z
       | String _ r => find_go sub r (i + 1)
       end.

(** [s.find(sub, start)] *)
Definition find (s sub : string) (start : Z) : Z :=
  let st := if (start <? 0)%Z then Z.max (start + len s) 0 else start in
  if (len s <? st)%Z then (-1)%Z
  else find_go sub (drop (Z.to_nat st) s) st.

(** Last offset at which [sub] occurs in the suffix [s]; [last] is the
    best offset seen so far. *)
Fixpoint rfind_go (sub s : string) (i last : Z) : Z :=
  let last' := if String.prefix sub s then i else last in
  match s with
  | EmptyString => last'
  | String _ r => rfind_go sub r (i + 1) last'
  end.

(** [s.rfind(sub, 0, stop)]: the search is confined to [s[0:stop]]. *)
Definition rfind (s sub : string) (stop : Z) : Z :=
  rfind_go sub (slice s 0 stop) 0 (-1).

(** [sub in s] *)
Definition contains (sub s : string) : bool :=
  negb (find s sub 0 =? -1)%Z.

(** [s.replace(old, new)]: the occurrences of [old] are replaced from left
    to right, without overlap.  [skip] counts the characters of an
    occurrence that are still to be passed over.  An empty [old] puts
    [new] in front of the string and after each character. *)
Fixpoint replace_go (old new : string) (skip : nat) (s : string) : string :=
  match skip, s with
  | S k, String _ r => replace_go old new k r
  | S _, EmptyString => EmptyString
  | O, EmptyString => EmptyString
  | O, String c r =>
      if String.prefix old s
      then new +:+ replace_go old new (String.length old - 1) r
      else String c (replace_go old new 0 r)
  end.

Fixpoint replace_empty (new s : string) : string :=
  match s with
  | EmptyString => EmptyString
  | String c r => String c (new +:+ replace_empty new r)
  end.

Definition replace (s old new : string) : string :=
  match old with
  | EmptyString => new +:+ replace_empty new s
  | _ => replace_go old new 0 s
  end.

(** [s.rstrip(chars)] *)
Fixpoint rstrip_chars (chars s : string) : string :=
  match s with
  | EmptyString => EmptyString
  | String c r =>
      match rstrip_chars chars r with
      | EmptyString =>
          if contains (String c EmptyString) chars then EmptyString
          else String c EmptyString
      | r' => String c r'
      end
  end.

(** [s * n] *)
Fixpoint times (s : string) (n : nat) : string :=
  match n with
  | O => EmptyString
  | S n' => s +:+ times s n'
  end.

(** [os.path.dirname(p)] of [posixpath]: what comes before the last
    slash, without its trailing slashes unless it consists of slashes. *)
Definition dirname (p : string) : string :=
  let sep := "/"%string in
  let i := (rfind p sep (len p) + 1)%Z in
  let head := slice p 0 i in
  if truthy head && negb (String.eqb head (times sep (String.length head)))
  then rstrip_chars sep head
  else head.

(** [s.split()]: the maximal runs of non-space characters.  [cur] is the
    run being read, reversed. *)
Fixpoint split_go (cur : option string) (s : string) : list string :=
  match s with
  | EmptyString =>
      match cur with Some w => [String.rev w] | None => [] end
  | String c r =>
      if isspace c
      then match cur with
           | Some w => String.rev w :: split_go None r
           | None => split_go None r
           end
      else split_go (Some (String c (default EmptyString cur))) r
  end.

Definition split (s : string) : list string := split_go None s.

(** [sep.join(l)] *)
Definition join (sep : string) (l : list string) : string :=
  String.concat sep l.

(** A string that does not start with a space. *)
Definition starts_clean (s : string) : Prop :=
  match s with
  | String c _ => isspace c = false
  | EmptyString => True
  end.

End Py.

(** [sub] occurs in [s]. *)
Definition substring_of (sub s : string) : Prop :=
  exists pre post, s = pre +:+ sub +:+ post.

(** ** The fragment of [re] the services use

    The header patterns are [\bLITERAL\b]; the keyword pattern is
    [\b\w{3,}\b].  A pattern is a sequence of atoms, matched left to right;
    [\w{n,}] is greedy and gives characters back one at a time. *)

Module Re.

Inductive atom : Type :=
| Bnd                (* \b *)
| Chr (c : ascii)    (* a literal character *)
| Words (n : nat).   (* \w{n,} *)

Definition regex : Type := list atom.

Fixpoint literal (s : string) : regex :=
  match s with
  | EmptyString => []
  | String c r => Chr c :: literal r
  end.

(** [r"\bLITERAL\b"] *)
Definition bounded (lit : string) : regex := Bnd :: literal lit ++ [Bnd].

(** [r"\b\w{3,}\b"] *)
Definition word3 : regex := [Bnd; Words 3; Bnd].

Definition word_at (text : string) (p : nat) : bool :=
  match String.get p text with
  | Some c => Py.isword c
  | None => false
  end.

(** [\b] holds at offset [p] when exactly one of the characters before and
    after [p] is a word character; outside the text counts as non-word. *)
Definition boundary (text : string) (p : nat) : bool :=
  xorb (match p with O => false | S q => word_at text q end) (word_at text p).

(** Number of consecutive word characters at the start of [s]. *)
Fixpoint word_run (s : string) : nat :=
  match s with
  | String c r => if Py.isword c then S (word_run r) else O
  | EmptyString => O
  end.

(** Try the continuation [k] after [n], [n-1], ..., [lo] characters. *)
Fixpoint give_back (k : nat -> option nat) (p lo n : nat) : option nat :=
  if (n <? lo)%nat then None
  else match k (p + n)%nat with
       | Some e => Some e
       | None => match n with
                 | O => None
                 | S n' => give_back k p lo n'
                 end
       end.

(** Match [r] at offset [p] of [text]; the result is the end offset. *)
Fixpoint match_at (r : regex) (text : string) (p : nat) : option nat :=
  match r with
  | [] => Some p
  | Bnd :: r' => if boundary text p then match_at r' text p else None
  | Chr c :: r' =>
      match String.get p text with
      | Some d => if Ascii.eqb c d then match_at r' text (S p) else None
      | None => None
      end
  | Words lo :: r' =>
      give_back (match_at r' text) p lo (word_run (Py.drop p text))
  end.

(** The scan of [re.finditer]: [rest] is the text from offset [pos] on, and
    offsets below [next] lie inside the previous match. *)
Fixpoint scan (r : regex) (text : string) (pos next : nat) (rest : string)
  : list (nat * nat) :=
  let here := if (pos <? next)%nat then None else match_at r text pos in
  let next' := match here with Some e => e | None => next end in
  let later := match rest with
               | EmptyString => []
               | String _ rest' => scan r text (S pos) next' rest'
               end in
  match here with
  | Some e => (pos, e) :: later
  | None => later
  end.

(** [[m.span() for m in re.finditer(r, text)]] *)
Definition finditer (r : regex) (text : string) : list (Z * Z) :=
  map (fun se => (Z.of_nat se.1, Z.of_nat se.2)) (scan r text 0 0 text).

(** [re.findall(r, text)] for a pattern without groups. *)
Definition findall (r : regex) (text : string) : list string :=
  map (fun se => Py.slice text se.1 se.2) (finditer r text).

End Re.

(** ** resume_parser.py: section segmentation *)

Module ResumeParser.

(** [self.sections_patterns], in the order the dictionary is written. *)
Definition sections_patterns : list (string * list Re.regex) :=
  [ ("education",
     map Re.bounded ["EDUCATION"; "ACADEMIC BACKGROUND"; "QUALIFICATIONS";
                     "Education"; "Academic Background"]);
    ("experience",
     map Re.bounded ["EXPERIENCE"; "WORK EXPERIENCE"; "PROFESSIONAL EXPERIENCE";
                     "EMPLOYMENT HISTORY"; "Experience"; "Work Experience"]);
    ("skills",
     map Re.bounded ["SKILLS"; "TECHNICAL SKILLS"; "CORE COMPETENCIES";
                     "TECHNOLOGIES"; "Skills"; "Technical Skills"]);
    ("projects",
     map Re.bounded ["PROJECTS"; "ACADEMIC PROJECTS"; "PERSONAL PROJECTS";
                     "Projects"; "Key Projects"]);
    ("certifications",
     map Re.bounded ["CERTIFICATIONS"; "CERTIFICATES"; "COURSES";
                     "Certifications"; "Certificates"]) ].

(** The names of the pattern dictionary. *)
Definition section_names : list string := map fst sections_patterns.

(** The length test on the line that contains a match:
    [len(text[line_start:line_end].strip()) < 50]. *)
Definition short_line (text : string) (span : Z * Z) : bool :=
  let '(start, stop) := span in
  let line_start := (Py.rfind text Py.nl start + 1)%Z in
  let line_end := Py.find text Py.nl stop in
  let line_end := if (line_end =? -1)%Z then Py.len text else line_end in
  let line := Py.strip (Py.slice text line_start line_end) in
  (Py.len line <? 50)%Z.

(** [for match in matches: ... append; break]: what one pattern appends to
    [header_indices]. *)
Fixpoint first_short (text section_name : string) (matches : list (Z * Z))
  : list (Z * string) :=
  match matches with
  | [] => []
  | span :: rest =>
      if short_line text span then [(span.1, section_name)]
      else first_short text section_name rest
  end.

(** [for pattern in patterns: ...]: the [break] above leaves the loop over
    the matches only, so every pattern of the section is searched. *)
Definition section_headers (text : string) (entry : string * list Re.regex)
  : list (Z * string) :=
  flat_map (fun pattern => first_short text entry.1 (Re.finditer pattern text))
           entry.2.

(** [header_indices] before it is sorted. *)
Definition header_indices (text : string) : list (Z * string) :=
  flat_map (section_headers text) sections_patterns.

(** Order of the tuples [(offset, name)]. *)
Definition header_leb (a b : Z * string) : bool :=
  (a.1 <? b.1)%Z || (a.1 =? b.1)%Z && String.leb a.2 b.2.

Fixpoint insert_header (h : Z * string) (l : list (Z * string))
  : list (Z * string) :=
  match l with
  | [] => [h]
  | x :: r => if header_leb h x then h :: l else x :: insert_header h r
  end.

(** [header_indices.sort()]; the order is total and two tuples that compare
    equal are the same tuple, so the result does not depend on the sorting
    algorithm. *)
Fixpoint sort_headers (l : list (Z * string)) : list (Z * string) :=
  match l with
  | [] => []
  | h :: r => insert_header h (sort_headers r)
  end.

(** The initial value of [sections]. *)
Definition empty_sections : gmap string string :=
  <["education" := ""]> (<["experience" := ""]> (<["skills" := ""]>
  (<["projects" := ""]> (<["certifications" := ""]> (<["others" := ""]> ∅))))).

(** The content kept for a header at [start_idx] whose successor is at
    [end_idx]. *)
Definition section_content (text : string) (start_idx end_idx : Z) : string :=
  let content := Py.strip (Py.slice text start_idx end_idx) in
  let first_newline := Py.find content Py.nl 0 in
  if (first_newline =? -1)%Z then content
  else Py.strip (Py.slice_from content first_newline).

(** The slicing loop over the sorted headers. *)
Fixpoint fill_sections (text : string) (hs : list (Z * string))
  (sections : gmap string string) : gmap string string :=
  match hs with
  | [] => sections
  | (start_idx, section_name) :: rest =>
      let end_idx := match rest with
                     | (next_idx, _) :: _ => next_idx
                     | [] => Py.len text
                     end in
      fill_sections text rest
        (<[section_name := section_content text start_idx end_idx]> sections)
  end.

Definition segment_sections (text : string) : gmap string string :=
  match sort_headers (header_indices text) with
  | [] => <["others" := text]> empty_sections
  | hs => fill_sections text hs empty_sections
  end.

End ResumeParser.

(** ** Numbers and exceptions *)

Module Num.

(** Nearest integer, a half going to the even neighbour. *)
Definition round_half_even (q : Q) : Z :=
  let f := Qfloor q in
  match (q - inject_Z f ?= 1 # 2)%Q with
  | Lt => f
  | Gt => (f + 1)%Z
  | Eq => if Z.even f then f else (f + 1)%Z
  end.

(** The exponent of a positive number:
    [2 ^ ilog2 x <= x < 2 ^ (ilog2 x + 1)]. *)
Definition ilog2 (x : Q) : Z :=
  let d := (Z.log2 (Qnum x) - Z.log2 (Zpos (Qden x)))%Z in
  if Qle_bool (2 ^ d) x then d else (d - 1)%Z.

(** The binary64 number nearest to [x], a tie going to the even
    significand: the significand [x / ulp] is rounded to an integer of 53
    bits. *)
Definition b64 (x : Q) : Q :=
  if Qeq_bool x 0 then 0%Q
  else let ulp := (2 ^ (ilog2 (Qabs x) - 52))%Q in
       (inject_Z (round_half_even (x / ulp)) * ulp)%Q.

(** [float(n)] for an [int], and [x + y], [x * y] on floats. *)
Definition of_int (n : Z) : Q := b64 (inject_Z n).
Definition add (x y : Q) : Q := b64 (x + y).
Definition mul (x y : Q) : Q := b64 (x * y).

(** The number a binary64 value of the machine denotes. *)
Definition of_float (f : float) : Q :=
  match Prim2SF f with
  | SpecFloat.S754_finite s m e =>
      ((if s then -1 else 1) * inject_Z (Z.pos m) * 2 ^ e)%Q
  | _ => 0%Q
  end.

(** [round(x, ndigits)]: the exact value of [x] goes to the nearest
    decimal number with [ndigits] decimals, a half to the even digit, and
    that decimal number to the nearest binary64 number. *)
Definition round (x : Q) (ndigits : Z) : Q :=
  let m := inject_Z (10 ^ ndigits) in
  b64 (inject_Z (round_half_even (x * m)) / m)%Q.

(** [min(x, y)] *)
Definition min (x y : Q) : Q := if Qle_bool x y then x else y.

(** [max(l)] from the running value [cur]: a later element replaces it only
    when it is strictly greater. *)
Fixpoint max_from (cur : Q) (l : list Q) : Q :=
  match l with
  | [] => cur
  | x :: r => max_from (if Qle_bool x cur then cur else x) r
  end.

(** [l.index(v)] as an offset; [None] is [ValueError]. *)
Fixpoint index (l : list Q) (v : Q) : option nat :=
  match l with
  | [] => None
  | x :: r => if Qeq_bool x v then Some O else S <$> index r v
  end.

End Num.

Inductive exn : Type :=
| IndexError | ValueError | AttributeError | ZeroDivisionError
| FileNotFoundError | OSError | RuntimeError | UnpicklingError.

Inductive outcome (A : Type) : Type :=
| Ok (a : A)
| Raise (e : exn).
Arguments Ok {A} a.
Arguments Raise {A} e.

Definition outcome_bind {A B} (m : outcome A) (k : A -> outcome B) : outcome B :=
  match m with
  | Ok a => k a
  | Raise e => Raise e
  end.

Notation "x <~ m ;; k" := (outcome_bind m (fun x => k))
  (at level 100, m at next level, right associativity).

(** [x / y]: the quotient of two floats, or of two [int]s, rounded once. *)
Definition py_div (x y : Q) : outcome Q :=
  if Qeq_bool y 0 then Raise ZeroDivisionError else Ok (Num.b64 (x / y)).

(** [len(l)] as a number, and as the float an operation with a float
    turns it into. *)
Definition count {A} (l : list A) : Q := inject_Z (Z.of_nat (length l)).
Definition fcount {A} (l : list A) : Q := Num.b64 (count l).

(** ** skill_gap.py *)

Module SkillGap.

(** An entry of [weak_matches]; the fallback path writes no ["similarity"]. *)
Record weak_match : Type := WeakMatch {
  skill : string;
  matched_with : string;
  similarity : option Q
}.

(** The dictionary [analyze] returns. *)
Record report : Type := Report {
  match_percentage : Q;
  strong_matches : list string;
  weak_matches : list weak_match;
  missing_skills : list string
}.

(** The three lists the loops append to. *)
Record buckets : Type := Buckets {
  strong : list string;
  weak : list weak_match;
  missing : list string
}.

(** [self.similarity_threshold], the literal [0.4], and the literal [0.9]
    of the strong matches. *)
Definition similarity_threshold : Q := Num.b64 (4 # 10).
Definition strong_threshold : Q := Num.b64 (9 # 10).

(** [[s.lower().strip() for s in skills if s.strip()]] *)
Definition normalize (s : string) : string := Py.strip (Py.lower s).

Definition normalize_all (skills : list string) : list string :=
  map normalize (filter (fun s => Is_true (Py.truthy (Py.strip s))) skills).

(** A call of [_calculate_similarities]: the target and the source list. *)
Definition engine_call : Type := string * list string.

(** Computations of the analyzer: they may raise, and they record the
    calls made to the similarity engine. *)
Definition M (A : Type) : Type := list engine_call -> outcome A * list engine_call.

Definition ret {A} (a : A) : M A := fun log => (Ok a, log).
Definition raise {A} (e : exn) : M A := fun log => (Raise e, log).
Definition bind {A B} (m : M A) (k : A -> M B) : M B :=
  fun log => match m log with
             | (Ok a, log') => k a log'
             | (Raise e, log') => (Raise e, log')
             end.

Notation "x <- m ;; k" := (bind m (fun x => k))
  (at level 100, m at next level, right associativity).

Section Analyzer.

(** [SKLEARN_AVAILABLE]: whether scikit-learn could be imported. *)
Variable SKLEARN_AVAILABLE : bool.

(** The body of the [try] in [_calculate_similarities]: the TF-IDF vectors
    of the character n-grams and their cosine similarities, one per element
    of the source list; [None] when scikit-learn raises. *)
Variable tfidf_cosine : string -> list string -> option (list Q).

Definition _calculate_similarities (target : string) (source_list : list string)
  : M (list Q) :=
  fun log =>
    (Ok (match tfidf_cosine target source_list with
         | Some sims => sims
         | None => repeat 0%Q (length source_list)
         end),
     log ++ [(target, source_list)]).

(** The body of the loop of the similarity path. *)
Definition classify_semantic (resume_skills_norm : list string)
  (req_skill : string) (b : buckets) : M buckets :=
  similarities <- _calculate_similarities req_skill resume_skills_norm ;;
  let max_sim := match similarities with
                 | [] => 0%Q
                 | x :: r => Num.max_from x r
                 end in
  if Qle_bool strong_threshold max_sim then
    ret (Buckets (strong b ++ [req_skill]) (weak b) (missing b))
  else if Qle_bool similarity_threshold max_sim then
    match Num.index similarities max_sim with
    | None => raise ValueError
    | Some i =>
        match resume_skills_norm !! i with
        | None => raise IndexError
        | Some res_skill =>
            ret (Buckets (strong b)
                   (weak b ++ [WeakMatch req_skill res_skill
                                 (Some (Num.round max_sim 2))])
                   (missing b))
        end
    end
  else
    ret (Buckets (strong b) (weak b) (missing b ++ [req_skill])).

Fixpoint semantic_loop (resume_skills_norm required : list string) (b : buckets)
  : M buckets :=
  match required with
  | [] => ret b
  | req_skill :: rest =>
      b' <- classify_semantic resume_skills_norm req_skill b ;;
      semantic_loop resume_skills_norm rest b'
  end.

(** The inner loop of the fallback: the first resume skill that contains
    the required skill or is contained in it. *)
Definition first_substring (resume_skills_norm : list string) (req_skill : string)
  : option string :=
  List.find (fun res_skill =>
          Py.contains req_skill res_skill || Py.contains res_skill req_skill)
       resume_skills_norm.

(** The body of the loop of the fallback path. *)
Definition classify_fallback (resume_skills_norm : list string)
  (req_skill : string) (b : buckets) : buckets :=
  if bool_decide (req_skill ∈ resume_skills_norm) then
    Buckets (strong b ++ [req_skill]) (weak b) (missing b)
  else
    match first_substring resume_skills_norm req_skill with
    | Some res_skill =>
        Buckets (strong b) (weak b ++ [WeakMatch req_skill res_skill None])
                (missing b)
    | None => Buckets (strong b) (weak b) (missing b ++ [req_skill])
    end.

Fixpoint fallback_loop (resume_skills_norm required : list string) (b : buckets)
  : buckets :=
  match required with
  | [] => b
  | req_skill :: rest =>
      fallback_loop resume_skills_norm rest
        (classify_fallback resume_skills_norm req_skill b)
  end.

(** Which loop runs. *)
Definition semantic_path (resume_skills_norm required_skills_norm : list string)
  : bool :=
  SKLEARN_AVAILABLE && (0 <? length resume_skills_norm)%nat
  && (0 <? length required_skills_norm)%nat.

(** [match_percentage] before [round]: the two lengths and [total_req]
    become floats, and the product, the sum, the quotient and the product
    by 100 are each rounded. *)
Definition percentage (b : buckets) (total_req : nat) : Q :=
  if (0 <? total_req)%nat then
    Num.mul
      (Num.b64 (Num.add (fcount (strong b)) (Num.mul (fcount (weak b)) (5 # 10))
                / Num.of_int (Z.of_nat total_req)))
      100
  else 0%Q.

Definition analyze_m (resume_skills required_skills : list string) : M report :=
  match resume_skills with
  | [] => ret (Report 0 [] [] required_skills)
  | _ =>
      let resume_skills_norm := normalize_all resume_skills in
      let required_skills_norm := normalize_all required_skills in
      b <- (if semantic_path resume_skills_norm required_skills_norm
            then semantic_loop resume_skills_norm required_skills_norm
                   (Buckets [] [] [])
            else ret (fallback_loop resume_skills_norm required_skills_norm
                        (Buckets [] [] []))) ;;
      let total_req := length required_skills_norm in
      ret (Report (Num.round (percentage b total_req) 2)
                  (strong b) (weak b) (missing b))
  end.

(** [analyze] run from an empty record of engine calls. *)
Definition analyze (resume_skills required_skills : list string)
  : outcome report * list engine_call :=
  analyze_m resume_skills required_skills [].

End Analyzer.

(** The strings a set of buckets classifies, with repetitions. *)
Definition classified (b : buckets) : list string :=
  strong b ++ (skill <$> weak b) ++ missing b.

(** One required skill [q] is put into exactly one bucket; a weak match
    names a resume skill. *)
Inductive placed (rs : list string) (q : string) (b b' : buckets) : Prop :=
| placed_strong :
    b' = Buckets (strong b ++ [q]) (weak b) (missing b) -> placed rs q b b'
| placed_weak res sim :
    res ∈ rs ->
    b' = Buckets (strong b) (weak b ++ [WeakMatch q res sim]) (missing b) ->
    placed rs q b b'
| placed_missing :
    b' = Buckets (strong b) (weak b) (missing b ++ [q]) -> placed rs q b b'.

Inductive placed_all (rs : list string) : list string -> buckets -> buckets -> Prop :=
| placed_nil b : placed_all rs [] b b
| placed_cons q reqs b b1 b2 :
    placed rs q b b1 -> placed_all rs reqs b1 b2 ->
    placed_all rs (q :: reqs) b b2.

(** What scikit-learn guarantees: one similarity per source string. *)
Definition engine_lengths (engine : string -> list string -> option (list Q))
  : Prop :=
  forall target source sims,
    engine target source = Some sims -> length sims = length source.

(** A skill string in normal form: lowercased and trimmed. *)
Definition normalized (s : string) : Prop := Py.lower s = s /\ Py.strip s = s.

(** A stand-in for the similarity engine, used to run the similarity path
    on examples: 1 for the same string, 1/2 when one string occurs in the
    other, 0 otherwise. *)
Definition toy_engine (target : string) (source : list string)
  : option (list Q) :=
  Some ((fun s => if String.eqb s target then 1%Q
                  else if Py.contains target s || Py.contains s target
                       then (5 # 10)%Q
                       else 0%Q) <$> source).

End SkillGap.

(** ** ats_score.py *)

Module ATSScorer.

(** [self.weights], in the order the dictionary is written: the decimal
    numbers of the five literals. *)
Definition weights : list (string * Q) :=
  [ ("keywords", 40 # 100); ("experience", 30 # 100); ("projects", 15 # 100);
    ("certifications", 10 # 100); ("formatting", 5 # 100) ].

(** The same five literals as binary64 numbers, in the same order. *)
#[warnings="-inexact-float"] Definition weights_binary64 : list float :=
  [0.40; 0.30; 0.15; 0.10; 0.05]%float.

(** [self.weights[name]]: the float of the literal. *)
Definition weight (name : string) : Q :=
  Num.b64 (default 0%Q (snd <$> List.find (fun e => String.eqb e.1 name) weights)).

(** The resume dictionary: both keys are read with [.get] and a default. *)
Record resume : Type := Resume {
  raw_text : option string;
  sections : option (gmap string string)
}.

(** [d.get(key, "")] *)
Definition get_str (d : gmap string string) (key : string) : string :=
  default "" (d !! key).

Record keyword_result : Type := KeywordResult {
  kw_score : Q;
  matching_keywords : list string;
  missing_keywords : list string
}.

Record experience_result : Type := ExperienceResult {
  exp_score : Q;
  exp_message : option string;
  relevant_terms_found : option (list string)
}.

Record project_result : Type := ProjectResult {
  proj_score : Q;
  proj_message : option string;
  word_count : option nat
}.

Record certification_result : Type := CertificationResult { cert_score : Q }.

Record formatting_result : Type := FormattingResult {
  fmt_score : Q;
  missing_sections : list string
}.

Record breakdown_t : Type := Breakdown {
  b_keywords : keyword_result;
  b_experience : experience_result;
  b_projects : project_result;
  b_certifications : certification_result;
  b_formatting : formatting_result
}.

Record score_report : Type := ScoreReport {
  overall_score : Q;
  breakdown : breakdown_t;
  suggestions : list string
}.

(** The stop words used when NLTK or its data is missing. *)
Definition fallback_stop_words : list string :=
  ["this"; "that"; "with"; "from"; "and"; "the"; "for"; "are"; "also";
   "your"; "have"; "been"; "was"].

Section Scorer.

(** [stopwords.words('english')] of NLTK; [None] when the import or the
    lookup raises. *)
Variable nltk_stopwords : option (list string).

(** The second definition of [_extract_keywords] in the class body is the
    one in force. *)
Definition _extract_keywords (text : string) : gset string :=
  let stop_words : gset string :=
    list_to_set (default fallback_stop_words nltk_stopwords) in
  let words := Re.findall Re.word3 (Py.lower text) in
  list_to_set (filter (fun w => w ∉ stop_words) words).

(** [list(s)[:n]]; the order in which Python lists a set is not fixed, the
    order here is that of [elements]. *)
Definition first_of (n : nat) (s : gset string) : list string :=
  take n (elements s).

Definition _score_keywords (resume_data : resume) (jd : string)
  : outcome keyword_result :=
  let jd_keywords := _extract_keywords jd in
  let resume_text :=
    Py.lower (default "" (raw_text resume_data) +:+ " "
              +:+ get_str (default ∅ (sections resume_data)) "skills") in
  let resume_keywords := _extract_keywords resume_text in
  let matches := jd_keywords ∩ resume_keywords in
  let missing := jd_keywords ∖ resume_keywords in
  match_ratio <~ (if bool_decide (jd_keywords = ∅) then Ok 0%Q
                  else py_div (inject_Z (Z.of_nat (size matches)))
                              (inject_Z (Z.of_nat (size jd_keywords)))) ;;
  let score := Num.min (Num.mul match_ratio 100) 100 in
  Ok (KeywordResult score (first_of 10 matches) (first_of 10 missing)).

Definition _score_experience (exp_text jd : string) : outcome experience_result :=
  if negb (Py.truthy (Py.strip exp_text)) then
    Ok (ExperienceResult 0 (Some "No experience section found.") None)
  else
    let jd_keywords := _extract_keywords jd in
    let exp_keywords := _extract_keywords exp_text in
    let matches := jd_keywords ∩ exp_keywords in
    ratio <~ (if bool_decide (jd_keywords = ∅)
              then py_div (inject_Z (Z.of_nat (size matches))) 1
              else py_div (Num.of_int (Z.of_nat (size matches)))
                          (Num.mul (Num.of_int (Z.of_nat (size jd_keywords)))
                                   (5 # 10))) ;;
    let score := Num.min (Num.mul ratio 100) 100 in
    Ok (ExperienceResult score None (Some (first_of 5 matches))).

Definition _score_projects (project_text : string) : project_result :=
  if negb (Py.truthy (Py.strip project_text)) then
    ProjectResult 0 (Some "No projects section found.") None
  else
    let word_count := length (Py.split project_text) in
    let score := if (100 <? word_count)%nat then 100%Q
                 else if (50 <? word_count)%nat then 70%Q
                 else 40%Q in
    ProjectResult score None (Some word_count).

Definition _score_certifications (cert_text : string) : certification_result :=
  CertificationResult (if Py.truthy (Py.strip cert_text) then 100%Q else 0%Q).

Definition _score_formatting (sections : gmap string string)
  : outcome formatting_result :=
  let required := ["education"; "experience"; "skills"] in
  let found :=
    filter (fun s => Is_true (Py.truthy (Py.strip (get_str sections s))))
           required in
  ratio <~ py_div (count found) (count required) ;;
  Ok (FormattingResult (Num.mul ratio 100)
        (filter (fun s => s ∉ found) required)).

Definition _generate_suggestions (kw : keyword_result) (exp : experience_result)
  (proj : project_result) (cert : certification_result) (fmt : formatting_result)
  : list string :=
  (if negb (Qle_bool 70 (kw_score kw)) then
     ["Add more keywords from the job description, especially: "
      +:+ Py.join ", " (take 3 (missing_keywords kw))]
   else [])
  ++ (if negb (Qle_bool 50 (exp_score exp)) then
        ["Tailor your experience bullet points to better match the target role's requirements."]
      else [])
  ++ (if Qeq_bool (proj_score proj) 0 then
        ["Add a projects section to demonstrate practical application of your skills."]
      else [])
  ++ (if negb (Qle_bool 100 (fmt_score fmt)) then
        ["Ensure your resume has these standard sections: "
         +:+ Py.join ", " (missing_sections fmt)]
      else []).

(** The weighted total before [round]: five products and four sums, from
    left to right, each rounded. *)
Definition weighted_total (b : breakdown_t) : Q :=
  Num.add
    (Num.add
       (Num.add
          (Num.add (Num.mul (kw_score (b_keywords b)) (weight "keywords"))
                   (Num.mul (exp_score (b_experience b)) (weight "experience")))
          (Num.mul (proj_score (b_projects b)) (weight "projects")))
       (Num.mul (cert_score (b_certifications b)) (weight "certifications")))
    (Num.mul (fmt_score (b_formatting b)) (weight "formatting")).

(** [calculate_score]; the lowered [raw_text] it binds first is not used. *)
Definition calculate_score (resume_data : resume) (job_description : string)
  : outcome score_report :=
  let sections := default ∅ (sections resume_data) in
  keyword_results <~ _score_keywords resume_data job_description ;;
  experience_results <~
    _score_experience (get_str sections "experience") job_description ;;
  let project_results := _score_projects (get_str sections "projects") in
  let cert_results := _score_certifications (get_str sections "certifications") in
  format_results <~ _score_formatting sections ;;
  let b := Breakdown keyword_results experience_results project_results
                     cert_results format_results in
  let total_score := weighted_total b in
  Ok (ScoreReport (Num.round total_score 2) b
        (_generate_suggestions keyword_results experience_results
           project_results cert_results format_results)).

End Scorer.

End ATSScorer.

(** ** vector_store.py *)

Module VectorStore.

(** A role dictionary as [add_roles] reads it: ['title'] is required,
    ['description'] and ['skills'] are read with [.get]. *)
Record role : Type := Role {
  title : string;
  description : option string;
  skills : option (list string)
}.

(** A copy of a role with its ["similarity_score"]. *)
Record scored_role : Type := ScoredRole {
  found : role;
  similarity_score : Q
}.

Definition vector : Type := list Q.

(** The attribute [self.model]: never assigned when the libraries are
    missing, [None] when loading the model failed. *)
Inductive model_attr : Type := ModelUnset | ModelNone | ModelLoaded.

(** The in-memory state of a store; [index] holds the vectors of the
    [IndexFlatL2], [None] when no index was created. *)
Record store : Type := Store {
  model : model_attr;
  index : option (list vector);
  roles_metadata : list role
}.

(** [self.index.ntotal] *)
Definition ntotal (ix : list vector) : Z := Z.of_nat (length ix).

(** [l[i]] with Python's negative offsets. *)
Definition py_item {A} (l : list A) (i : Z) : outcome A :=
  let j := if (i <? 0)%Z then (i + Z.of_nat (length l))%Z else i in
  if (j <? 0)%Z then Raise IndexError
  else match l !! Z.to_nat j with
       | Some x => Ok x
       | None => Raise IndexError
       end.

(** The index and the metadata are in lock-step: as many vectors as roles. *)
Definition lock_step (st : store) : Prop :=
  match index st with
  | Some ix => length ix = length (roles_metadata st)
  | None => True
  end.

(** What a path of the file system holds: an index as
    [faiss.write_index] writes it, a list of roles as [pickle.dump] writes
    it, or anything else (another file, a file cut short, a directory).
    faiss and pickle read back what they wrote and raise on anything else.
    Two different path strings are taken to name two different files. *)
Inductive content : Type :=
| IndexFile (ix : list vector)
| PickleFile (metadata : list role)
| Other.

Abbreviation files := (gmap string content).

(** [os.path.exists(path)] *)
Definition path_exists (fs : files) (path : string) : bool :=
  Py.truthy path && bool_decide (is_Some (fs !! path)).

(** [faiss.read_index(path)] *)
Definition read_index (fs : files) (path : string) : outcome (list vector) :=
  match fs !! path with
  | Some (IndexFile ix) => Ok ix
  | _ => Raise RuntimeError
  end.

(** [pickle.load] on the file opened at [path] *)
Definition pickle_load (fs : files) (path : string) : outcome (list role) :=
  match fs !! path with
  | Some (PickleFile metadata) => Ok metadata
  | Some _ => Raise UnpicklingError
  | None => Raise FileNotFoundError
  end.

(** How a write ends: the file is written; or the write raises before the
    file is opened, and the path holds what it held; or it raises after,
    and the file is cut short. *)
Inductive write_result : Type := Written | FailedBefore | FailedDuring.

(** A write of [c] at [path]; the boolean tells whether it returned. *)
Definition write (res : write_result) (path : string) (c : content)
  (fs : files) : bool * files :=
  match res with
  | Written => (true, <[path := c]> fs)
  | FailedBefore => (false, fs)
  | FailedDuring => (false, <[path := Other]> fs)
  end.

Section Store.

(** [VECTOR_SEARCH_AVAILABLE]: whether faiss and sentence-transformers could
    be imported. *)
Variable VECTOR_SEARCH_AVAILABLE : bool.

(** Whether [SentenceTransformer(model_name)] returns; it raises
    otherwise. *)
Variable model_loads : bool.

(** [self.model.encode([text])[0]] of the sentence transformer. *)
Variable encode : string -> vector.

(** [index.search(query, k)] of faiss on the stored vectors: for each of the
    [k] places a distance and the offset of a stored vector, or [-1]. *)
Variable faiss_search : list vector -> vector -> Z -> list (Q * Z).

(** [self.index_path], the argument of [__init__]. *)
Variable index_path : string.

(** Whether the file system lets [os.makedirs] make the directory of
    [index_path], or has it already. *)
Variable makedirs_ok : bool.

(** How [faiss.write_index] and the [pickle.dump] of [save_index] end. *)
Variable write_index_result : write_result.
Variable pickle_dump_result : write_result.

(** [self.metadata_path]: every [".bin"] of the index path is replaced;
    a path without [".bin"] is its own metadata path. *)
Definition metadata_path : string := Py.replace index_path ".bin" "_meta.pkl".

(** [os.makedirs(path, exist_ok=True)]: the empty path is no directory. *)
Definition makedirs (path : string) : outcome unit :=
  if negb (Py.truthy path) then Raise FileNotFoundError
  else if makedirs_ok then Ok tt
  else Raise OSError.

(** The store after [__init__] when there is no snapshot on disk. *)
Definition fresh : store :=
  if VECTOR_SEARCH_AVAILABLE then Store ModelLoaded (Some []) []
  else Store ModelUnset None [].

(** [_create_new_index]: nothing happens when [self.model] is [None]. *)
Definition _create_new_index (st : store) : outcome store :=
  match model st with
  | ModelLoaded => Ok (Store (model st) (Some []) [])
  | ModelNone => Ok st
  | ModelUnset => Raise AttributeError
  end.

(** [_load_index]: both files are read inside one [try]; the index is
    assigned before the metadata is read. *)
Definition _load_index (st : store) (fs : files) : outcome store :=
  if path_exists fs index_path && path_exists fs metadata_path then
    match read_index fs index_path with
    | Ok ix =>
        match pickle_load fs metadata_path with
        | Ok metadata => Ok (Store (model st) (Some ix) metadata)
        | Raise _ =>
            _create_new_index (Store (model st) (Some ix) (roles_metadata st))
        end
    | Raise _ => _create_new_index st
    end
  else _create_new_index st.

(** [__init__] over the files of [fs]: an exception of the model or of
    [_load_index] leaves [self.model] at [None]. *)
Definition init (fs : files) : store :=
  if VECTOR_SEARCH_AVAILABLE then
    if model_loads then
      match _load_index (Store ModelLoaded None []) fs with
      | Ok st => st
      | Raise _ => Store ModelNone None []
      end
    else Store ModelNone None []
  else Store ModelUnset None [].

(** [save_index]: nothing is written without an index.  [os.makedirs] is
    called before the [try], so its exception leaves [save_index]; an
    exception of a write is logged, and the write after it is not made. *)
Definition save_index (st : store) (fs : files) : outcome unit * files :=
  match index st with
  | None => (Ok tt, fs)
  | Some ix =>
      match makedirs (Py.dirname index_path) with
      | Raise e => (Raise e, fs)
      | Ok _ =>
          match write write_index_result index_path (IndexFile ix) fs with
          | (true, fs1) =>
              (Ok tt,
               (write pickle_dump_result metadata_path
                  (PickleFile (roles_metadata st)) fs1).2)
          | (false, fs1) => (Ok tt, fs1)
          end
      end
  end.

(** The text embedded for a role. *)
Definition role_text (r : role) : string :=
  title r +:+ " " +:+ default "" (description r) +:+ " "
  +:+ Py.join " " (default [] (skills r)).

(** [add_roles]: how the call ends, the store and the files after it.  The
    store is changed in place before [save_index] is called, so it holds
    the new roles also when [save_index] raises.  The encoder and
    [index.add] are taken to accept the batch of texts they are given. *)
Definition add_roles (st : store) (fs : files) (roles : list role)
  : outcome unit * store * files :=
  match VECTOR_SEARCH_AVAILABLE, model st with
  | false, _ => (Ok tt, st, fs)
  | true, ModelUnset => (Raise AttributeError, st, fs)
  | true, ModelNone => (Ok tt, st, fs)
  | true, ModelLoaded =>
      let embeddings := map (fun r => encode (role_text r)) roles in
      (* [_create_new_index] also empties the metadata *)
      let '(ix, metadata) := match index st with
                             | Some ix => (ix, roles_metadata st)
                             | None => ([], [])
                             end in
      let st' := Store (model st) (Some (ix ++ embeddings)) (metadata ++ roles) in
      let '(r, fs') := save_index st' fs in
      (r, st', fs')
  end.

(** The loop over [indices[0]] with its distances. *)
Fixpoint collect (metadata : list role) (hits : list (Q * Z))
  : outcome (list scored_role) :=
  match hits with
  | [] => Ok []
  | (distance, idx) :: rest =>
      if negb (idx =? -1)%Z && (idx <? Z.of_nat (length metadata))%Z then
        r <~ py_item metadata idx ;;
        results <~ collect metadata rest ;;
        Ok (ScoredRole r distance :: results)
      else collect metadata rest
  end.

Definition search_similar_roles (st : store) (query : string) (k : Z)
  : outcome (list scored_role) :=
  match VECTOR_SEARCH_AVAILABLE, index st with
  | false, _ => Ok []
  | true, None => Ok []
  | true, Some ix =>
      if (ntotal ix =? 0)%Z then Ok []
      else
        match model st with
        | ModelLoaded =>
            collect (roles_metadata st) (faiss_search ix (encode query) k)
        | _ => Raise AttributeError
        end
  end.

(** The number of roles in the index; none when there is no index. *)
Definition indexed_roles (st : store) : Z :=
  match index st with
  | Some ix => ntotal ix
  | None => 0%Z
  end.

End Store.

End VectorStore.

(** ** recommender.py *)

Module Recommender.

(** A project of [self.project_templates]. *)
Record project : Type := Project {
  title : string;
  tech_stack : list string;
  difficulty : string;
  description : string;
  bullets : list string
}.

(** [self.project_templates], in the order the dictionary is written. *)
Definition project_templates : list (string * list project) :=
  [ ("python",
     [ Project "Automated Trading Bot"
         ["Python"; "Pandas"; "API Integration"]
         "Intermediate"
         "Develop a bot that fetches real-time market data and executes trades based on technical indicators."
         [ "Architected a real-time data pipeline using Python and REST APIs to process market volatility.";
           "Implemented technical analysis algorithms using Pandas, resulting in a 15% improvement in strategy backtesting efficiency." ];
       Project "RESTful API with Flask/FastAPI"
         ["Python"; "FastAPI"; "PostgreSQL"; "Docker"]
         "Beginner"
         "Build a scalable backend API for a task management system with JWT authentication."
         [ "Developed a high-performance RESTful API using FastAPI and PostgreSQL, handling 500+ requests per second.";
           "Containerized the application using Docker, reducing deployment time by 40%." ] ]);
    ("react",
     [ Project "Interactive Dashboard"
         ["React"; "Tailwind CSS"; "Recharts"]
         "Intermediate"
         "Create a data visualization dashboard for tracking personal finance or SaaS metrics."
         [ "Built a responsive analytics dashboard using React and Tailwind CSS, improving user engagement by 25%.";
           "Integrated Recharts for dynamic data visualization, enabling users to track complex metrics in real-time." ] ]);
    ("machine learning",
     [ Project "Sentiment Analysis Tool"
         ["Python"; "Scikit-learn"; "NLTK"; "Flask"]
         "Intermediate"
         "Build a tool that analyzes social media sentiment for specific brands or products."
         [ "Developed a sentiment analysis engine using Scikit-learn and NLTK with an 85% accuracy rate on Twitter data.";
           "Deployed the model as a web service using Flask, providing real-time insights via a REST API." ] ]);
    ("docker",
     [ Project "Microservices Orchestration"
         ["Docker"; "Docker Compose"; "Nginx"; "Redis"]
         "Advanced"
         "Set up a multi-container environment with load balancing and caching."
         [ "Optimized system architecture by implementing Docker Compose for microservices orchestration.";
           "Configured Nginx as a reverse proxy and Redis for caching, reducing latency by 30%." ] ]) ].

(** The dictionary [generate_recommendations] returns. *)
Record recommendations : Type := Recommendations {
  target_role : string;
  recommended_projects : list project;
  general_tips : list string
}.

(** The two accumulators of the loops: [recommendations] and
    [seen_projects]. *)
Definition acc : Type := list project * gset string.

(** [key in skill_lower or skill_lower in key] *)
Definition related (key skill_lower : string) : bool :=
  Py.contains key skill_lower || Py.contains skill_lower key.

(** [for proj in projects: if proj["title"] not in seen_projects: ...] *)
Fixpoint add_projects (projects : list project) (a : acc) : acc :=
  match projects with
  | [] => a
  | proj :: rest =>
      add_projects rest
        (if bool_decide (title proj ∈ a.2) then a
         else (a.1 ++ [proj], a.2 ∪ {[title proj]}))
  end.

(** [for key, projects in self.project_templates.items(): ...] *)
Fixpoint add_templates (templates : list (string * list project))
  (skill_lower : string) (a : acc) : acc :=
  match templates with
  | [] => a
  | (key, projects) :: rest =>
      add_templates rest skill_lower
        (if related key skill_lower then add_projects projects a else a)
  end.

(** [for skill in missing_skills: ...] *)
Fixpoint add_skills (missing_skills : list string) (a : acc) : acc :=
  match missing_skills with
  | [] => a
  | skill :: rest =>
      add_skills rest (add_templates project_templates (Py.lower skill) a)
  end.

(** [self.project_templates.get(key, [])] *)
Definition templates_of (key : string) : list project :=
  default [] (snd <$> List.find (fun e => String.eqb e.1 key) project_templates).

Definition general_tips_text : list string :=
  [ "Quantify your achievements using the Google X-Y-Z formula (Accomplished [X] as measured by [Y], by doing [Z]).";
    "Ensure your GitHub profile has a clean README for your top 3 projects.";
    "Include a 'Technical Skills' section categorized by Languages, Frameworks, and Tools." ].

Definition generate_recommendations (missing_skills : list string)
  (target_role : string) : recommendations :=
  let found := (add_skills missing_skills ([], ∅)).1 in
  let recommendations :=
    match found with
    | [] => take 2 (templates_of "python")
    | _ => found
    end in
  Recommendations target_role (take 3 recommendations) general_tips_text.

(** Every project of the templates, and the projects filed under a key
    related to some skill of a list. *)
Definition all_templates : list project :=
  concat (snd <$> project_templates).

Definition relevant (missing_skills : list string) (proj : project) : Prop :=
  exists skill key projects,
    skill ∈ missing_skills /\ (key, projects) ∈ project_templates
    /\ related key (Py.lower skill) = true /\ proj ∈ projects.

(** The accumulators agree: the seen titles are the titles of the
    recommendations, and no title occurs twice. *)
Definition acc_ok (a : acc) : Prop :=
  NoDup (title <$> a.1) /\ forall t, t ∈ a.2 <-> t ∈ title <$> a.1.

End Recommender.

(** ** A backtracking matcher for the other patterns of [resume_parser.py]

    Character classes repeated greedily, sequence, alternation (the left
    branch first), an optional group and [\b]; the continuation [k] of a
    match is what remains of the pattern, so a failure further on makes a
    repetition give characters back and an alternation try its next
    branch. *)

Module Rx.

Inductive rx : Type :=
| Eps
| Bnd                                               (* \b *)
| Rep (cls : ascii -> bool) (lo : nat) (hi : option nat)   (* [cls]{lo,hi} *)
| Seq (a b : rx)
| Alt (a b : rx)
| Opt (a : rx).                                     (* (a)? *)

(** One character of a class, one given character, [[cls]+], [[cls]*],
    [[cls]?], and a literal string. *)
Definition one (cls : ascii -> bool) : rx := Rep cls 1 (Some 1).
Definition chr (c : ascii) : rx := one (Ascii.eqb c).
Definition plus (cls : ascii -> bool) : rx := Rep cls 1 None.
Definition star (cls : ascii -> bool) : rx := Rep cls 0 None.
Definition maybe (cls : ascii -> bool) : rx := Rep cls 0 (Some 1).

Fixpoint lit (s : string) : rx :=
  match s with
  | EmptyString => Eps
  | String c r => Seq (chr c) (lit r)
  end.

Fixpoint seq (rs : list rx) : rx :=
  match rs with
  | [] => Eps
  | r :: rest => Seq r (seq rest)
  end.

(** Number of consecutive characters of a class at the start of [s]. *)
Fixpoint class_run (cls : ascii -> bool) (s : string) : nat :=
  match s with
  | String c r => if cls c then S (class_run cls r) else O
  | EmptyString => O
  end.

(** Match [r] at offset [p] and go on with [k]; the result is the end
    offset of the whole match. *)
Fixpoint run (r : rx) (text : string) (p : nat) (k : nat -> option nat)
  : option nat :=
  match r with
  | Eps => k p
  | Bnd => if Re.boundary text p then k p else None
  | Rep cls lo hi =>
      let n := class_run cls (Py.drop p text) in
      let n := match hi with Some h => Nat.min n h | None => n end in
      Re.give_back k p lo n
  | Seq a b => run a text p (fun q => run b text q k)
  | Alt a b =>
      match run a text p k with
      | Some e => Some e
      | None => run b text p k
      end
  | Opt a =>
      match run a text p k with
      | Some e => Some e
      | None => k p
      end
  end.

Definition match_at (r : rx) (text : string) (p : nat) : option nat :=
  run r text p Some.

(** The scan of [re.finditer] and [re.search]: [rest] is the text from
    offset [pos] on, and offsets below [next] lie inside the previous
    match. *)
Fixpoint scan (r : rx) (text : string) (pos next : nat) (rest : string)
  : list (nat * nat) :=
  let here := if (pos <? next)%nat then None else match_at r text pos in
  let next' := match here with Some e => e | None => next end in
  let later := match rest with
               | EmptyString => []
               | String _ rest' => scan r text (S pos) next' rest'
               end in
  match here with
  | Some e => (pos, e) :: later
  | None => later
  end.

(** [re.findall(r, text)] for a pattern without capturing groups. *)
Definition findall (r : rx) (text : string) : list string :=
  (fun se => Py.slice text (Z.of_nat se.1) (Z.of_nat se.2)) <$> scan r text 0 0 text.

(** [re.search(r, text)], as the matched text [m.group(0)]. *)
Definition search (r : rx) (text : string) : option string :=
  head (findall r text).

(** [re.sub(r, repl, text)] for a replacement without group references:
    a match is replaced, a character outside every match is kept, and an
    empty match puts the replacement in front of the character it stands
    at. *)
Fixpoint sub_go (r : rx) (repl text : string) (pos next : nat) (rest : string)
  : string :=
  match rest with
  | EmptyString =>
      match (if (pos <? next)%nat then None else match_at r text pos) with
      | Some _ => repl
      | None => EmptyString
      end
  | String c rest' =>
      if (pos <? next)%nat then sub_go r repl text (S pos) next rest'
      else match match_at r text pos with
           | Some e =>
               if (e <=? pos)%nat
               then repl +:+ String c (sub_go r repl text (S pos) next rest')
               else repl +:+ sub_go r repl text (S pos) e rest'
           | None => String c (sub_go r repl text (S pos) next rest')
           end
  end.

Definition sub (r : rx) (repl text : string) : string :=
  sub_go r repl text 0 0 text.

(** The classes a pattern takes its characters from, and the least
    number of characters a match of it has. *)
Fixpoint classes (r : rx) : list (ascii -> bool) :=
  match r with
  | Eps | Bnd => []
  | Rep cls _ _ => [cls]
  | Seq a b | Alt a b => classes a ++ classes b
  | Opt a => classes a
  end.

Fixpoint min_len (r : rx) : nat :=
  match r with
  | Eps | Bnd | Opt _ => O
  | Rep _ lo _ => lo
  | Seq a b => (min_len a + min_len b)%nat
  | Alt a b => Nat.min (min_len a) (min_len b)
  end.

End Rx.

(** ** resume_parser.py: cleaning, contact details and [parse] *)

Module ResumeText.

Definition in_range (lo hi : nat) (c : ascii) : bool :=
  let n := nat_of_ascii c in ((lo <=? n) && (n <=? hi))%nat.
Definition upper (c : ascii) : bool := in_range 65 90 c.
Definition lowercase (c : ascii) : bool := in_range 97 122 c.
Definition digit (c : ascii) : bool := in_range 48 57 c.
Definition among (s : string) (c : ascii) : bool :=
  existsb (Ascii.eqb c) (list_ascii_of_string s).

(** [[^\x00-\x7F]] *)
Definition nonascii (c : ascii) : bool := (128 <=? nat_of_ascii c)%nat.

(** [r'[^\x00-\x7F]+'] *)
Definition nonascii_run : Rx.rx := Rx.plus nonascii.

(** [r'\n\s*\n'] *)
Definition blank_lines : Rx.rx :=
  Rx.Seq (Rx.chr Py.LF) (Rx.Seq (Rx.star Py.isspace) (Rx.chr Py.LF)).

Definition clean_text (text : string) : string :=
  let text := Rx.sub nonascii_run " " text in
  let text := Rx.sub blank_lines Py.nl text in
  Py.strip text.

(** A line feed within the white space [s] starts with. *)
Fixpoint lead_nl (s : string) : bool :=
  match s with
  | EmptyString => false
  | String c r =>
      if Ascii.eqb c Py.LF then true
      else if Py.isspace c then lead_nl r else false
  end.

(** No line feed of [s] is followed by white space and a second line
    feed. *)
Fixpoint no_blank_line (s : string) : bool :=
  match s with
  | EmptyString => true
  | String c r => negb (Ascii.eqb c Py.LF && lead_nl r) && no_blank_line r
  end.

(** [[A-Za-z0-9._%+-]], [[A-Za-z0-9.-]], [[A-Z|a-z]], [[\-.\s]],
    [[a-zA-Z0-9-]] and [[^\s]] *)
Definition email_local (c : ascii) : bool :=
  upper c || lowercase c || digit c || among "._%+-" c.
Definition email_domain (c : ascii) : bool :=
  upper c || lowercase c || digit c || among ".-" c.
Definition email_tld (c : ascii) : bool := upper c || among "|" c || lowercase c.
Definition phone_sep (c : ascii) : bool := among "-." c || Py.isspace c.
Definition host (c : ascii) : bool := lowercase c || upper c || digit c || among "-" c.
Definition not_space (c : ascii) : bool := negb (Py.isspace c).

(** [self.email_pattern]:
    [r'\b[A-Za-z0-9._%+-]+@[A-Za-z0-9.-]+\.[A-Z|a-z]{2,}\b'] *)
Definition email_pattern : Rx.rx :=
  Rx.seq [ Rx.Bnd; Rx.plus email_local; Rx.chr "@"; Rx.plus email_domain;
           Rx.chr "."; Rx.Rep email_tld 2 None; Rx.Bnd ].

(** [self.phone_pattern]:
    [r'(\+?\d{1,3}[\-.\s]?)?(\(?\d{3}\)?[\-.\s]?)?\d{3}[\-.\s]?\d{4}'] *)
Definition phone_pattern : Rx.rx :=
  Rx.seq [ Rx.Opt (Rx.seq [ Rx.maybe (among "+"); Rx.Rep digit 1 (Some 3);
                            Rx.maybe phone_sep ]);
           Rx.Opt (Rx.seq [ Rx.maybe (among "("); Rx.Rep digit 3 (Some 3);
                            Rx.maybe (among ")"); Rx.maybe phone_sep ]);
           Rx.Rep digit 3 (Some 3); Rx.maybe phone_sep;
           Rx.Rep digit 4 (Some 4) ].

(** [self.url_pattern]:
    [r'\b(?:https?://|www\.|[a-zA-Z0-9-]+\.[a-z]{2,})[^\s]*\b'] *)
Definition url_pattern : Rx.rx :=
  Rx.seq [ Rx.Bnd;
           Rx.Alt (Rx.seq [ Rx.lit "http"; Rx.maybe (among "s"); Rx.lit "://" ])
             (Rx.Alt (Rx.lit "www.")
                (Rx.seq [ Rx.plus host; Rx.chr "."; Rx.Rep lowercase 2 None ]));
           Rx.star not_space; Rx.Bnd ].

(** The dictionary [extract_contact_info] returns. *)
Record contact_info : Type := ContactInfo {
  email : option string;
  phone : option string;
  links : list string
}.

Definition extract_contact_info (text : string) : contact_info :=
  let email := Rx.search email_pattern text in
  let phone := Rx.search phone_pattern text in
  let links := Rx.findall url_pattern text in
  let links :=
    match email with
    | Some email_str =>
        if Py.truthy email_str
        then filter (fun link => link <> email_str) links
        else links
    | None => links
    end in
  ContactInfo email phone links.

(** The dictionary [parse] returns; [parsed_date] is a constant of the
    code. *)
Record parsed : Type := Parsed {
  file_path : string;
  parsed_date : string;
  contact : contact_info;
  sections : gmap string string;
  raw_text : string
}.

Section Parser.

(** What pdfplumber gives for a path: the text of each page ([None] or
    the empty string for a page without text), or an exception. *)
Variable pdf_pages : string -> outcome (list (option string)).

(** The loop over the pages. *)
Fixpoint join_pages (pages : list (option string)) : string :=
  match pages with
  | [] => ""
  | page :: rest =>
      (match page with
       | Some page_text =>
           if Py.truthy page_text then page_text +:+ Py.nl else ""
       | None => ""
       end) +:+ join_pages rest
  end.

(** [extract_text_from_pdf]: an exception is logged and raised again. *)
Definition extract_text_from_pdf (path : string) : outcome string :=
  pages <~ pdf_pages path ;;
  Ok (join_pages pages).

Definition parse (path : string) : outcome parsed :=
  raw_text <~ extract_text_from_pdf path ;;
  let clean_text_data := clean_text raw_text in
  let contact_info := extract_contact_info clean_text_data in
  let sections := ResumeParser.segment_sections clean_text_data in
  Ok (Parsed path "2025-12-24" contact_info sections raw_text).

End Parser.

End ResumeText.

(** ** main.py: the upload filter and the [/api/analyze] endpoint *)

Module Api.

(** [filename.rsplit('.', 1)[1]] when ['.' in filename]: what follows the
    last occurrence of [c]. *)
Fixpoint after_last (c : ascii) (s : string) : option string :=
  match s with
  | EmptyString => None
  | String d r =>
      match after_last c r with
      | Some t => Some t
      | None => if Ascii.eqb c d then Some r else None
      end
  end.

Definition ALLOWED_EXTENSIONS : list string := ["pdf"].

Definition allowed_file (filename : string) : bool :=
  match after_last "." filename with
  | Some extension => bool_decide (Py.lower extension ∈ ALLOWED_EXTENSIONS)
  | None => false
  end.

(** [s.split(c)] for a separator of one character. *)
Fixpoint split_on (c : ascii) (s : string) : list string :=
  match s with
  | EmptyString => [EmptyString]
  | String d r =>
      if Ascii.eqb c d then EmptyString :: split_on c r
      else match split_on c r with
           | w :: ws => String d w :: ws
           | [] => [String d EmptyString]
           end
  end.

(** [[s.strip() for s in text.split(',') if s.strip()]] *)
Definition skills_list (resume_skills_text : string) : list string :=
  Py.strip <$> filter (fun s => Is_true (Py.truthy (Py.strip s)))
                 (split_on "," resume_skills_text).

(** What the [try] block of the endpoint can catch: a missing key, or an
    exception of one of the services. *)
Inductive error : Type :=
| KeyError (key : string)
| Raised (e : exn).

Inductive tried (A : Type) : Type :=
| Got (a : A)
| Threw (e : error).
Arguments Got {A} a.
Arguments Threw {A} e.

Definition tried_bind {A B} (m : tried A) (k : A -> tried B) : tried B :=
  match m with
  | Got a => k a
  | Threw e => Threw e
  end.

Notation "x <<~ m ;;; k" := (tried_bind m (fun x => k))
  (at level 100, m at next level, right associativity).

Definition service {A} (m : outcome A) : tried A :=
  match m with
  | Ok a => Got a
  | Raise e => Threw (Raised e)
  end.

(** [d[key]] *)
Definition item {A} (key : string) (value : option A) : tried A :=
  match value with
  | Some a => Got a
  | None => Threw (KeyError key)
  end.

(** The JSON body of a request: each key may be absent; the values have
    the types the front end sends. *)
Record request : Type := Request {
  resume_data : option ATSScorer.resume;
  target_role : option string;
  job_description : option string
}.

(** A response: the body and the status, 200, 400 or 500. *)
Inductive response (A : Type) : Type :=
| Status200 (body : A)
| Status400 (message : string)
| Status500 (cause : error).
Arguments Status200 {A} body.
Arguments Status400 {A} message.
Arguments Status500 {A} cause.

Section Endpoint.

(** The services [create_app] builds, with what they depend on, and the
    role store as it is when the request arrives. *)
Variable nltk_stopwords : option (list string).
Variable SKLEARN_AVAILABLE : bool.
Variable tfidf_cosine : string -> list string -> option (list Q).
Variable VECTOR_SEARCH_AVAILABLE : bool.
Variable encode : string -> VectorStore.vector.
Variable faiss_search :
  list VectorStore.vector -> VectorStore.vector -> Z -> list (Q * Z).
Variable vector_store : VectorStore.store.

(** [llm_agent.analyze_resume], which catches what the model raises. *)
Variable insights : Type.
Variable llm_analyze : ATSScorer.resume -> string -> list string -> insights.

Record payload : Type := Payload {
  ats_analysis : ATSScorer.score_report;
  skill_gap : SkillGap.report;
  recommendations : Recommender.recommendations;
  llm_insights : insights;
  role : string;
  description_used : string
}.

Definition fallback_skills : list string := ["Python"; "JavaScript"; "SQL"; "Git"].

(** Step 1 of the endpoint: the job description used and the required
    skills.  The store is asked only when no description was sent; the
    keywords of a description are listed in the order of [elements]. *)
Definition job_requirements (target_role job_description : string)
  : tried (string * list string) :=
  if negb (Py.truthy job_description) then
    roles <<~ service (VectorStore.search_similar_roles VECTOR_SEARCH_AVAILABLE
                         encode faiss_search vector_store target_role 1) ;;;
    match roles with
    | found_role :: _ =>
        let r := VectorStore.found found_role in
        description <<~ item "description" (VectorStore.description r) ;;;
        let skills := default [] (VectorStore.skills r) in
        Got (VectorStore.title r +:+ " " +:+ description +:+ " "
             +:+ Py.join " " skills,
             skills)
    | [] => Got (job_description, fallback_skills)
    end
  else
    Got (job_description,
         elements (ATSScorer._extract_keywords nltk_stopwords job_description)).

Definition analyze_body (resume_data : ATSScorer.resume)
  (target_role job_description : string) : tried payload :=
  requirements <<~ job_requirements target_role job_description ;;;
  let job_description := requirements.1 in
  let required_skills := requirements.2 in
  ats_results <<~ service (ATSScorer.calculate_score nltk_stopwords resume_data
                             job_description) ;;;
  sections <<~ item "sections" (ATSScorer.sections resume_data) ;;;
  let resume_skills_text := ATSScorer.get_str sections "skills" in
  let resume_skills_list := skills_list resume_skills_text in
  gap_results <<~ service (SkillGap.analyze SKLEARN_AVAILABLE tfidf_cosine
                             resume_skills_list required_skills).1 ;;;
  let rec_results :=
    Recommender.generate_recommendations (SkillGap.missing_skills gap_results)
      target_role in
  let llm_results := llm_analyze resume_data target_role required_skills in
  Got (Payload ats_results gap_results rec_results llm_results target_role
         (if Py.truthy job_description
          then Py.slice job_description 0 200 +:+ "..."
          else "Generic")).

Definition analyze_resume (data : request) : response payload :=
  match resume_data data, target_role data with
  | Some resume_data, Some target_role =>
      match analyze_body resume_data target_role
              (default "" (job_description data)) with
      | Got body => Status200 body
      | Threw e => Status500 e
      end
  | _, _ => Status400 "Missing resume_data or target_role"
  end.

End Endpoint.

(** The request of [test_analyze_endpoint_structure], and a store that
    holds one role without a description. *)
Definition sample_request : request :=
  Request
    (Some (ATSScorer.Resume (Some "Python Developer with SQL skills")
             (Some (<["skills" := "Python, SQL"]>
                      (<["experience" := "Dev at Corp"]> ∅)))))
    (Some "Backend Developer") None.

Definition bare_role_store : VectorStore.store :=
  VectorStore.Store VectorStore.ModelLoaded (Some [[0%Q]])
    [VectorStore.Role "Backend Developer" None (Some ["Python"; "SQL"])].

End Api.

(** ** llm_agent.py *)

Module LLMAgent.

(** [s.split(sep)] for a separator that is not empty: the pieces between
    the occurrences of [sep], found from left to right; [skip] counts the
    characters of the occurrence being passed. *)
Fixpoint split_go (sep : string) (skip : nat) (s : string) : list string :=
  match s with
  | EmptyString => [EmptyString]
  | String c r =>
      match skip with
      | S k => split_go sep k r
      | O =>
          if String.prefix sep s
          then EmptyString :: split_go sep (String.length sep - 1) r
          else match split_go sep 0 r with
               | w :: ws => String c w :: ws
               | [] => [String c EmptyString]
               end
      end
  end.

Definition split (sep s : string) : list string := split_go sep 0 s.

Definition fence : string := "```".
Definition json_fence : string := "```json".

(** The clean-up of the answer before [json.loads]. *)
Definition strip_fences (content : string) : outcome string :=
  if Py.contains json_fence content then
    inner <~ VectorStore.py_item (split json_fence content) 1 ;;
    first <~ VectorStore.py_item (split fence inner) 0 ;;
    Ok (Py.strip first)
  else if Py.contains fence content then
    inner <~ VectorStore.py_item (split fence content) 1 ;;
    Ok (Py.strip inner)
  else Ok content.

Record project_idea : Type := ProjectIdea {
  title : string;
  tech_stack : list string;
  impact : string
}.

Record mock : Type := Mock {
  score : Z;
  explanation : string;
  missing_skills : list string;
  project_recommendations : list project_idea;
  learning_roadmap : list string;
  resume_improvements : list string
}.

Definition _mock_analysis (target_role : string) : mock :=
  Mock 75 "Mock Score: Good keyword density but missing some advanced terms."
    ["Advanced Pattern Matching"; "System Design"; "Cloud Native"]
    [ProjectIdea ("Advanced " +:+ target_role +:+ " System")
       ["Relevant Tech 1"; "Relevant Tech 2"]
       "Build a scalable system to demonstrate architecture skills."]
    ["Month 1: Master fundamentals and missing skills.";
     "Month 2: Build a capstone project.";
     "Month 3: Mock interviews and system design."]
    ["Quantify your bullet points more.";
     "Add a summary section specific to this role."].

Section Agent.

(** The values of [json.loads], which is [None] where it raises. *)
Variable json : Type.
Variable json_loads : string -> option json.

(** [self.llm]: [None] without an API key; otherwise the answer of the
    model to the prompt made of the three arguments, [None] where
    [invoke] raises. *)
Variable llm :
  option (ATSScorer.resume -> string -> list string -> option string).

Inductive analysis : Type :=
| Fallback (m : mock)
| Parsed (j : json).

Definition analyze_resume (resume_data : ATSScorer.resume) (target_role : string)
  (job_requirements : list string) : analysis :=
  match llm with
  | None => Fallback (_mock_analysis target_role)
  | Some invoke =>
      match invoke resume_data target_role job_requirements with
      | None => Fallback (_mock_analysis target_role)
      | Some content =>
          match strip_fences content with
          | Ok content =>
              match json_loads content with
              | Some j => Parsed j
              | None => Fallback (_mock_analysis target_role)
              end
          | Raise _ => Fallback (_mock_analysis target_role)
          end
      end
  end.

(** [chat_with_mentor]; the model answers to the message and the
    context. *)
Variable chat : option (string -> option string -> option string).

Definition chat_with_mentor (message : string) (context : option string)
  : string :=
  match chat with
  | None =>
      "I am currently in offline mode. Please configure my OpenAI API key to enable chat."
  | Some invoke =>
      match invoke message context with
      | Some content => content
      | None => "I'm having trouble thinking right now. Please try again later."
      end
  end.

End Agent.

End LLMAgent.

(** ** Test data

    The sample resume of [tests/test_resume_parser.py]. *)

Definition sample_text : string :=
  Py.nl
  +:+ "        John Doe" +:+ Py.nl
  +:+ "        john.doe@example.com" +:+ Py.nl
  +:+ "        (123) 456-7890" +:+ Py.nl
  +:+ "        linkedin.com/in/johndoe" +:+ Py.nl
  +:+ Py.nl
  +:+ "        EDUCATION" +:+ Py.nl
  +:+ "        B.S. Computer Science, University of Tech" +:+ Py.nl
  +:+ "        2018 - 2022" +:+ Py.nl
  +:+ Py.nl
  +:+ "        EXPERIENCE" +:+ Py.nl
  +:+ "        Software Engineer, Tech Corp" +:+ Py.nl
  +:+ "        2022 - Present" +:+ Py.nl
  +:+ "        - Built amazing things." +:+ Py.nl
  +:+ Py.nl
  +:+ "        SKILLS" +:+ Py.nl
  +:+ "        Python, JavaScript, SQL" +:+ Py.nl
  +:+ "        ".

(** Eighty required skills of three letters, and a resume list that has
    the first eleven of them and, for the twelfth, a longer name. *)
Definition skill_code (n : nat) : string :=
  String "k" (String (ascii_of_nat (97 + n / 26))
                (String (ascii_of_nat (97 + n mod 26)) "")).

Definition eighty_required : list string := skill_code <$> seq 0 80.

Definition twelve_resume : list string :=
  take 11 eighty_required ++ [skill_code 11 +:+ " basics"].

(** A job description of 96 keywords, and a resume whose experience
    section has five of them and whose skills have none. *)
Definition ninety_six_keywords : string := Py.join " " (skill_code <$> seq 0 96).

Definition ninety_six_resume : ATSScorer.resume :=
  ATSScorer.Resume None
    (Some (<["education" := "B.S."]>
             (<["experience" := Py.join " " (skill_code <$> seq 0 5)]>
                (<["skills" := "zzz"]> ∅)))).

(** * Properties *)

(** ** Examples *)

Example lower_ex : Py.lower "React.JS " = "react.js ".
Proof. reflexivity. Qed.

Example strip_ex :
  Py.strip ("  a b " +:+ Py.nl) = "a b".
Proof. reflexivity. Qed.

Example find_ex :
  Py.find ("ab" +:+ Py.nl +:+ "cd" +:+ Py.nl) Py.nl 3 = 5%Z
  /\ Py.find "abc" Py.nl 0 = (-1)%Z
  /\ Py.find "abc" "" 4 = (-1)%Z
  /\ Py.rfind ("ab" +:+ Py.nl +:+ "cd" +:+ Py.nl +:+ "e") Py.nl 4 = 2%Z
  /\ Py.rfind "abc" Py.nl 2 = (-1)%Z.
Proof. repeat split; reflexivity. Qed.

Example split_ex : Py.split "  ab  c d " = ["ab"; "c"; "d"].
Proof. reflexivity. Qed.

Example contains_ex :
  Py.contains "react" "react.js" = true /\ Py.contains "sql" "postgres" = false
  /\ Py.contains "" "x" = true.
Proof. repeat split; reflexivity. Qed.

Example finditer_ex :
  Re.finditer (Re.bounded "EXPERIENCE") "WORK EXPERIENCE" = [(5, 15)%Z]
  /\ Re.finditer (Re.bounded "WORK EXPERIENCE") "WORK EXPERIENCE" = [(0, 15)%Z]
  /\ Re.finditer (Re.bounded "SKILLS") "SKILLSET SKILLS MYSKILLS" = [(9, 15)%Z].
Proof. repeat split; reflexivity. Qed.

Example findall_ex :
  Re.findall Re.word3 "ab abc a_b1 x--yzzz" = ["abc"; "a_b1"; "yzzz"].
Proof. reflexivity. Qed.

Example segment_sample :
  let text := "John Doe" +:+ Py.nl +:+ "EDUCATION" +:+ Py.nl
              +:+ "B.S. Computer Science" +:+ Py.nl +:+ "  SKILLS " +:+ Py.nl
              +:+ "Python, SQL" +:+ Py.nl in
  ResumeParser.sort_headers (ResumeParser.header_indices text)
    = [(9%Z, "education"); (43%Z, "skills")]
  /\ ResumeParser.segment_sections text !! "education"
     = Some "B.S. Computer Science"
  /\ ResumeParser.segment_sections text !! "skills" = Some "Python, SQL"
  /\ ResumeParser.segment_sections text !! "others" = Some "".
Proof. vm_compute. repeat split; reflexivity. Qed.

Example round_ex :
  (Num.round (Num.b64 (100 # 3)) 2 == Num.b64 (3333 # 100))%Q
  /\ (Num.round (3125 # 1000) 2 == Num.b64 (312 # 100))%Q
  /\ (Num.round (Num.b64 (3135 # 1000)) 2 == Num.b64 (313 # 100))%Q
  /\ (Num.round 0 2 == 0)%Q.
Proof. repeat split; vm_compute; reflexivity. Qed.

(** The rounding written out in [Num.b64] is that of the machine's
    binary64 numbers: the literals, a quotient, and the two computations
    [(11 + 1 * 0.5) / 80 * 100] and [2 / 3 * 100]. *)
#[warnings="-inexact-float"] Example b64_ex :
  (Num.b64 (4 # 10) == Num.of_float 0.4)%Q
  /\ (Num.b64 (1437 # 100) == Num.of_float 14.37)%Q
  /\ (Num.b64 (1 / 3) == Num.of_float (1 / 3)%float)%Q
  /\ (Num.mul (Num.b64 (Num.add 11 (Num.mul 1 (5 # 10)) / 80)) 100
      == Num.of_float ((11 + 1 * 0.5) / 80 * 100)%float)%Q
  /\ (Num.mul (Num.b64 (2 / 3)) 100 == Num.of_float (2 / 3 * 100)%float)%Q
  /\ (Num.mul (Num.b64 (2 / 3)) 100 < 200 / 3)%Q
  /\ (Num.round (Num.mul (Num.b64 (Num.add 11 (Num.mul 1 (5 # 10)) / 80)) 100) 2
      == Num.of_float 14.37)%Q.
Proof. repeat split; vm_compute; reflexivity. Qed.

(** The checks of the repository's unit tests, on the embedding. *)

Example test_segment_sections :
  ResumeParser.segment_sections sample_text !! "education"
  = Some ("B.S. Computer Science, University of Tech" +:+ Py.nl
          +:+ "        2018 - 2022")
  /\ ResumeParser.segment_sections sample_text !! "experience"
     = Some ("Software Engineer, Tech Corp" +:+ Py.nl
             +:+ "        2022 - Present" +:+ Py.nl
             +:+ "        - Built amazing things.")
  /\ ResumeParser.segment_sections sample_text !! "skills"
     = Some "Python, JavaScript, SQL".
Proof. vm_compute. repeat split; reflexivity. Qed.

Example test_basic_matching :
  forall avail,
  exists r log,
    SkillGap.analyze avail SkillGap.toy_engine
      ["Python"; "JavaScript"; "React"] ["Python"; "React"; "Docker"]
    = (Ok r, log)
    /\ SkillGap.strong_matches r = ["python"; "react"]
    /\ SkillGap.missing_skills r = ["docker"]
    /\ (0 < SkillGap.match_percentage r)%Q.
Proof.
  intros [|]; eexists _, _; (split; [vm_compute; reflexivity|]);
    repeat split; reflexivity.
Qed.

Example test_missing_sections_penalty :
  exists r,
    ATSScorer.calculate_score None
      (ATSScorer.Resume (Some "Just some text")
                        (Some (<["skills" := "Python"]> ∅)))
      "Looking for a Software Engineer with Python, Django, and AWS experience. Experience with SQL is required."
    = Ok r
    /\ (ATSScorer.fmt_score (ATSScorer.b_formatting (ATSScorer.breakdown r))
        < 100)%Q
    /\ "experience"
       ∈ ATSScorer.missing_sections (ATSScorer.b_formatting (ATSScorer.breakdown r)).
Proof.
  eexists. split; [vm_compute; reflexivity|]. simpl.
  split; [reflexivity|]. right. left.
Qed.

(** ** Strings *)

Section StringFacts.

Import Py.

Lemma isspace_lower_char c : isspace (lower_char c) = isspace c.
Proof. destruct c as [[] [] [] [] [] [] [] []]; reflexivity. Qed.

Lemma lower_char_idem c : lower_char (lower_char c) = lower_char c.
Proof. destruct c as [[] [] [] [] [] [] [] []]; reflexivity. Qed.

Lemma lower_idem s : lower (lower s) = lower s.
Proof.
  induction s as [|c s IH]; simpl; [reflexivity|].
  rewrite lower_char_idem, IH. reflexivity.
Qed.

Lemma lower_lstrip s : lower (lstrip s) = lstrip (lower s).
Proof.
  induction s as [|c s IH]; simpl; [reflexivity|].
  rewrite isspace_lower_char. destruct (isspace c); [exact IH | reflexivity].
Qed.

Lemma lower_rstrip s : lower (rstrip s) = rstrip (lower s).
Proof.
  induction s as [|c s IH]; simpl; [reflexivity|].
  rewrite <- IH, isspace_lower_char.
  destruct (rstrip s) as [|d r]; simpl; [|reflexivity].
  destruct (isspace c); reflexivity.
Qed.

Lemma lower_strip s : lower (strip s) = strip (lower s).
Proof. unfold strip. rewrite lower_rstrip, lower_lstrip. reflexivity. Qed.

Lemma lstrip_clean s : starts_clean (lstrip s).
Proof.
  induction s as [|c s IH]; simpl; [exact I|].
  destruct (isspace c) eqn:E; [exact IH | exact E].
Qed.

Lemma lstrip_id s : starts_clean s -> lstrip s = s.
Proof. destruct s as [|c s]; simpl; [reflexivity|]. intros ->. reflexivity. Qed.

Lemma rstrip_clean s : starts_clean s -> starts_clean (rstrip s).
Proof.
  destruct s as [|c s]; simpl; [exact (fun H => H)|]. intros E.
  destruct (rstrip s); [rewrite E|]; exact E.
Qed.

Lemma rstrip_idem s : rstrip (rstrip s) = rstrip s.
Proof.
  induction s as [|c s IH]; simpl; [reflexivity|].
  destruct (rstrip s) as [|d r] eqn:E.
  - destruct (isspace c) eqn:Ec; simpl; [reflexivity|]. rewrite Ec. reflexivity.
  - change (rstrip (String c (String d r))) with
      (match rstrip (String d r) with
       | EmptyString => if isspace c then EmptyString else String c EmptyString
       | r' => String c r'
       end).
    rewrite IH. reflexivity.
Qed.

Lemma strip_idem s : strip (strip s) = strip s.
Proof.
  unfold strip.
  rewrite (lstrip_id (rstrip (lstrip s))); [apply rstrip_idem|].
  apply rstrip_clean, lstrip_clean.
Qed.

Lemma normalize_idem s : SkillGap.normalize (SkillGap.normalize s) = SkillGap.normalize s.
Proof.
  unfold SkillGap.normalize.
  rewrite (lower_strip (lower s)), strip_idem, lower_idem.
  reflexivity.
Qed.

End StringFacts.

(** ** Substrings *)

Lemma append_cons c s t : String c s +:+ t = String c (s +:+ t).
Proof. reflexivity. Qed.

Lemma append_empty t : "" +:+ t = t.
Proof. reflexivity. Qed.

Lemma prefix_spec sub s :
  String.prefix sub s = true <-> exists post, s = sub +:+ post.
Proof.
  revert s. induction sub as [|a sub IH]; intros s; simpl.
  - destruct s; split; eauto.
  - destruct s as [|b s]; simpl.
    + split; [discriminate | intros [post H]; discriminate].
    + destruct (Ascii.ascii_dec a b) as [->|Hne].
      * rewrite IH. split; intros [post H]; exists post;
          rewrite append_cons in *; congruence.
      * split; [discriminate|]. intros [post H].
        rewrite append_cons in H. congruence.
Qed.

Lemma substring_of_cons sub c s :
  substring_of sub (String c s)
  <-> String.prefix sub (String c s) = true \/ substring_of sub s.
Proof.
  split.
  - intros [[|d pre] [post H]].
    + left. apply prefix_spec. eauto.
    + right. exists pre, post. rewrite append_cons in H. congruence.
  - intros [H | [pre [post H]]].
    + apply prefix_spec in H as [post H]. exists "", post. exact H.
    + exists (String c pre), post. rewrite append_cons. congruence.
Qed.

Lemma find_go_unfold sub s i :
  Py.find_go sub s i
  = if String.prefix sub s then i
    else match s with
         | EmptyString => (-1)%Z
         | String _ r => Py.find_go sub r (i + 1)
         end.
Proof. destruct s; reflexivity. Qed.

Lemma find_go_spec sub s i :
  (0 <= i)%Z -> Py.find_go sub s i <> (-1)%Z <-> substring_of sub s.
Proof.
  revert i. induction s as [|c s IH]; intros i Hi; rewrite find_go_unfold.
  - destruct (String.prefix sub "") eqn:E.
    + split; [|intros; lia]. intros _. apply prefix_spec in E as [post E].
      exists "", post. exact E.
    + split; [congruence|]. intros [[|d pre] [post H]]; [|discriminate].
      rewrite append_empty in H.
      assert (String.prefix sub "" = true) by (apply prefix_spec; eauto).
      congruence.
  - rewrite substring_of_cons.
    destruct (String.prefix sub (String c s)) eqn:E.
    + split; [auto | intros; lia].
    + rewrite IH by lia. split; [auto | intros [H|H]; [discriminate | exact H]].
Qed.

Lemma contains_spec sub s : Py.contains sub s = true <-> substring_of sub s.
Proof.
  unfold Py.contains, Py.find. simpl.
  assert ((Py.len s <? 0)%Z = false) as ->
    by (apply Z.ltb_ge; unfold Py.len; lia).
  rewrite <- (find_go_spec sub s 0) by lia. simpl.
  destruct (Z.eqb_spec (Py.find_go sub s 0) (-1)); simpl; split; congruence.
Qed.

(** ** The skill-gap analyzer *)

Section AnalyzerFacts.

Import SkillGap.

Lemma placed_classified rs q b b' :
  placed rs q b b' -> classified b' ≡ₚ classified b ++ [q].
Proof.
  unfold classified.
  intros [-> | res sim _ -> | ->]; simpl; rewrite ?fmap_app; simpl;
    solve_Permutation.
Qed.

Lemma placed_all_classified rs reqs b b' :
  placed_all rs reqs b b' -> classified b' ≡ₚ classified b ++ reqs.
Proof.
  induction 1 as [b | q reqs b b1 b2 Hq _ IH].
  - by rewrite app_nil_r.
  - rewrite IH, (placed_classified _ _ _ _ Hq), <- app_assoc. done.
Qed.

Lemma placed_all_matched rs reqs b b' :
  placed_all rs reqs b b' ->
  forall w, w ∈ weak b' -> w ∈ weak b \/ matched_with w ∈ rs.
Proof.
  induction 1 as [b | q reqs b b1 b2 Hq _ IH]; intros w Hw; [by left|].
  destruct (IH w Hw) as [Hw1 | ?]; [|by right].
  destruct Hq as [-> | res sim Hres -> | ->]; simpl in Hw1; [by left | | by left].
  apply elem_of_app in Hw1 as [? | Hw1]; [by left|].
  apply list_elem_of_singleton in Hw1 as ->. by right.
Qed.

Lemma normalize_all_fixed l x : x ∈ normalize_all l -> normalize x = x.
Proof.
  unfold normalize_all. intros (s & -> & _)%list_elem_of_fmap.
  apply normalize_idem.
Qed.

Lemma normalize_all_length l :
  length (normalize_all l)
  = length (filter (fun s => Py.strip s <> "") l).
Proof.
  unfold normalize_all. rewrite length_fmap.
  induction l as [|s l IH]; [done|].
  rewrite !filter_cons.
  destruct (decide (Is_true (Py.truthy (Py.strip s)))) as [H|H];
    destruct (decide (Py.strip s <> "")) as [H'|H']; simpl; try congruence.
  - destruct (Py.strip s); [done | by destruct H'].
  - destruct (Py.strip s); [done | by destruct H].
Qed.

(** *** The fallback loop *)

Lemma classify_fallback_placed rs q b :
  placed rs q b (classify_fallback rs q b).
Proof.
  unfold classify_fallback. case_bool_decide; [by apply placed_strong|].
  destruct (first_substring rs q) as [res|] eqn:E.
  - eapply placed_weak; [|done].
    apply list_elem_of_In. eapply find_some. exact E.
  - by apply placed_missing.
Qed.

Lemma fallback_loop_placed rs reqs b :
  placed_all rs reqs b (fallback_loop rs reqs b).
Proof.
  revert b. induction reqs as [|q reqs IH]; intros b; simpl; econstructor.
  - apply classify_fallback_placed.
  - apply IH.
Qed.

Lemma fallback_loop_missing rs reqs b x :
  x ∈ missing (fallback_loop rs reqs b) ->
  x ∈ missing b \/ ((x ∉ rs) /\ first_substring rs x = None).
Proof.
  revert b. induction reqs as [|q reqs IH]; intros b; simpl; [by left|].
  intros [H | H]%IH; [|by right]. revert H.
  unfold classify_fallback. case_bool_decide as Hq; simpl; [by left|].
  destruct (first_substring rs q) eqn:E; simpl; [by left|].
  intros [? | ->%list_elem_of_singleton]%elem_of_app; [by left | by right].
Qed.

(** *** The similarity loop *)

Lemma max_from_in cur l :
  Num.max_from cur l = cur \/ Num.max_from cur l ∈ l.
Proof.
  revert cur. induction l as [|x l IH]; intros cur; simpl; [by left|].
  destruct (IH (if Qle_bool x cur then cur else x)) as [-> | H].
  - destruct (Qle_bool x cur); [by left | right; constructor].
  - right. by constructor.
Qed.

Lemma index_in l v :
  v ∈ l -> exists i, Num.index l v = Some i /\ (i < length l)%nat.
Proof.
  induction 1 as [v l | v x l _ IH]; simpl.
  - assert (Qeq_bool v v = true) as -> by (apply Qeq_bool_iff; reflexivity).
    exists O. split; [done | lia].
  - destruct (Qeq_bool x v); [exists O; split; [done | lia]|].
    destruct IH as (i & -> & Hi). exists (S i). split; [done | simpl; lia].
Qed.

Lemma classify_semantic_placed engine rs q b log :
  engine_lengths engine ->
  exists b' log',
    classify_semantic engine rs q b log = (Ok b', log') /\ placed rs q b b'.
Proof.
  intros Hlen. unfold classify_semantic, bind, _calculate_similarities.
  set (sims := match engine q rs with
               | Some sims => sims
               | None => repeat 0%Q (length rs)
               end).
  assert (length sims = length rs) as Hsims.
  { subst sims. destruct (engine q rs) eqn:E; [by eapply Hlen|].
    apply repeat_length. }
  set (max_sim := match sims with [] => 0%Q | x :: r => Num.max_from x r end).
  destruct (Qle_bool strong_threshold max_sim) eqn:E9.
  { eexists _, _. split; [reflexivity | by apply placed_strong]. }
  destruct (Qle_bool similarity_threshold max_sim) eqn:E4.
  2:{ eexists _, _. split; [reflexivity | by apply placed_missing]. }
  assert (max_sim ∈ sims) as Hin.
  { subst max_sim. destruct sims as [|x r]; [discriminate E4|].
    destruct (max_from_in x r) as [-> | H]; [left | by right]. }
  destruct (index_in _ _ Hin) as (i & -> & Hi).
  destruct (lookup_lt_is_Some_2 rs i) as [res Hres]; [lia|].
  rewrite Hres. eexists _, _. split; [reflexivity|].
  eapply placed_weak; [|done]. by eapply list_elem_of_lookup_2.
Qed.

Lemma semantic_loop_placed engine rs reqs b log :
  engine_lengths engine ->
  exists b' log',
    semantic_loop engine rs reqs b log = (Ok b', log') /\ placed_all rs reqs b b'.
Proof.
  intros Hlen. revert b log.
  induction reqs as [|q reqs IH]; intros b log; simpl.
  - eexists _, _. split; [reflexivity | constructor].
  - unfold bind.
    destruct (classify_semantic_placed engine rs q b log Hlen)
      as (b1 & log1 & -> & Hq).
    destruct (IH b1 log1) as (b2 & log2 & -> & Hrest).
    eexists _, _. split; [reflexivity | by econstructor].
Qed.

(** *** A run of [analyze] on a non-empty resume list *)

Lemma analyze_run avail engine resume required :
  (avail = true -> engine_lengths engine) -> resume <> [] ->
  let rs := normalize_all resume in
  let reqs := normalize_all required in
  exists b log,
    analyze avail engine resume required
    = (Ok (Report (Num.round (percentage b (length reqs)) 2)
                  (strong b) (weak b) (missing b)), log)
    /\ placed_all rs reqs (Buckets [] [] []) b
    /\ (semantic_path avail rs reqs = false ->
        b = fallback_loop rs reqs (Buckets [] [] []) /\ log = []).
Proof.
  intros Hlen Hne rs reqs. unfold analyze, analyze_m.
  destruct resume as [|s0 resume]; [done|]. fold rs reqs. unfold bind.
  destruct (semantic_path avail rs reqs) eqn:Hpath.
  - assert (avail = true) as Havail.
    { unfold semantic_path in Hpath. by destruct avail. }
    destruct (semantic_loop_placed engine rs reqs (Buckets [] [] []) []
                (Hlen Havail)) as (b & log & -> & Hb).
    exists b, log. split; [reflexivity|]. split; [exact Hb | done].
  - exists (fallback_loop rs reqs (Buckets [] [] [])), []. unfold ret.
    split; [reflexivity|]. split; [apply fallback_loop_placed | done].
Qed.

Lemma placed_all_length rs reqs b :
  placed_all rs reqs (Buckets [] [] []) b ->
  (length (strong b) + length (weak b) + length (missing b))%nat = length reqs.
Proof.
  intros H%placed_all_classified%Permutation_length.
  unfold classified in H. simpl in H.
  rewrite !length_app, length_fmap in H. lia.
Qed.

End AnalyzerFacts.

(** ** Rounding *)

Section RoundFacts.

Local Open Scope Q_scope.

Lemma two_pow_pos (k : Z) : 0 < 2 ^ k.
Proof. apply Qpower_0_lt. reflexivity. Qed.

Lemma two_pow_succ (k : Z) : 2 ^ (k + 1) == 2 * 2 ^ k.
Proof. rewrite Qpower_plus by discriminate. rewrite Qpower_1_r. ring. Qed.

Lemma two_pow_le (a b : Z) : (a <= b)%Z -> 2 ^ a <= 2 ^ b.
Proof. intros H. apply Qpower_le_compat_l; [exact H | discriminate]. Qed.

Lemma two_pow_lt (a b : Z) : (a < b)%Z -> 2 ^ a < 2 ^ b.
Proof. intros H. apply Qpower_lt_compat_l; [exact H | reflexivity]. Qed.

Lemma two_pow_lt_inv (a b : Z) : 2 ^ a < 2 ^ b -> (a < b)%Z.
Proof.
  intros H. destruct (Z.lt_ge_cases a b) as [?|Hge]; [done|].
  apply two_pow_le in Hge. lra.
Qed.

Lemma two_pow_Z (k : Z) : (0 <= k)%Z -> inject_Z (2 ^ k) == 2 ^ k.
Proof. intros H. by rewrite Zpower_Qpower. Qed.

Lemma ilog2_spec x : 0 < x -> 2 ^ Num.ilog2 x <= x < 2 ^ (Num.ilog2 x + 1).
Proof.
  intros Hx. destruct x as [p q]. unfold Num.ilog2. cbn [Qnum Qden].
  assert (0 < p)%Z as Hp by (unfold Qlt in Hx; simpl in Hx; lia).
  set (a := Z.log2 p). set (b := Z.log2 (Z.pos q)).
  destruct (Z.log2_spec p Hp) as [Ha1 Ha2]. fold a in Ha1, Ha2.
  destruct (Z.log2_spec (Z.pos q) eq_refl) as [Hb1 Hb2]. fold b in Hb1, Hb2.
  assert (0 <= a)%Z as Ha0 by apply Z.log2_nonneg.
  assert (0 <= b)%Z as Hb0 by apply Z.log2_nonneg.
  rewrite Zle_Qle, two_pow_Z in Ha1, Hb1 by done.
  rewrite Zlt_Qlt, two_pow_Z in Ha2, Hb2 by lia.
  replace (Z.succ a) with (a + 1)%Z in Ha2 by lia.
  replace (Z.succ b) with (b + 1)%Z in Hb2 by lia.
  rewrite two_pow_succ in Ha2, Hb2.
  pose proof (two_pow_pos a) as HA. pose proof (two_pow_pos b) as HB.
  assert (p # q == inject_Z p / inject_Z (Z.pos q)) as Hpq by apply Qmake_Qdiv.
  assert (0 < inject_Z (Z.pos q)) as Hq by (change 0 with (inject_Z 0); rewrite <- Zlt_Qlt; lia).
  assert (2 ^ (a - b) == 2 ^ a / 2 ^ b) as Hd by (apply Qpower_minus; discriminate).
  assert (2 ^ (a - b) == 2 * 2 ^ (a - b - 1)) as Hs
    by (rewrite <- two_pow_succ; apply Qpower_comp; [reflexivity | lia]).
  pose proof (two_pow_succ (a - b)) as Hs'.
  set (A := 2 ^ a) in *. set (B := 2 ^ b) in *.
  set (P := inject_Z p) in *. set (D := inject_Z (Z.pos q)) in *.
  set (U := 2 ^ (a - b + 1)) in *. set (L := 2 ^ (a - b - 1)) in *.
  set (M := 2 ^ (a - b)) in *.
  assert (M * B == A) as HM by (rewrite Hd; field; lra).
  assert (p # q < U) as Hup.
  { rewrite Hpq. apply Qlt_shift_div_r; [exact Hq|]. rewrite Hs'. nra. }
  assert (L <= p # q) as Hlo.
  { rewrite Hpq. apply Qle_shift_div_l; [exact Hq|]. nra. }
  destruct (Qle_bool M (p # q)) eqn:E.
  - apply Qle_bool_iff in E. split; [exact E | exact Hup].
  - assert (p # q < M) as Hlt.
    { apply Qnot_le_lt. intros H%Qle_bool_iff. congruence. }
    split; [exact Hlo|]. replace (a - b - 1 + 1)%Z with (a - b)%Z by lia. exact Hlt.
Qed.

Lemma ilog2_unique x k : 2 ^ k <= x < 2 ^ (k + 1) -> Num.ilog2 x = k.
Proof.
  intros [Hlo Hhi]. pose proof (two_pow_pos k) as Hk.
  destruct (ilog2_spec x) as [Hlo' Hhi']; [lra|].
  assert (2 ^ Num.ilog2 x < 2 ^ (k + 1)) as H1%two_pow_lt_inv by lra.
  assert (2 ^ k < 2 ^ (Num.ilog2 x + 1)) as H2%two_pow_lt_inv by lra.
  lia.
Qed.

Lemma ilog2_comp x y : 0 < x -> x == y -> Num.ilog2 x = Num.ilog2 y.
Proof.
  intros Hx Hxy. symmetry. apply ilog2_unique. rewrite <- Hxy. by apply ilog2_spec.
Qed.

Lemma ilog2_mono x y : 0 < x -> x <= y -> (Num.ilog2 x <= Num.ilog2 y)%Z.
Proof.
  intros Hx Hxy.
  destruct (ilog2_spec x Hx) as [Hlo _].
  destruct (ilog2_spec y) as [_ Hhi]; [lra|].
  assert (2 ^ Num.ilog2 x < 2 ^ (Num.ilog2 y + 1)) as H%two_pow_lt_inv by lra.
  lia.
Qed.

Lemma round_half_even_comp x y :
  x == y -> Num.round_half_even x = Num.round_half_even y.
Proof.
  intros H. unfold Num.round_half_even.
  rewrite (Qfloor_comp x y H).
  assert ((x - inject_Z (Qfloor y) ?= 1 # 2) = (y - inject_Z (Qfloor y) ?= 1 # 2))
    as -> by (apply Qcompare_comp; [rewrite H|]; reflexivity).
  reflexivity.
Qed.

Lemma round_half_even_error t :
  t - (1 # 2) <= inject_Z (Num.round_half_even t) <= t + (1 # 2).
Proof.
  unfold Num.round_half_even.
  pose proof (Qfloor_le t) as Hf. pose proof (Qlt_floor t) as Hc.
  rewrite inject_Z_plus in Hc. change (inject_Z 1) with 1 in Hc.
  destruct (t - inject_Z (Qfloor t) ?= 1 # 2) eqn:E.
  - apply Qeq_alt in E. destruct (Z.even (Qfloor t)).
    + lra.
    + rewrite inject_Z_plus. change (inject_Z 1) with 1. lra.
  - apply Qlt_alt in E. lra.
  - apply Qgt_alt in E. rewrite inject_Z_plus. change (inject_Z 1) with 1. lra.
Qed.

Lemma round_half_even_Z z : Num.round_half_even (inject_Z z) = z.
Proof.
  unfold Num.round_half_even. rewrite Qfloor_Z.
  assert ((inject_Z z - inject_Z z ?= 1 # 2) = Lt) as ->; [|done].
  apply Qlt_alt. ring_simplify (inject_Z z - inject_Z z). reflexivity.
Qed.

Lemma round_half_even_mono t u :
  t <= u -> (Num.round_half_even t <= Num.round_half_even u)%Z.
Proof.
  intros Htu. pose proof (Qfloor_resp_le t u Htu) as Hfl.
  destruct (Z.eq_dec (Qfloor t) (Qfloor u)) as [Heq|Hne].
  - unfold Num.round_half_even. rewrite Heq.
    destruct (Qcompare_spec (t - inject_Z (Qfloor u)) (1 # 2));
      destruct (Qcompare_spec (u - inject_Z (Qfloor u)) (1 # 2));
      try (destruct (Z.even (Qfloor u))); try lia; exfalso; lra.
  - assert (Num.round_half_even t <= Qfloor t + 1)%Z.
    { unfold Num.round_half_even.
      destruct (t - inject_Z (Qfloor t) ?= 1 # 2); [destruct (Z.even _)| |]; lia. }
    assert (Qfloor u <= Num.round_half_even u)%Z.
    { unfold Num.round_half_even.
      destruct (u - inject_Z (Qfloor u) ?= 1 # 2); [destruct (Z.even _)| |]; lia. }
    lia.
Qed.

Lemma Qabs_pos_eq x : 0 < x -> Qabs x = x.
Proof.
  destruct x as [p q]. unfold Qlt. simpl. intros H. unfold Qabs.
  f_equal. lia.
Qed.

(** [b64] on a positive number: the significand has 53 bits. *)
Lemma b64_pos x :
  0 < x ->
  Num.b64 x
  == inject_Z (Num.round_half_even (x / 2 ^ (Num.ilog2 x - 52)))
     * 2 ^ (Num.ilog2 x - 52).
Proof.
  intros Hx. unfold Num.b64.
  destruct (Qeq_bool x 0) eqn:E; [apply Qeq_bool_iff in E; lra|].
  by rewrite (Qabs_pos_eq x Hx).
Qed.

Lemma b64_zero x : x == 0 -> Num.b64 x == 0.
Proof.
  intros H. unfold Num.b64. by rewrite (proj2 (Qeq_bool_iff x 0) H).
Qed.

(** The significand of a positive number lies between [2^52] and [2^53]. *)
Lemma significand_bounds x :
  0 < x -> 2 ^ 52 <= x / 2 ^ (Num.ilog2 x - 52) < 2 ^ 53.
Proof.
  intros Hx. destruct (ilog2_spec x Hx) as [Hlo Hhi].
  pose proof (two_pow_pos (Num.ilog2 x - 52)) as Hs.
  assert (2 ^ Num.ilog2 x == 2 ^ 52 * 2 ^ (Num.ilog2 x - 52)) as H1.
  { rewrite <- Qpower_plus by discriminate. apply Qpower_comp; [reflexivity | lia]. }
  assert (2 ^ (Num.ilog2 x + 1) == 2 ^ 53 * 2 ^ (Num.ilog2 x - 52)) as H2.
  { rewrite <- Qpower_plus by discriminate. apply Qpower_comp; [reflexivity | lia]. }
  rewrite H1 in Hlo. rewrite H2 in Hhi.
  split.
  - apply Qle_shift_div_l; [exact Hs | exact Hlo].
  - apply Qlt_shift_div_r; [exact Hs | exact Hhi].
Qed.

Lemma b64_bounds x :
  0 < x -> 2 ^ Num.ilog2 x <= Num.b64 x <= 2 ^ (Num.ilog2 x + 1).
Proof.
  intros Hx. rewrite (b64_pos x Hx).
  destruct (significand_bounds x Hx) as [Hlo Hhi].
  pose proof (two_pow_pos (Num.ilog2 x - 52)) as Hs.
  assert (2 ^ Num.ilog2 x == 2 ^ 52 * 2 ^ (Num.ilog2 x - 52)) as ->.
  { rewrite <- Qpower_plus by discriminate. apply Qpower_comp; [reflexivity | lia]. }
  assert (2 ^ (Num.ilog2 x + 1) == 2 ^ 53 * 2 ^ (Num.ilog2 x - 52)) as ->.
  { rewrite <- Qpower_plus by discriminate. apply Qpower_comp; [reflexivity | lia]. }
  set (t := x / 2 ^ (Num.ilog2 x - 52)) in *.
  assert (2 ^ 52 <= Num.round_half_even t <= 2 ^ 53)%Z as [H1 H2].
  { split.
    - rewrite <- (round_half_even_Z (2 ^ 52)). apply round_half_even_mono.
      rewrite two_pow_Z by lia. exact Hlo.
    - rewrite <- (round_half_even_Z (2 ^ 53)). apply round_half_even_mono.
      rewrite two_pow_Z by lia. lra. }
  rewrite Zle_Qle, two_pow_Z in H1, H2 by lia.
  set (S := 2 ^ (Num.ilog2 x - 52)) in *.
  set (R := inject_Z (Num.round_half_even t)) in *.
  set (A := 2 ^ 52) in *. set (B := 2 ^ 53) in *.
  split; nra.
Qed.

Lemma b64_nonneg x : 0 <= x -> 0 <= Num.b64 x.
Proof.
  intros Hx. destruct (Qlt_le_dec 0 x) as [Hpos|Hle].
  - destruct (b64_bounds x Hpos) as [H _].
    pose proof (two_pow_pos (Num.ilog2 x)). lra.
  - rewrite b64_zero; lra.
Qed.

Lemma b64_pos_lt x : 0 < x -> 0 < Num.b64 x.
Proof.
  intros Hpos. destruct (b64_bounds x Hpos) as [H _].
  pose proof (two_pow_pos (Num.ilog2 x)). lra.
Qed.

Lemma b64_comp x y : 0 <= x -> x == y -> Num.b64 x == Num.b64 y.
Proof.
  intros Hx Hxy. destruct (Qlt_le_dec 0 x) as [Hpos|Hle].
  - rewrite (b64_pos x Hpos), (b64_pos y) by lra.
    rewrite <- (ilog2_comp x y Hpos Hxy).
    rewrite (round_half_even_comp (x / 2 ^ (Num.ilog2 x - 52))
               (y / 2 ^ (Num.ilog2 x - 52))); [reflexivity|].
    unfold Qdiv. apply Qmult_comp; [exact Hxy | reflexivity].
  - rewrite !b64_zero; lra.
Qed.

(** Rounding is monotone. *)
Lemma b64_mono x y : 0 <= x -> x <= y -> Num.b64 x <= Num.b64 y.
Proof.
  intros Hx Hxy. destruct (Qlt_le_dec 0 x) as [Hpos|Hle].
  - pose proof (ilog2_mono x y Hpos Hxy) as He.
    destruct (Z.eq_dec (Num.ilog2 x) (Num.ilog2 y)) as [Heq|Hne].
    + rewrite (b64_pos x Hpos), (b64_pos y) by lra. rewrite <- Heq.
      pose proof (two_pow_pos (Num.ilog2 x - 52)) as Hs.
      assert (x / 2 ^ (Num.ilog2 x - 52) <= y / 2 ^ (Num.ilog2 x - 52)) as Ht.
      { apply Qle_shift_div_l; [exact Hs|].
        assert (x / 2 ^ (Num.ilog2 x - 52) * 2 ^ (Num.ilog2 x - 52) == x) as ->
          by (field; lra).
        exact Hxy. }
      apply round_half_even_mono in Ht. rewrite Zle_Qle in Ht.
      apply Qmult_le_compat_r; [exact Ht | lra].
    + destruct (b64_bounds x Hpos) as [_ Hhi].
      destruct (b64_bounds y) as [Hlo _]; [lra|].
      assert (2 ^ (Num.ilog2 x + 1) <= 2 ^ Num.ilog2 y) by (apply two_pow_le; lia).
      lra.
  - rewrite (b64_zero x) by lra. apply b64_nonneg. lra.
Qed.

(** A number with a significand below [2^53] is rounded to itself. *)
Lemma b64_exact (m k : Z) :
  (0 <= m < 2 ^ 53)%Z -> Num.b64 (inject_Z m * 2 ^ k) == inject_Z m * 2 ^ k.
Proof.
  intros [Hm0 Hm]. pose proof (two_pow_pos k) as Hk.
  destruct (Z.eq_dec m 0%Z) as [->|Hne].
  { rewrite b64_zero; [ring | ring]. }
  assert (0 < inject_Z m) as Hmq
    by (change 0 with (inject_Z 0); rewrite <- Zlt_Qlt; lia).
  set (y := inject_Z m * 2 ^ k).
  assert (0 < y) as Hy by (unfold y; nra).
  rewrite (b64_pos y Hy). set (e := Num.ilog2 y).
  destruct (ilog2_spec y Hy) as [Hlo Hhi]. fold e in Hlo, Hhi.
  assert (inject_Z m < 2 ^ 53) as Hm53.
  { rewrite <- two_pow_Z by lia. by rewrite <- Zlt_Qlt. }
  assert (e < 53 + k)%Z as He.
  { apply two_pow_lt_inv.
    assert (2 ^ (53 + k) == 2 ^ 53 * 2 ^ k) as -> by (apply Qpower_plus; discriminate).
    unfold y in Hlo. set (T := 2 ^ 53) in *. set (K := 2 ^ k) in *.
    set (E := 2 ^ e) in *. set (M := inject_Z m) in *. nra. }
  assert (y / 2 ^ (e - 52) == inject_Z (m * 2 ^ (k - e + 52))) as Ht.
  { rewrite inject_Z_mult, two_pow_Z by lia. unfold y.
    assert (2 ^ (k - e + 52) == 2 ^ k / 2 ^ (e - 52)) as ->.
    { rewrite <- Qpower_minus by discriminate. apply Qpower_comp; [reflexivity | lia]. }
    pose proof (two_pow_pos (e - 52)). field. lra. }
  rewrite (round_half_even_comp _ _ Ht), round_half_even_Z.
  rewrite inject_Z_mult, two_pow_Z by lia. unfold y.
  assert (2 ^ (k - e + 52) * 2 ^ (e - 52) == 2 ^ k) as Hp.
  { rewrite <- Qpower_plus by discriminate. apply Qpower_comp; [reflexivity | lia]. }
  rewrite <- Qmult_assoc, Hp. reflexivity.
Qed.

Lemma b64_int (n : Z) : (0 <= n < 2 ^ 53)%Z -> Num.b64 (inject_Z n) == inject_Z n.
Proof.
  intros Hn. pose proof (b64_exact n 0 Hn) as H. change (2 ^ 0) with 1 in H.
  assert (0 <= inject_Z n) as Hq
    by (change 0 with (inject_Z 0); rewrite <- Zle_Qle; lia).
  rewrite (b64_comp (inject_Z n) (inject_Z n * 1)); [|exact Hq|ring].
  rewrite H. ring.
Qed.

(** The relative error of rounding is at most [2^-53]. *)
Lemma b64_error x :
  0 <= x -> x - x / 2 ^ 53 <= Num.b64 x <= x + x / 2 ^ 53.
Proof.
  intros Hx. destruct (Qlt_le_dec 0 x) as [Hpos|Hle].
  2: { rewrite b64_zero by lra. assert (x == 0) as -> by lra. split; vm_compute; discriminate. }
  rewrite (b64_pos x Hpos).
  destruct (significand_bounds x Hpos) as [Hlo _].
  pose proof (two_pow_pos (Num.ilog2 x - 52)) as Hs.
  pose proof (round_half_even_error (x / 2 ^ (Num.ilog2 x - 52))) as [H1 H2].
  assert (x == x / 2 ^ (Num.ilog2 x - 52) * 2 ^ (Num.ilog2 x - 52)) as Hx'
    by (field; lra).
  set (t := x / 2 ^ (Num.ilog2 x - 52)) in *.
  set (S := 2 ^ (Num.ilog2 x - 52)) in *.
  set (R := inject_Z (Num.round_half_even t)) in *.
  assert (x / 2 ^ 53 == x * (1 # 9007199254740992)) as -> by (field; discriminate).
  change (2 ^ 52) with (4503599627370496 # 1) in Hlo.
  assert (0 <= (R - t + (1 # 2)) * S) as HA by (apply Qmult_le_0_compat; lra).
  assert (0 <= (t + (1 # 2) - R) * S) as HB by (apply Qmult_le_0_compat; lra).
  assert (0 <= (t - (4503599627370496 # 1)) * S) as HC
    by (apply Qmult_le_0_compat; lra).
  split; lra.
Qed.

Lemma b64_error' x :
  0 <= x ->
  x - x * (1 # 9007199254740992) <= Num.b64 x <= x + x * (1 # 9007199254740992).
Proof.
  intros Hx. pose proof (b64_error x Hx) as H.
  assert (x / 2 ^ 53 == x * (1 # 9007199254740992)) as He by (field; discriminate).
  by rewrite He in H.
Qed.

Lemma b64_comp' x y : x == y -> Num.b64 x = Num.b64 y \/ Num.b64 x == Num.b64 y.
Proof.
  intros Hxy. right. unfold Num.b64.
  destruct (Qeq_bool x 0) eqn:Ex; destruct (Qeq_bool y 0) eqn:Ey.
  - reflexivity.
  - apply Qeq_bool_iff in Ex. apply Qeq_bool_neq in Ey. exfalso. apply Ey.
    by rewrite <- Hxy.
  - apply Qeq_bool_iff in Ey. apply Qeq_bool_neq in Ex. exfalso. apply Ex.
    by rewrite Hxy.
  - apply Qeq_bool_neq in Ex.
    assert (0 < Qabs x) as Hpos.
    { pose proof (Qabs_nonneg x). destruct (Qlt_le_dec 0 (Qabs x)); [done|].
      exfalso. apply Ex. apply Qabs_Qle_condition in q. lra. }
    assert (Qabs x == Qabs y) as Habs by (by rewrite Hxy).
    rewrite <- (ilog2_comp _ _ Hpos Habs).
    rewrite (round_half_even_comp (x / 2 ^ (Num.ilog2 (Qabs x) - 52))
               (y / 2 ^ (Num.ilog2 (Qabs x) - 52))); [reflexivity|].
    unfold Qdiv. apply Qmult_comp; [exact Hxy | reflexivity].
Qed.

Lemma b64_proper x y : x == y -> Num.b64 x == Num.b64 y.
Proof. intros H. by destruct (b64_comp' x y H) as [->|]. Qed.

Lemma round_comp x y n : x == y -> Num.round x n == Num.round y n.
Proof.
  intros H. unfold Num.round.
  rewrite (round_half_even_comp (x * inject_Z (10 ^ n)) (y * inject_Z (10 ^ n)));
    [reflexivity | rewrite H; reflexivity].
Qed.

Lemma round_half_even_bounds q (a b : Z) :
  inject_Z a <= q <= inject_Z b ->
  (a <= Num.round_half_even q <= b)%Z.
Proof.
  intros [Ha Hb]. split.
  - rewrite <- (round_half_even_Z a). by apply round_half_even_mono.
  - rewrite <- (round_half_even_Z b). by apply round_half_even_mono.
Qed.

(** [round(x, 2)] is monotone on the numbers that are not negative. *)
Lemma round_mono x y : 0 <= x -> x <= y -> Num.round x 2 <= Num.round y 2.
Proof.
  intros Hx Hxy. unfold Num.round. change (inject_Z (10 ^ 2)) with 100.
  assert (Num.round_half_even (x * 100) <= Num.round_half_even (y * 100))%Z as H
    by (apply round_half_even_mono; lra).
  assert (0 <= Num.round_half_even (x * 100))%Z as H0.
  { rewrite <- (round_half_even_Z 0). apply round_half_even_mono.
    change (inject_Z 0) with 0. lra. }
  rewrite Zle_Qle in H, H0. change (inject_Z 0) with 0 in H0.
  apply b64_mono.
  - apply Qle_shift_div_l; [reflexivity | lra].
  - apply Qle_shift_div_l; [reflexivity|].
    assert (inject_Z (Num.round_half_even (x * 100)) / 100 * 100
            == inject_Z (Num.round_half_even (x * 100))) as -> by (field; discriminate).
    exact H.
Qed.

Lemma round_zero : Num.round 0 2 == 0.
Proof. reflexivity. Qed.

Lemma round_hundred : Num.round 100 2 == 100.
Proof. vm_compute. reflexivity. Qed.

Lemma round_bounds x : 0 <= x <= 100 -> 0 <= Num.round x 2 <= 100.
Proof.
  intros [H0 H100]. split.
  - rewrite <- round_zero. apply round_mono; lra.
  - rewrite <- round_hundred. apply round_mono; lra.
Qed.

(** [round(x, 2)] is within half a hundredth of [x], up to the rounding
    of the result. *)
Lemma round_error x :
  0 <= x <= 100 ->
  x - (5001 # 1000000) <= Num.round x 2 <= x + (5001 # 1000000).
Proof.
  intros [H0 H100]. unfold Num.round. change (inject_Z (10 ^ 2)) with 100.
  pose proof (round_half_even_error (x * 100)) as [H1 H2].
  assert (0 <= Num.round_half_even (x * 100))%Z as Hk.
  { rewrite <- (round_half_even_Z 0). apply round_half_even_mono.
    change (inject_Z 0) with 0. lra. }
  rewrite Zle_Qle in Hk. change (inject_Z 0) with 0 in Hk.
  set (k := inject_Z (Num.round_half_even (x * 100))) in *.
  assert (0 <= k / 100) as Hd by (apply Qle_shift_div_l; [reflexivity | lra]).
  assert (k / 100 == k * (1 # 100)) as Hkd by (field; discriminate).
  pose proof (b64_error (k / 100) Hd) as [H3 H4].
  assert (k / 100 / 2 ^ 53 == k * (1 # 900719925474099200)) as He
    by (field; discriminate).
  rewrite He in H3, H4.
  set (r := Num.b64 (k / 100)) in *.
  split; lra.
Qed.

Lemma min_bounds x : 0 <= x -> 0 <= Num.min x 100 <= 100.
Proof.
  intros Hx. unfold Num.min. destruct (Qle_bool x 100) eqn:E.
  - apply Qle_bool_iff in E. lra.
  - lra.
Qed.

Lemma count_nonneg {A} (l : list A) : 0 <= count l.
Proof.
  unfold count. change 0 with (inject_Z 0). rewrite <- Zle_Qle. lia.
Qed.

Lemma mul_nonneg x y : 0 <= x -> 0 <= y -> 0 <= Num.mul x y.
Proof. intros Hx Hy. apply b64_nonneg. by apply Qmult_le_0_compat. Qed.

Lemma add_nonneg x y : 0 <= x -> 0 <= y -> 0 <= Num.add x y.
Proof. intros Hx Hy. apply b64_nonneg. lra. Qed.

Lemma b64_hundred : Num.b64 100 == 100.
Proof. vm_compute. reflexivity. Qed.

Lemma b64_one : Num.b64 1 == 1.
Proof. vm_compute. reflexivity. Qed.

(** A rounded ratio times 100: at most 100 when the ratio is at most 1. *)
Lemma percent_bounds x : 0 <= x <= 1 -> 0 <= Num.mul (Num.b64 x) 100 <= 100.
Proof.
  intros [H0 H1].
  assert (0 <= Num.b64 x <= 1) as [Hb0 Hb1].
  { split; [by apply b64_nonneg|]. rewrite <- b64_one. by apply b64_mono. }
  unfold Num.mul. split.
  - apply b64_nonneg. lra.
  - apply Qle_trans with (Num.b64 100); [apply b64_mono; lra|].
    rewrite b64_hundred. lra.
Qed.

Lemma inject_nat_nonneg (n : nat) : 0 <= inject_Z (Z.of_nat n).
Proof. change 0 with (inject_Z 0). rewrite <- Zle_Qle. lia. Qed.

(** Counts below [2^52]: a count, half a count, and a count plus half a
    count are binary64 numbers, so the sum of the code is exact. *)
Lemma half_sum_exact (s w : nat) :
  (Z.of_nat (s + w) < 2 ^ 52)%Z ->
  Num.add (Num.b64 (inject_Z (Z.of_nat s)))
          (Num.mul (Num.b64 (inject_Z (Z.of_nat w))) (5 # 10))
  == inject_Z (Z.of_nat s) + (5 # 10) * inject_Z (Z.of_nat w).
Proof.
  intros Hsw. unfold Num.add, Num.mul.
  assert (Num.b64 (inject_Z (Z.of_nat s)) == inject_Z (Z.of_nat s)) as Hs
    by (apply b64_int; lia).
  assert (Num.b64 (inject_Z (Z.of_nat w)) == inject_Z (Z.of_nat w)) as Hw
    by (apply b64_int; lia).
  assert (Num.b64 (Num.b64 (inject_Z (Z.of_nat w)) * (5 # 10))
          == inject_Z (Z.of_nat w) * 2 ^ (-1)) as Hhalf.
  { rewrite (b64_proper _ (inject_Z (Z.of_nat w) * 2 ^ (-1))).
    - apply b64_exact. lia.
    - rewrite Hw. change (2 ^ (-1)) with (1 # 2). lra. }
  rewrite (b64_proper _ (inject_Z (2 * Z.of_nat s + Z.of_nat w) * 2 ^ (-1))).
  - rewrite b64_exact by lia. rewrite inject_Z_plus, inject_Z_mult.
    change (2 ^ (-1)) with (1 # 2). change (inject_Z 2) with 2. lra.
  - rewrite Hs, Hhalf, inject_Z_plus, inject_Z_mult.
    change (2 ^ (-1)) with (1 # 2). change (inject_Z 2) with 2. lra.
Qed.

End RoundFacts.

(** ** Skill-gap matcher: the stated properties *)

Section AnalyzerClaims.

Import SkillGap.

Lemma normalize_normalized s : normalized (normalize s).
Proof.
  unfold normalized, normalize. split.
  - rewrite lower_strip, lower_idem. reflexivity.
  - apply strip_idem.
Qed.

Lemma normalize_all_normalized l x : x ∈ normalize_all l -> normalized x.
Proof.
  intros H. rewrite <- (normalize_all_fixed l x H). apply normalize_normalized.
Qed.

Lemma toy_engine_lengths : engine_lengths toy_engine.
Proof.
  intros target source sims [= <-]. apply length_fmap.
Qed.

(** C6. With an empty resume skill list [analyze] returns at once: the
    missing skills are the required list itself, so every required skill is
    among them, there is no strong and no weak match, the percentage is 0,
    and the similarity engine is not called (the record of engine calls is
    left as it was), whatever the engine and whether or not scikit-learn is
    available. *)
Theorem analyze_empty_resume avail engine required log :
  exists r,
    analyze_m avail engine [] required log = (Ok r, log)
    /\ analyze avail engine [] required = (Ok r, [])
    /\ missing_skills r = required
    /\ (forall s, s ∈ required -> s ∈ missing_skills r)
    /\ strong_matches r = []
    /\ weak_matches r = []
    /\ match_percentage r = 0%Q.
Proof.
  exists (Report 0 [] [] required). unfold analyze, analyze_m, ret. simpl.
  repeat split. intros s Hs. exact Hs.
Qed.

Lemma analyze_empty_resume_witness :
  exists r,
    analyze_m true toy_engine [] ["Python"; "Docker "] [] = (Ok r, [])
    /\ analyze true toy_engine [] ["Python"; "Docker "] = (Ok r, [])
    /\ missing_skills r = ["Python"; "Docker "]
    /\ (forall s, s ∈ ["Python"; "Docker "] -> s ∈ missing_skills r)
    /\ strong_matches r = []
    /\ weak_matches r = []
    /\ match_percentage r = 0%Q.
Proof. apply (analyze_empty_resume true toy_engine ["Python"; "Docker "] []). Defined.

(** C4, as it holds.  Fallback mode, non-empty resume list: an entry of
    the normalized required list (the lowercased and trimmed required
    skills that are not blank) that occurs in an entry of the normalized
    resume list, or in which such an entry occurs, is a strong or a weak
    match and is not among the missing skills. *)
Theorem fallback_substring_never_missing engine resume required req res :
  resume <> [] ->
  req ∈ normalize_all required ->
  res ∈ normalize_all resume ->
  substring_of req res \/ substring_of res req ->
  exists r,
    analyze false engine resume required = (Ok r, [])
    /\ (req ∈ strong_matches r \/ req ∈ skill <$> weak_matches r)
    /\ req ∉ missing_skills r.
Proof.
  intros Hne Hreq Hres Hsub.
  destruct (analyze_run false engine resume required) as (b & log & Hrun & Hb & Hfb);
    [discriminate | exact Hne |].
  destruct Hfb as [Hloop ->]; [reflexivity|].
  eexists. split; [exact Hrun|]. simpl.
  assert (req ∉ missing b) as Hmiss.
  { intros Hin. rewrite Hloop in Hin.
    apply fallback_loop_missing in Hin as [Hin | [_ Hnone]].
    - by apply elem_of_nil in Hin.
    - unfold first_substring in Hnone.
      apply list_elem_of_In in Hres.
      apply (find_none _ _ Hnone res) in Hres.
      apply orb_false_elim in Hres as [H1 H2].
      destruct Hsub as [H%contains_spec | H%contains_spec]; congruence. }
  split; [|exact Hmiss].
  assert (req ∈ classified b) as Hin.
  { rewrite (placed_all_classified _ _ _ _ Hb). simpl. exact Hreq. }
  unfold classified in Hin.
  apply elem_of_app in Hin as [? | Hin]; [by left|].
  apply elem_of_app in Hin as [? | ?]; [by right | done].
Qed.

Lemma fallback_substring_never_missing_witness :
  exists r,
    analyze false toy_engine ["React.js"] ["React"] = (Ok r, [])
    /\ ("react" ∈ strong_matches r \/ "react" ∈ skill <$> weak_matches r)
    /\ "react" ∉ missing_skills r.
Proof.
  apply (fallback_substring_never_missing toy_engine ["React.js"] ["React"]
           "react" "react.js").
  - discriminate.
  - vm_compute. left.
  - vm_compute. left.
  - left. exists "", ".js". reflexivity.
Defined.

(** C4 as stated fails on blank entries, which the normalization drops:
    the normalized form of the resume skill [" "] is the empty string, a
    substring of every required skill, and yet the required skill is
    missing; and a blank required skill, whose normalized form is a
    substring of every resume skill, is in none of the three lists. *)
Lemma blank_skill_is_no_match :
  (exists r,
     analyze false toy_engine [" "] ["python"] = (Ok r, [])
     /\ substring_of (normalize " ") (normalize "python")
     /\ strong_matches r = [] /\ weak_matches r = []
     /\ "python" ∈ missing_skills r)
  /\ (exists r,
        analyze false toy_engine ["python"] [" "] = (Ok r, [])
        /\ substring_of (normalize " ") (normalize "python")
        /\ strong_matches r = [] /\ weak_matches r = []
        /\ missing_skills r = []).
Proof.
  split; eexists; (split; [vm_compute; reflexivity|]); simpl.
  - split; [by exists "", "python"|]. split; [done|]. split; [done | left].
  - split; [by exists "", "python" | done].
Qed.

(** C5, as it holds.  With a non-empty resume skill list every skill
    string of the result (strong matches, missing skills, and both fields
    of a weak match) is lowercased and trimmed. *)
Theorem result_skills_normalized avail engine resume required :
  (avail = true -> engine_lengths engine) ->
  resume <> [] ->
  exists r log,
    analyze avail engine resume required = (Ok r, log)
    /\ (forall x, x ∈ strong_matches r -> normalized x)
    /\ (forall x, x ∈ missing_skills r -> normalized x)
    /\ (forall w, w ∈ weak_matches r ->
          normalized (skill w) /\ normalized (matched_with w)).
Proof.
  intros Hlen Hne.
  destruct (analyze_run avail engine resume required Hlen Hne)
    as (b & log & Hrun & Hb & _).
  eexists _, log. split; [exact Hrun|]. simpl.
  pose proof (placed_all_classified _ _ _ _ Hb) as Hperm. simpl in Hperm.
  assert (forall x, x ∈ classified b -> normalized x) as Hcl.
  { intros x Hx. rewrite Hperm in Hx. by eapply normalize_all_normalized. }
  unfold classified in Hcl.
  split; [|split]; [intros x Hx; apply Hcl; set_solver ..|].
  intros w Hw. split.
  - apply Hcl. apply elem_of_app. right. apply elem_of_app. left.
    by apply list_elem_of_fmap_2.
  - destruct (placed_all_matched _ _ _ _ Hb w Hw) as [Hw' | Hw'].
    + by apply elem_of_nil in Hw'.
    + by eapply normalize_all_normalized.
Qed.

Lemma result_skills_normalized_witness :
  exists r log,
    analyze true toy_engine ["React.js "; "PYTHON"] ["React"; " Docker"; "Python"]
    = (Ok r, log)
    /\ (forall x, x ∈ strong_matches r -> normalized x)
    /\ (forall x, x ∈ missing_skills r -> normalized x)
    /\ (forall w, w ∈ weak_matches r ->
          normalized (skill w) /\ normalized (matched_with w)).
Proof.
  apply (result_skills_normalized true toy_engine).
  - intros _. apply toy_engine_lengths.
  - discriminate.
Defined.

(** C5 as stated fails on the empty resume list: the required skills come
    back as they were given. *)
Lemma empty_resume_skills_not_normalized :
  exists r,
    analyze true toy_engine [] ["Python "] = (Ok r, [])
    /\ "Python " ∈ missing_skills r
    /\ ~ normalized "Python ".
Proof.
  eexists. split; [reflexivity|]. split; [simpl; left|].
  intros [H _]. discriminate H.
Qed.

(** C10. With a non-empty resume skill list every normalized required
    skill goes to exactly one of the three lists, on the similarity path and
    on the fallback path: the three lists together are a rearrangement of
    the normalized required skills, and their lengths add up to the number
    of required skills whose trimmed form is not empty. *)
Theorem classification_partitions avail engine resume required :
  (avail = true -> engine_lengths engine) ->
  resume <> [] ->
  exists r log,
    analyze avail engine resume required = (Ok r, log)
    /\ (length (strong_matches r) + length (weak_matches r)
        + length (missing_skills r))%nat
       = length (filter (fun s => Py.strip s <> "") required)
    /\ strong_matches r ++ (skill <$> weak_matches r) ++ missing_skills r
       ≡ₚ normalize_all required.
Proof.
  intros Hlen Hne.
  destruct (analyze_run avail engine resume required Hlen Hne)
    as (b & log & Hrun & Hb & _).
  eexists _, log. split; [exact Hrun|]. simpl. split.
  - rewrite <- normalize_all_length. by eapply placed_all_length.
  - exact (placed_all_classified _ _ _ _ Hb).
Qed.

Lemma classification_partitions_witness :
  exists r log,
    analyze true toy_engine ["React.js"; "Python"]
            ["React"; "  "; "Docker"; "python"]
    = (Ok r, log)
    /\ (length (strong_matches r) + length (weak_matches r)
        + length (missing_skills r))%nat
       = length (filter (fun s => Py.strip s <> "")
                        ["React"; "  "; "Docker"; "python"])
    /\ strong_matches r ++ (skill <$> weak_matches r) ++ missing_skills r
       ≡ₚ normalize_all ["React"; "  "; "Docker"; "python"].
Proof.
  apply (classification_partitions true toy_engine).
  - intros _. apply toy_engine_lengths.
  - discriminate.
Defined.

(** C2 as stated fails.  The percentage is computed in binary64
    arithmetic and rounded to two decimals: one strong match out of three
    required skills gives 33.33, not 100/3; eleven strong matches and one
    weak match out of eighty give 14.37, while 100 * (11 + 0.5) / 80 is
    14.375, whose rounding to two decimals is 14.38 (a half going to the
    even digit, or up).  And the
    divisor counts the required skills left after normalization: with a
    blank entry in a required list of two, one strong match gives 100. *)
Lemma match_percentage_not_exact :
  (exists r,
     analyze false toy_engine ["Python"] ["Python"; "Docker"; "SQL"] = (Ok r, [])
     /\ strong_matches r = ["python"] /\ weak_matches r = []
     /\ (match_percentage r == Num.b64 (3333 # 100))%Q
     /\ ~ (match_percentage r
           == 100 * (count (strong_matches r) + (5 # 10) * count (weak_matches r))
              / 3)%Q)
  /\ (exists r,
        analyze false toy_engine twelve_resume eighty_required = (Ok r, [])
        /\ length (strong_matches r) = 11%nat /\ length (weak_matches r) = 1%nat
        /\ (match_percentage r == Num.b64 (1437 # 100))%Q
        /\ (100 * (count (strong_matches r) + (5 # 10) * count (weak_matches r))
            / 80 == 14375 # 1000)%Q
        /\ (match_percentage r < (14375 # 1000) - (1 # 200))%Q)
  /\ (exists r,
        analyze false toy_engine ["Python"] ["Python"; " "] = (Ok r, [])
        /\ strong_matches r = ["python"] /\ weak_matches r = []
        /\ (match_percentage r == 100)%Q).
Proof.
  split; [|split].
  - eexists. split; [vm_compute; reflexivity|]. simpl.
    split; [done|]. split; [done|]. split; [vm_compute; reflexivity|].
    vm_compute. discriminate.
  - eexists. split; [vm_compute; reflexivity|]. simpl.
    split; [done|]. split; [done|]. repeat split; vm_compute; reflexivity.
  - eexists. split; [vm_compute; reflexivity|]. simpl.
    split; [done|]. split; [done|]. vm_compute. reflexivity.
Qed.

(** C2, as it holds, for a required list of fewer than 2^52 entries.  The
    returned percentage lies in [0,100].  With n the number of required
    skills whose trimmed form is not empty, it is 0 when n is 0 (in
    particular when the required list is empty); otherwise it is the
    binary64 quotient (strong + 0.5 * weak) / n, times 100 in binary64,
    rounded to two decimals by [round], and it differs from
    100 * (strong + 0.5 * weak) / n by at most 0.0051. *)
Theorem match_percentage_rounded avail engine resume required :
  (avail = true -> engine_lengths engine) ->
  (Z.of_nat (length required) < 2 ^ 52)%Z ->
  exists r log,
    analyze avail engine resume required = (Ok r, log)
    /\ (0 <= match_percentage r <= 100)%Q
    /\ let n := length (filter (fun s => Py.strip s <> "") required) in
       let matched :=
         (count (strong_matches r) + (5 # 10) * count (weak_matches r))%Q in
       ((0 < n)%nat ->
        (match_percentage r
         == Num.round
              (Num.mul (Num.b64 (matched / inject_Z (Z.of_nat n))) 100) 2
         /\ 100 * matched / inject_Z (Z.of_nat n) - (51 # 10000)
            <= match_percentage r
            <= 100 * matched / inject_Z (Z.of_nat n) + (51 # 10000))%Q)
       /\ (n = O -> match_percentage r == 0)%Q.
Proof.
  intros Hlen Hsize. destruct resume as [|s0 resume].
  { eexists _, _. split; [reflexivity|]. simpl. split; [lra|]. split.
    - intros Hn.
      assert ((count (@nil string) + (5 # 10) * count (@nil weak_match))
              / inject_Z (Z.of_nat
                            (length (filter (fun s => Py.strip s <> "") required)))
              == 0)%Q as Hzero by (unfold count, Qdiv; simpl; ring).
      split.
      + rewrite (round_comp _ 0); [reflexivity|].
        unfold Num.mul. rewrite (b64_proper _ 0); [reflexivity|].
        rewrite (b64_proper _ 0); [reflexivity | exact Hzero].
      + unfold count, Qdiv. simpl. split; ring_simplify; discriminate.
    - reflexivity. }
  destruct (analyze_run avail engine (s0 :: resume) required Hlen)
    as (b & log & Hrun & Hb & _); [discriminate|].
  eexists _, log. split; [exact Hrun|]. simpl.
  rewrite normalize_all_length in *.
  set (n := length (filter (fun s => Py.strip s <> "") required)) in *.
  apply placed_all_length in Hb. rewrite normalize_all_length in Hb. fold n in Hb.
  assert (n <= length required)%nat as Hn_le by apply length_filter.
  unfold percentage. destruct (Nat.ltb_spec 0 n) as [Hn | Hn].
  - assert (0 < inject_Z (Z.of_nat n))%Q as HnQ.
    { change 0%Q with (inject_Z 0). rewrite <- Zlt_Qlt. lia. }
    assert (count (strong b) + count (weak b) <= inject_Z (Z.of_nat n))%Q as Hsum.
    { unfold count. rewrite <- inject_Z_plus, <- Zle_Qle. lia. }
    pose proof (count_nonneg (strong b)) as Hs.
    pose proof (count_nonneg (weak b)) as Hw.
    set (matched := (count (strong b) + (5 # 10) * count (weak b))%Q).
    assert (Num.add (fcount (strong b)) (Num.mul (fcount (weak b)) (5 # 10))
            == matched)%Q as Hexact.
    { unfold fcount, count, matched. apply half_sum_exact. lia. }
    assert (Num.of_int (Z.of_nat n) == inject_Z (Z.of_nat n))%Q as Hden
      by (apply b64_int; lia).
    set (e := (matched / inject_Z (Z.of_nat n))%Q).
    assert (0 <= e <= 1)%Q as [He0 He1].
    { unfold e, matched. split.
      - apply Qle_shift_div_l; [exact HnQ | lra].
      - apply Qle_shift_div_r; [exact HnQ | lra]. }
    assert (Num.mul
              (Num.b64 (Num.add (fcount (strong b))
                                (Num.mul (fcount (weak b)) (5 # 10))
                        / Num.of_int (Z.of_nat n))) 100
            == Num.mul (Num.b64 e) 100)%Q as Hcode.
    { unfold Num.mul. apply b64_proper.
      apply Qmult_comp; [|reflexivity]. apply b64_proper.
      unfold e. rewrite Hexact, Hden. reflexivity. }
    pose proof (percent_bounds e (conj He0 He1)) as Hp.
    split; [|split; [|lia]].
    + rewrite (round_comp _ _ 2 Hcode). by apply round_bounds.
    + intros _. split; [by apply round_comp|].
      rewrite (round_comp _ _ 2 Hcode).
      pose proof (round_error _ Hp) as Hr.
      pose proof (b64_error' e He0) as H1.
      assert (0 <= Num.b64 e)%Q as Hb0 by (by apply b64_nonneg).
      assert (0 <= Num.b64 e * 100)%Q as Hb100 by lra.
      pose proof (b64_error' _ Hb100) as H2.
      assert (100 * matched / inject_Z (Z.of_nat n) == 100 * e)%Q as ->
        by (unfold e; field; lra).
      unfold Num.mul in *.
      set (r1 := Num.b64 e) in *. set (r2 := Num.b64 (r1 * 100)) in *.
      set (mp := Num.round r2 2) in *.
      split; lra.
  - assert (n = O) as -> by lia. split; [|split; [lia|]].
    + rewrite round_zero. lra.
    + intros _. apply round_zero.
Qed.

Lemma match_percentage_rounded_witness :
  exists r log,
    analyze true toy_engine ["React.js"; "Python"] ["React"; "Docker"; "python"]
    = (Ok r, log)
    /\ (0 <= match_percentage r <= 100)%Q
    /\ let n := length (filter (fun s => Py.strip s <> "")
                               ["React"; "Docker"; "python"]) in
       let matched :=
         (count (strong_matches r) + (5 # 10) * count (weak_matches r))%Q in
       ((0 < n)%nat ->
        (match_percentage r
         == Num.round
              (Num.mul (Num.b64 (matched / inject_Z (Z.of_nat n))) 100) 2
         /\ 100 * matched / inject_Z (Z.of_nat n) - (51 # 10000)
            <= match_percentage r
            <= 100 * matched / inject_Z (Z.of_nat n) + (51 # 10000))%Q)
       /\ (n = O -> match_percentage r == 0)%Q.
Proof.
  apply (match_percentage_rounded true toy_engine).
  - intros _. apply toy_engine_lengths.
  - reflexivity.
Defined.

End AnalyzerClaims.

(** ** Section segmentation: the stated properties *)

Section SegmenterClaims.

Import ResumeParser.

Lemma first_short_name text name ms h :
  In h (first_short text name ms) -> h.2 = name.
Proof.
  induction ms as [|span ms IH]; simpl; [done|].
  destruct (short_line text span); [|exact IH].
  intros [<- | []]. reflexivity.
Qed.

Lemma header_indices_names text h :
  h ∈ header_indices text -> h.2 ∈ section_names.
Proof.
  intros H%list_elem_of_In. unfold header_indices in H.
  apply in_flat_map in H as (entry & Hentry & H).
  apply in_flat_map in H as (pattern & _ & H).
  rewrite (first_short_name _ _ _ _ H).
  apply list_elem_of_In, in_map, Hentry.
Qed.

Lemma insert_header_perm h l : insert_header h l ≡ₚ h :: l.
Proof.
  induction l as [|x l IH]; simpl; [done|].
  destruct (header_leb h x); [done|]. rewrite IH. apply Permutation_swap.
Qed.

Lemma sort_headers_perm l : sort_headers l ≡ₚ l.
Proof.
  induction l as [|h l IH]; simpl; [done|].
  by rewrite insert_header_perm, IH.
Qed.

Lemma header_leb_total a b : header_leb a b = true \/ header_leb b a = true.
Proof.
  unfold header_leb.
  destruct (Z.ltb_spec a.1 b.1); [by left|].
  destruct (Z.ltb_spec b.1 a.1); [by right|].
  assert (a.1 = b.1) as -> by lia. rewrite Z.eqb_refl. simpl.
  apply String.leb_total.
Qed.

Lemma insert_header_sorted h l :
  Sorted (fun a b => header_leb a b = true) l ->
  Sorted (fun a b => header_leb a b = true) (insert_header h l).
Proof.
  induction 1 as [|x l Hl IH Hhd]; simpl; [by repeat constructor|].
  destruct (header_leb h x) eqn:E.
  - by repeat constructor.
  - constructor; [exact IH|].
    assert (header_leb x h = true) as Hxh
      by (destruct (header_leb_total x h) as [?|Hhx]; [done | congruence]).
    destruct Hhd as [|y l Hxy]; simpl; [by constructor|].
    destruct (header_leb h y); by constructor.
Qed.

(** [sort_headers] sorts: its result is in order and has the elements of
    its argument. *)
Lemma sort_headers_sorted l :
  Sorted (fun a b => header_leb a b = true) (sort_headers l).
Proof.
  induction l as [|h l IH]; simpl; [constructor|].
  by apply insert_header_sorted.
Qed.

Lemma fill_sections_dom text hs (m : gmap string string) :
  (forall h, h ∈ hs -> h.2 ∈ dom m) -> dom (fill_sections text hs m) = dom m.
Proof.
  revert m. induction hs as [|[start name] hs IH]; intros m Hin; simpl; [done|].
  assert (name ∈ dom m) as Hname by (apply (Hin (start, name)); left).
  rewrite IH.
  - rewrite dom_insert_L. apply subseteq_union_1_L.
    by apply singleton_subseteq_l.
  - intros h Hh. rewrite dom_insert_L. apply elem_of_union_r, Hin. by right.
Qed.

Lemma fill_sections_absent text hs (m : gmap string string) name :
  name ∉ hs.*2 -> fill_sections text hs m !! name = m !! name.
Proof.
  revert m. induction hs as [|[start name'] hs IH]; intros m Hin; simpl; [done|].
  rewrite fmap_cons in Hin. apply not_elem_of_cons in Hin as [Hne Hin].
  rewrite IH by exact Hin. by apply lookup_insert_ne.
Qed.

Lemma dom_empty_sections :
  dom empty_sections
  = ({[ "education"; "experience"; "skills"; "projects"; "certifications";
        "others" ]} : gset string).
Proof.
  unfold empty_sections. rewrite !dom_insert_L, dom_empty_L. set_solver.
Qed.

Lemma empty_sections_lookup name :
  name ∈ section_names -> empty_sections !! name = Some "".
Proof.
  unfold section_names. simpl. intros H.
  repeat (apply elem_of_cons in H as [-> | H]; [reflexivity|]).
  by apply elem_of_nil in H.
Qed.

Lemma others_not_a_name : "others" ∉ section_names.
Proof.
  unfold section_names. simpl. intros H.
  repeat (apply elem_of_cons in H as [H | H]; [discriminate|]).
  by apply elem_of_nil in H.
Qed.

Lemma section_names_dom name : name ∈ section_names -> name ∈ dom empty_sections.
Proof. intros H%empty_sections_lookup. apply elem_of_dom. eauto. Qed.

(** C3. The mapping returned by [segment_sections] has exactly six keys:
    the five section names and the key of the remainder section, ["others"]
    in the code.  A section for which no header was accepted is the empty
    string.  When no header is accepted at all the remainder section is the
    whole text and the five named sections are empty strings. *)
Theorem segment_sections_complete text :
  dom (segment_sections text)
  = ({[ "education"; "experience"; "skills"; "projects"; "certifications";
        "others" ]} : gset string)
  /\ (forall name,
        name ∈ section_names -> name ∉ (header_indices text).*2 ->
        segment_sections text !! name = Some "")
  /\ (header_indices text = [] ->
      segment_sections text !! "others" = Some text
      /\ forall name,
           name ∈ section_names -> segment_sections text !! name = Some "").
Proof.
  unfold segment_sections.
  pose proof (sort_headers_perm (header_indices text)) as Hperm.
  destruct (sort_headers (header_indices text)) as [|h hs] eqn:E.
  - apply Permutation_nil in Hperm.
    assert (forall name, name ∈ section_names ->
              <["others" := text]> empty_sections !! name = Some "") as Hfive.
    { intros name Hname. rewrite lookup_insert_ne.
      - by apply empty_sections_lookup.
      - intros <-. by apply others_not_a_name. }
    split; [|split].
    + rewrite dom_insert_L, <- dom_empty_sections. apply subseteq_union_1_L.
      apply singleton_subseteq_l, elem_of_dom. by eexists.
    + intros name Hname _. by apply Hfive.
    + intros _. split; [apply lookup_insert_eq | exact Hfive].
  - split; [|split].
    + rewrite fill_sections_dom; [apply dom_empty_sections|].
      intros h' Hh'. rewrite Hperm in Hh'.
      apply section_names_dom. by eapply header_indices_names.
    + intros name Hname Habsent. rewrite fill_sections_absent.
      * by apply empty_sections_lookup.
      * by rewrite Hperm.
    + intros Hnil. rewrite Hnil in Hperm.
      symmetry in Hperm. by apply Permutation_nil in Hperm.
Qed.

Lemma segment_sections_complete_witness :
  segment_sections "Jane Roe, engineer" !! "others" = Some "Jane Roe, engineer"
  /\ segment_sections "Jane Roe, engineer" !! "skills" = Some "".
Proof.
  destruct (segment_sections_complete "Jane Roe, engineer") as (_ & _ & H).
  destruct H as [Hothers Hfive]; [vm_compute; reflexivity|].
  split; [exact Hothers|]. apply Hfive.
  unfold section_names; simpl. do 2 right; left.
Defined.

(** What the loops do guarantee: a pattern adds at most one header, so a
    section adds at most as many headers as it has patterns. *)
Lemma first_short_at_most_one text name ms :
  (length (first_short text name ms) <= 1)%nat.
Proof.
  induction ms as [|span ms IH]; simpl; [lia|].
  destruct (short_line text span); simpl; lia.
Qed.

Lemma section_headers_bound text entry :
  (length (section_headers text entry) <= length entry.2)%nat.
Proof.
  unfold section_headers. induction entry.2 as [|pattern ps IH]; simpl; [lia|].
  rewrite length_app.
  pose proof (first_short_at_most_one text entry.1 (Re.finditer pattern text)).
  lia.
Qed.

(** C1.  The line ["WORK EXPERIENCE"] is accepted twice as a header of the
    section [experience]: once by the pattern [EXPERIENCE] at offset 5 and
    once more by the pattern [WORK EXPERIENCE] at offset 0.  The search goes
    on through the synonyms of a section after one of them has matched; on
    the second text the section's content is the text after the third
    header, and the lines under the first are lost. *)
Theorem synonyms_searched_after_match :
  header_indices ("WORK EXPERIENCE" +:+ Py.nl +:+ "Acme Corp, 2020-2024")
  = [(5%Z, "experience"); (0%Z, "experience")]
  /\ (let text := "EXPERIENCE" +:+ Py.nl +:+ "Acme Corp" +:+ Py.nl
                  +:+ "Work Experience" +:+ Py.nl +:+ "Beta Ltd" in
      sort_headers (header_indices text)
      = [(0%Z, "experience"); (21%Z, "experience"); (26%Z, "experience")]
      /\ segment_sections text !! "experience" = Some "Beta Ltd").
Proof. vm_compute. repeat split; reflexivity. Qed.

End SegmenterClaims.

(** ** Compatibility scorer: the stated properties *)

Section ScorerClaims.

Import ATSScorer.
Local Open Scope Q_scope.

Variable nltk_stopwords : option (list string).

Lemma size_positive (s : gset string) :
  s <> ∅ -> Qeq_bool (inject_Z (Z.of_nat (size s))) 0 = false
            /\ 0 < inject_Z (Z.of_nat (size s)).
Proof.
  intros Hne. assert (size s <> O) as Hsize.
  { intros H%size_empty_iff. apply Hne. by apply leibniz_equiv. }
  assert (0 < inject_Z (Z.of_nat (size s))) as Hpos.
  { change 0 with (inject_Z 0). rewrite <- Zlt_Qlt. lia. }
  split; [|exact Hpos].
  destruct (Qeq_bool _ 0) eqn:E; [|reflexivity].
  apply Qeq_bool_iff in E. lra.
Qed.

Lemma size_nonneg (s : gset string) : 0 <= inject_Z (Z.of_nat (size s)).
Proof. change 0 with (inject_Z 0). rewrite <- Zle_Qle. lia. Qed.

Lemma score_keywords_ok resume_data jd :
  exists kw, _score_keywords nltk_stopwords resume_data jd = Ok kw
             /\ 0 <= kw_score kw <= 100.
Proof.
  unfold _score_keywords.
  set (jd_keywords := _extract_keywords nltk_stopwords jd).
  set (matches := jd_keywords ∩ _).
  case_bool_decide as Hjd; simpl.
  - eexists. split; [reflexivity|]. simpl. apply min_bounds.
    apply mul_nonneg; lra.
  - destruct (size_positive jd_keywords Hjd) as [Hz Hpos].
    unfold py_div. rewrite Hz. simpl.
    eexists. split; [reflexivity|]. simpl. apply min_bounds.
    pose proof (size_nonneg matches).
    apply mul_nonneg; [|lra]. apply b64_nonneg.
    apply Qle_shift_div_l; [exact Hpos | lra].
Qed.

Lemma score_experience_ok exp_text jd :
  exists exp, _score_experience nltk_stopwords exp_text jd = Ok exp
              /\ 0 <= exp_score exp <= 100.
Proof.
  unfold _score_experience.
  destruct (negb (Py.truthy (Py.strip exp_text))).
  { eexists. split; [reflexivity|]. simpl. lra. }
  set (jd_keywords := _extract_keywords nltk_stopwords jd).
  set (matches := jd_keywords ∩ _).
  pose proof (size_nonneg matches).
  case_bool_decide as Hjd.
  - unfold py_div. simpl. eexists. split; [reflexivity|]. simpl.
    apply min_bounds. apply mul_nonneg; [|lra]. apply b64_nonneg.
    apply Qle_shift_div_l; lra.
  - destruct (size_positive jd_keywords Hjd) as [_ Hpos].
    assert (0 < Num.mul (Num.of_int (Z.of_nat (size jd_keywords))) (5 # 10))
      as Hden.
    { unfold Num.mul, Num.of_int. apply b64_pos_lt.
      pose proof (b64_pos_lt _ Hpos). lra. }
    unfold py_div.
    destruct (Qeq_bool (Num.mul (Num.of_int (Z.of_nat (size jd_keywords)))
                          (5 # 10)) 0) eqn:E.
    { apply Qeq_bool_iff in E. lra. }
    simpl. eexists. split; [reflexivity|]. simpl. apply min_bounds.
    apply mul_nonneg; [|lra]. apply b64_nonneg.
    apply Qle_shift_div_l; [exact Hden|].
    assert (0 <= Num.of_int (Z.of_nat (size matches)))
      by (by apply b64_nonneg).
    lra.
Qed.

Lemma score_projects_bounds project_text :
  0 <= proj_score (_score_projects project_text) <= 100.
Proof.
  unfold _score_projects.
  destruct (negb (Py.truthy (Py.strip project_text))); simpl; [lra|].
  destruct (100 <? _)%nat; [lra|]. destruct (50 <? _)%nat; lra.
Qed.

Lemma score_certifications_bounds cert_text :
  0 <= cert_score (_score_certifications cert_text) <= 100.
Proof.
  unfold _score_certifications.
  destruct (Py.truthy (Py.strip cert_text)); simpl; lra.
Qed.

Lemma score_formatting_ok (sections : gmap string string) :
  exists fmt, _score_formatting sections = Ok fmt /\ 0 <= fmt_score fmt <= 100.
Proof.
  unfold _score_formatting.
  set (required := ["education"; "experience"; "skills"]%string).
  set (found := filter _ required).
  unfold py_div.
  change (Qeq_bool (count required) 0) with false. simpl.
  eexists. split; [reflexivity|]. simpl.
  apply percent_bounds.
  assert (count found <= count required) as Hle.
  { unfold count. rewrite <- Zle_Qle. apply inj_le, length_filter. }
  pose proof (count_nonneg found).
  change (count required) with 3 in *.
  split.
  - apply Qle_shift_div_l; [reflexivity | lra].
  - apply Qle_shift_div_r; [reflexivity | lra].
Qed.

(** [calculate_score] returns, and its five scores lie in [0,100]. *)
Lemma calculate_score_ok resume_data jd :
  exists r,
    calculate_score nltk_stopwords resume_data jd = Ok r
    /\ overall_score r = Num.round (weighted_total (breakdown r)) 2
    /\ _score_experience nltk_stopwords
         (get_str (default ∅ (sections resume_data)) "experience") jd
       = Ok (b_experience (breakdown r))
    /\ 0 <= kw_score (b_keywords (breakdown r)) <= 100
    /\ 0 <= exp_score (b_experience (breakdown r)) <= 100
    /\ 0 <= proj_score (b_projects (breakdown r)) <= 100
    /\ 0 <= cert_score (b_certifications (breakdown r)) <= 100
    /\ 0 <= fmt_score (b_formatting (breakdown r)) <= 100.
Proof.
  unfold calculate_score.
  destruct (score_keywords_ok resume_data jd) as (kw & -> & Hkw).
  set (sections := default ∅ (ATSScorer.sections resume_data)).
  destruct (score_experience_ok (get_str sections "experience") jd)
    as (exp & Hexp_eq & Hexp).
  rewrite Hexp_eq.
  destruct (score_formatting_ok sections) as (fmt & -> & Hfmt).
  simpl. eexists. split; [reflexivity|]. simpl.
  split; [reflexivity|]. split; [reflexivity|].
  split; [exact Hkw|]. split; [exact Hexp|].
  split; [apply score_projects_bounds|].
  split; [apply score_certifications_bounds | exact Hfmt].
Qed.

(** The weighted total of five scores in [0,100], as the code computes it
    with nine roundings, against the exact weighted sum. *)
Lemma weighted_total_error b :
  0 <= kw_score (b_keywords b) <= 100 ->
  0 <= exp_score (b_experience b) <= 100 ->
  0 <= proj_score (b_projects b) <= 100 ->
  0 <= cert_score (b_certifications b) <= 100 ->
  0 <= fmt_score (b_formatting b) <= 100 ->
  let exact := kw_score (b_keywords b) * (40 # 100)
               + exp_score (b_experience b) * (30 # 100)
               + proj_score (b_projects b) * (15 # 100)
               + cert_score (b_certifications b) * (10 # 100)
               + fmt_score (b_formatting b) * (5 # 100) in
  0 <= weighted_total b
  /\ exact - (1 # 1000000000) <= weighted_total b <= exact + (1 # 1000000000).
Proof.
  intros Hk He Hp Hc Hf. cbv zeta. unfold weighted_total, Num.add, Num.mul.
  assert (weight "keywords" == 3602879701896397 # 9007199254740992) as W1
    by (vm_compute; reflexivity).
  assert (weight "experience" == 5404319552844595 # 18014398509481984) as W2
    by (vm_compute; reflexivity).
  assert (weight "projects" == 5404319552844595 # 36028797018963968) as W3
    by (vm_compute; reflexivity).
  assert (weight "certifications" == 3602879701896397 # 36028797018963968) as W4
    by (vm_compute; reflexivity).
  assert (weight "formatting" == 3602879701896397 # 72057594037927936) as W5
    by (vm_compute; reflexivity).
  set (k := kw_score (b_keywords b)) in *.
  set (e := exp_score (b_experience b)) in *.
  set (p := proj_score (b_projects b)) in *.
  set (c := cert_score (b_certifications b)) in *.
  set (f := fmt_score (b_formatting b)) in *.
  set (w1 := weight "keywords") in *. set (w2 := weight "experience") in *.
  set (w3 := weight "projects") in *. set (w4 := weight "certifications") in *.
  set (w5 := weight "formatting") in *.
  assert (0 <= k * w1) as N1 by (rewrite W1; lra).
  assert (0 <= e * w2) as N2 by (rewrite W2; lra).
  assert (0 <= p * w3) as N3 by (rewrite W3; lra).
  assert (0 <= c * w4) as N4 by (rewrite W4; lra).
  assert (0 <= f * w5) as N5 by (rewrite W5; lra).
  pose proof (b64_error' _ N1) as E1. pose proof (b64_nonneg _ N1) as P1.
  pose proof (b64_error' _ N2) as E2. pose proof (b64_nonneg _ N2) as P2.
  pose proof (b64_error' _ N3) as E3. pose proof (b64_nonneg _ N3) as P3.
  pose proof (b64_error' _ N4) as E4. pose proof (b64_nonneg _ N4) as P4.
  pose proof (b64_error' _ N5) as E5. pose proof (b64_nonneg _ N5) as P5.
  set (p1 := Num.b64 (k * w1)) in *. set (p2 := Num.b64 (e * w2)) in *.
  set (p3 := Num.b64 (p * w3)) in *. set (p4 := Num.b64 (c * w4)) in *.
  set (p5 := Num.b64 (f * w5)) in *.
  rewrite W1 in E1. rewrite W2 in E2. rewrite W3 in E3. rewrite W4 in E4.
  rewrite W5 in E5.
  assert (0 <= p1 + p2) as M1 by lra.
  pose proof (b64_error' _ M1) as F1. pose proof (b64_nonneg _ M1) as Q1.
  set (s1 := Num.b64 (p1 + p2)) in *.
  assert (0 <= s1 + p3) as M2 by lra.
  pose proof (b64_error' _ M2) as F2. pose proof (b64_nonneg _ M2) as Q2.
  set (s2 := Num.b64 (s1 + p3)) in *.
  assert (0 <= s2 + p4) as M3 by lra.
  pose proof (b64_error' _ M3) as F3. pose proof (b64_nonneg _ M3) as Q3.
  set (s3 := Num.b64 (s2 + p4)) in *.
  assert (0 <= s3 + p5) as M4 by lra.
  pose proof (b64_error' _ M4) as F4. pose proof (b64_nonneg _ M4) as Q4.
  set (s4 := Num.b64 (s3 + p5)) in *.
  split; [exact Q4|]. split; lra.
Qed.

Lemma weighted_total_zero b :
  kw_score (b_keywords b) == 0 ->
  exp_score (b_experience b) == 0 ->
  proj_score (b_projects b) == 0 ->
  cert_score (b_certifications b) == 0 ->
  fmt_score (b_formatting b) == 0 ->
  weighted_total b == 0.
Proof.
  intros Hk He Hp Hc Hf. unfold weighted_total, Num.add, Num.mul.
  assert (forall x w, x == 0 -> Num.b64 (x * w) == 0) as Hprod.
  { intros x w Hx. apply b64_zero. rewrite Hx. ring. }
  pose proof (Hprod _ (weight "keywords") Hk) as P1.
  pose proof (Hprod _ (weight "experience") He) as P2.
  pose proof (Hprod _ (weight "projects") Hp) as P3.
  pose proof (Hprod _ (weight "certifications") Hc) as P4.
  pose proof (Hprod _ (weight "formatting") Hf) as P5.
  set (p1 := Num.b64 (_ * weight "keywords")) in *.
  set (p2 := Num.b64 (_ * weight "experience")) in *.
  set (p3 := Num.b64 (_ * weight "projects")) in *.
  set (p4 := Num.b64 (_ * weight "certifications")) in *.
  set (p5 := Num.b64 (_ * weight "formatting")) in *.
  assert (Num.b64 (p1 + p2) == 0) as S1 by (apply b64_zero; lra).
  set (s1 := Num.b64 (p1 + p2)) in *.
  assert (Num.b64 (s1 + p3) == 0) as S2 by (apply b64_zero; lra).
  set (s2 := Num.b64 (s1 + p3)) in *.
  assert (Num.b64 (s2 + p4) == 0) as S3 by (apply b64_zero; lra).
  set (s3 := Num.b64 (s2 + p4)) in *.
  apply b64_zero. lra.
Qed.

(** C7 as stated fails: the weighted sum is computed in binary64
    arithmetic, and a sum that lands on a tie is rounded otherwise than the
    exact weighted sum of the same five scores.  With 96 keywords in the job
    description, five of them in the experience section and none in the
    skills, the five scores are 0, 10.416666666666668, 0, 0 and 100, the
    computed sum is 8.125 and the overall score 8.12, while the exact
    weighted sum is above 8.125 and its rounding to two decimals is 8.13. *)
Lemma overall_score_not_exact_sum :
  exists r,
    calculate_score None ninety_six_resume ninety_six_keywords = Ok r
    /\ kw_score (b_keywords (breakdown r)) == 0
    /\ exp_score (b_experience (breakdown r))
       == Num.mul (Num.b64 (5 / 48)) 100
    /\ proj_score (b_projects (breakdown r)) == 0
    /\ cert_score (b_certifications (breakdown r)) == 0
    /\ fmt_score (b_formatting (breakdown r)) == 100
    /\ weighted_total (breakdown r) == 8125 # 1000
    /\ overall_score r == Num.b64 (812 # 100)
    /\ (let exact := kw_score (b_keywords (breakdown r)) * (40 # 100)
                     + exp_score (b_experience (breakdown r)) * (30 # 100)
                     + proj_score (b_projects (breakdown r)) * (15 # 100)
                     + cert_score (b_certifications (breakdown r)) * (10 # 100)
                     + fmt_score (b_formatting (breakdown r)) * (5 # 100) in
        8125 # 1000 < exact
        /\ Num.round_half_even (exact * 100) = 813%Z
        /\ overall_score r < exact - (1 # 200)).
Proof.
  eexists. split; [vm_compute; reflexivity|].
  repeat split; vm_compute; reflexivity.
Qed.

(** C7, as it holds.  The five weights add up to 1 as the decimal
    numbers of the dictionary, and also when the five literals are added
    as binary64 numbers in the order of the dictionary, on the machine and
    with the rounding written out here.  For every resume and job
    description [calculate_score] returns, with the five results of the
    five scoring functions on that resume and description in its
    breakdown; its overall score is [round(t, 2)], where [t] is the sum of
    the five scores, each times its weight, the five products and the four
    sums rounded to binary64 from left to right; it lies in [0,100] and
    differs from the exact weighted sum of the five scores by at most
    0.0051. *)
Theorem overall_score_weighted resume_data jd :
  fold_right Qplus 0 (snd <$> weights) == 1
  /\ fold_left PrimFloat.add weights_binary64 0%float = 1%float
  /\ fold_left Num.add ((fun e => Num.b64 e.2) <$> weights) 0 == 1
  /\ let sections := default ∅ (sections resume_data) in
     exists kw exp fmt r,
       _score_keywords nltk_stopwords resume_data jd = Ok kw
       /\ _score_experience nltk_stopwords (get_str sections "experience") jd
          = Ok exp
       /\ _score_formatting sections = Ok fmt
       /\ calculate_score nltk_stopwords resume_data jd = Ok r
       /\ breakdown r
          = Breakdown kw exp (_score_projects (get_str sections "projects"))
              (_score_certifications (get_str sections "certifications")) fmt
       /\ overall_score r
          = Num.round
              (Num.add
                 (Num.add
                    (Num.add
                       (Num.add
                          (Num.mul (kw_score kw) (Num.b64 (40 # 100)))
                          (Num.mul (exp_score exp) (Num.b64 (30 # 100))))
                       (Num.mul
                          (proj_score
                             (_score_projects (get_str sections "projects")))
                          (Num.b64 (15 # 100))))
                    (Num.mul
                       (cert_score
                          (_score_certifications
                             (get_str sections "certifications")))
                       (Num.b64 (10 # 100))))
                 (Num.mul (fmt_score fmt) (Num.b64 (5 # 100)))) 2
       /\ 0 <= overall_score r <= 100
       /\ let exact :=
            kw_score kw * (40 # 100) + exp_score exp * (30 # 100)
            + proj_score (_score_projects (get_str sections "projects"))
              * (15 # 100)
            + cert_score
                (_score_certifications (get_str sections "certifications"))
              * (10 # 100)
            + fmt_score fmt * (5 # 100) in
          exact - (51 # 10000) <= overall_score r <= exact + (51 # 10000).
Proof.
  split; [reflexivity|]. split; [vm_compute; reflexivity|].
  split; [vm_compute; reflexivity|]. cbv zeta.
  set (sections := default ∅ (ATSScorer.sections resume_data)).
  destruct (score_keywords_ok resume_data jd) as (kw & Hkw_eq & Hkw).
  destruct (score_experience_ok (get_str sections "experience") jd)
    as (exp & Hexp_eq & Hexp).
  destruct (score_formatting_ok sections) as (fmt & Hfmt_eq & Hfmt).
  pose proof (score_projects_bounds (get_str sections "projects")) as Hproj.
  pose proof (score_certifications_bounds (get_str sections "certifications"))
    as Hcert.
  set (b := Breakdown kw exp (_score_projects (get_str sections "projects"))
              (_score_certifications (get_str sections "certifications")) fmt).
  exists kw, exp, fmt,
    (ScoreReport (Num.round (weighted_total b) 2) b
       (_generate_suggestions kw exp
          (_score_projects (get_str sections "projects"))
          (_score_certifications (get_str sections "certifications")) fmt)).
  split; [exact Hkw_eq|]. split; [exact Hexp_eq|]. split; [exact Hfmt_eq|].
  split.
  { unfold calculate_score. fold sections. rewrite Hkw_eq. cbn [outcome_bind].
    rewrite Hexp_eq. cbn [outcome_bind]. rewrite Hfmt_eq. reflexivity. }
  cbn [breakdown overall_score]. split; [reflexivity|]. split; [reflexivity|].
  destruct (weighted_total_error b Hkw Hexp Hproj Hcert Hfmt) as [Hpos Herr].
  cbn [b b_keywords b_experience b_projects b_certifications b_formatting]
    in Herr.
  set (exact := kw_score kw * (40 # 100) + exp_score exp * (30 # 100)
                + proj_score (_score_projects (get_str sections "projects"))
                  * (15 # 100)
                + cert_score
                    (_score_certifications (get_str sections "certifications"))
                  * (10 # 100)
                + fmt_score fmt * (5 # 100)) in *.
  assert (0 <= exact <= 100) as Hexact by (unfold exact; lra).
  set (t := weighted_total b) in *.
  assert (Num.round t 2 <= 100) as Hhi.
  { apply Qle_trans with (Num.round (100004 # 1000) 2).
    - apply round_mono; lra.
    - vm_compute. discriminate. }
  assert (0 <= Num.round t 2) as Hlo.
  { rewrite <- round_zero. apply round_mono; lra. }
  split; [split; assumption|].
  destruct (Qlt_le_dec 100 t) as [Hbig|Hsmall].
  - assert (Num.round 100 2 <= Num.round t 2) as H1 by (apply round_mono; lra).
    rewrite round_hundred in H1. split; lra.
  - pose proof (round_error t (conj Hpos Hsmall)) as Hr. split; lra.
Qed.

(** C8. When the experience section is empty or consists of white space
    only, [_score_experience] takes its first return: the score is the
    integer 0 with the message of the missing section, for every job
    description, and the branch that divides is not entered (its result
    would carry the terms found and no message).  The same holds for the
    experience entry of the breakdown [calculate_score] returns. *)
Theorem empty_experience_scores_zero resume_data exp_text jd :
  Py.strip exp_text = "" ->
  _score_experience nltk_stopwords exp_text jd
  = Ok (ExperienceResult 0 (Some "No experience section found.") None)
  /\ (get_str (default ∅ (sections resume_data)) "experience" = exp_text ->
      exists r,
        calculate_score nltk_stopwords resume_data jd = Ok r
        /\ b_experience (breakdown r)
           = ExperienceResult 0 (Some "No experience section found.") None
        /\ exp_score (b_experience (breakdown r)) = 0).
Proof.
  intros Hblank.
  assert (_score_experience nltk_stopwords exp_text jd
          = Ok (ExperienceResult 0 (Some "No experience section found.") None))
    as Hexp.
  { unfold _score_experience. rewrite Hblank. reflexivity. }
  split; [exact Hexp|]. intros Hsection.
  destruct (calculate_score_ok resume_data jd) as (r & Hr & _ & Hr_exp & _).
  exists r. split; [exact Hr|].
  rewrite Hsection, Hexp in Hr_exp. injection Hr_exp as <-.
  split; reflexivity.
Qed.

End ScorerClaims.

Lemma empty_experience_scores_zero_witness :
  ATSScorer._score_experience None "   " ""
  = Ok (ATSScorer.ExperienceResult 0 (Some "No experience section found.") None)
  /\ exists r,
       ATSScorer.calculate_score None
         (ATSScorer.Resume (Some "Python developer")
            (Some (<["experience" := "   "]> (<["skills" := "Python"]> ∅)))) ""
       = Ok r
       /\ ATSScorer.b_experience (ATSScorer.breakdown r)
          = ATSScorer.ExperienceResult 0 (Some "No experience section found.") None
       /\ ATSScorer.exp_score (ATSScorer.b_experience (ATSScorer.breakdown r))
          = 0%Q.
Proof.
  destruct (empty_experience_scores_zero None
              (ATSScorer.Resume (Some "Python developer")
                 (Some (<["experience" := "   "]> (<["skills" := "Python"]> ∅))))
              "   " "") as [Hexp Hdoc]; [reflexivity|].
  split; [exact Hexp|]. apply Hdoc. reflexivity.
Defined.

(** ** Role retriever: the stated properties *)

Section StoreClaims.

Import VectorStore.

(** C9. On a store whose index holds no role, or that has no index,
    [search_similar_roles] returns the empty list for every query and every
    [k]: it does not raise, whether or not the vector libraries are
    available and whatever the encoder and the index search do. *)
Theorem search_empty_store avail encode faiss_search st query k :
  indexed_roles st = 0%Z ->
  search_similar_roles avail encode faiss_search st query k = Ok [].
Proof.
  unfold indexed_roles, search_similar_roles. intros Hzero.
  destruct avail; [|reflexivity].
  destruct (index st) as [ix|]; [|reflexivity].
  rewrite Hzero. reflexivity.
Qed.

End StoreClaims.

Lemma search_empty_store_witness :
  VectorStore.search_similar_roles true (fun _ => [1%Q]) (fun _ _ _ => [(0%Q, 0%Z)])
    (VectorStore.fresh true) "anything" 3
  = Ok [].
Proof.
  apply (search_empty_store true (fun _ => [1%Q]) (fun _ _ _ => [(0%Q, 0%Z)])
           (VectorStore.fresh true) "anything" 3).
  reflexivity.
Defined.

(** ** Recommender *)

Section RecommenderFacts.

Import Recommender.

Lemma add_projects_ok projects a : acc_ok a -> acc_ok (add_projects projects a).
Proof.
  revert a. induction projects as [|proj rest IH]; intros a Hok; simpl; [done|].
  apply IH. case_bool_decide as Hseen; [done|].
  destruct Hok as [Hnd Hseen_iff]. split; simpl.
  - rewrite fmap_app. simpl. apply NoDup_app. split; [done|]. split.
    + intros t Ht [->|[]%elem_of_nil]%elem_of_cons. by apply Hseen, Hseen_iff.
    + by apply NoDup_singleton.
  - intros t. rewrite fmap_app, elem_of_app, elem_of_union, Hseen_iff. simpl.
    rewrite elem_of_singleton, list_elem_of_singleton. done.
Qed.

Lemma add_templates_ok templates skill_lower a :
  acc_ok a -> acc_ok (add_templates templates skill_lower a).
Proof.
  revert a. induction templates as [|[key projects] rest IH]; intros a Hok;
    simpl; [done|].
  apply IH. destruct (related key skill_lower); [by apply add_projects_ok | done].
Qed.

Lemma add_skills_ok missing a : acc_ok a -> acc_ok (add_skills missing a).
Proof.
  revert a. induction missing as [|skill rest IH]; intros a Hok; cbn [add_skills]; [done|].
  by apply IH, add_templates_ok.
Qed.

(** Provenance: a property of the projects added is a property of the
    recommendations. *)
Lemma add_projects_all (P : project -> Prop) projects a :
  Forall P a.1 -> Forall P projects -> Forall P (add_projects projects a).1.
Proof.
  revert a. induction projects as [|proj rest IH]; intros a Ha Hps; simpl; [done|].
  inversion Hps; subst. apply IH; [|done].
  case_bool_decide; [done|]. simpl. apply Forall_app. split; [done|].
  by constructor.
Qed.

Lemma add_templates_all (P : project -> Prop) templates skill_lower a :
  Forall P a.1 ->
  (forall key projects,
     (key, projects) ∈ templates -> related key skill_lower = true ->
     Forall P projects) ->
  Forall P (add_templates templates skill_lower a).1.
Proof.
  revert a. induction templates as [|[key projects] rest IH]; intros a Ha Hps;
    simpl; [done|].
  apply IH.
  - destruct (related key skill_lower) eqn:E; [|done].
    apply add_projects_all; [done|]. eapply Hps; [left | done].
  - intros key' projects' Hin. apply Hps. by right.
Qed.

Lemma add_skills_all (P : project -> Prop) missing a :
  Forall P a.1 ->
  (forall skill key projects,
     skill ∈ missing -> (key, projects) ∈ project_templates ->
     related key (Py.lower skill) = true -> Forall P projects) ->
  Forall P (add_skills missing a).1.
Proof.
  revert a. induction missing as [|skill rest IH]; intros a Ha Hps; cbn [add_skills]; [done|].
  apply IH.
  - apply add_templates_all; [done|]. intros key projects Hin.
    apply (Hps skill); [left | done].
  - intros skill' key projects Hin. apply Hps. by right.
Qed.

(** The recommendations only grow. *)
Lemma add_projects_grows projects a : a.1 <> [] -> (add_projects projects a).1 <> [].
Proof.
  revert a. induction projects as [|proj rest IH]; intros a Ha; simpl; [done|].
  apply IH. case_bool_decide; [done|]. simpl. by destruct a.1.
Qed.

Lemma add_templates_grows templates skill_lower a :
  a.1 <> [] -> (add_templates templates skill_lower a).1 <> [].
Proof.
  revert a. induction templates as [|[key projects] rest IH]; intros a Ha;
    simpl; [done|].
  apply IH. destruct (related key skill_lower); [by apply add_projects_grows | done].
Qed.

Lemma add_skills_grows missing a : a.1 <> [] -> (add_skills missing a).1 <> [].
Proof.
  revert a. induction missing as [|skill rest IH]; intros a Ha; cbn [add_skills]; [done|].
  by apply IH, add_templates_grows.
Qed.

Lemma add_projects_nonempty projects a :
  acc_ok a -> projects <> [] -> (add_projects projects a).1 <> [].
Proof.
  intros [_ Hseen] Hne. destruct projects as [|proj rest]; [done|]. simpl.
  apply add_projects_grows. case_bool_decide as Hin; simpl.
  - apply Hseen in Hin. intros E. rewrite E in Hin. by apply elem_of_nil in Hin.
  - by destruct a.1.
Qed.

Lemma add_templates_nonempty templates skill_lower a key projects :
  acc_ok a -> (key, projects) ∈ templates -> related key skill_lower = true ->
  projects <> [] ->
  (add_templates templates skill_lower a).1 <> [].
Proof.
  revert a. induction templates as [|[key' projects'] rest IH];
    intros a Hok Hin Hrel Hne; [by apply elem_of_nil in Hin|].
  simpl. apply elem_of_cons in Hin as [[= <- <-] | Hin].
  - rewrite Hrel. apply add_templates_grows. by apply add_projects_nonempty.
  - eapply IH; [|done..].
    destruct (related key' skill_lower); [by apply add_projects_ok | done].
Qed.

Lemma add_skills_nonempty missing a skill key projects :
  acc_ok a -> skill ∈ missing -> (key, projects) ∈ project_templates ->
  related key (Py.lower skill) = true -> projects <> [] ->
  (add_skills missing a).1 <> [].
Proof.
  revert a. induction missing as [|skill' rest IH];
    intros a Hok Hin Hkey Hrel Hne; [by apply elem_of_nil in Hin|].
  cbn [add_skills]. apply elem_of_cons in Hin as [<- | Hin].
  - apply add_skills_grows. by eapply add_templates_nonempty.
  - eapply IH; [|done..]. by apply add_templates_ok.
Qed.

(** Without a related key nothing is added. *)
Lemma add_templates_unrelated templates skill_lower a :
  (forall key projects,
     (key, projects) ∈ templates -> related key skill_lower = false) ->
  add_templates templates skill_lower a = a.
Proof.
  revert a. induction templates as [|[key projects] rest IH]; intros a Hno;
    simpl; [done|].
  rewrite (Hno key projects) by left. apply IH.
  intros key' projects' Hin. eapply Hno. by right.
Qed.

Lemma add_skills_unrelated missing a :
  (forall skill key projects,
     skill ∈ missing -> (key, projects) ∈ project_templates ->
     related key (Py.lower skill) = false) ->
  add_skills missing a = a.
Proof.
  revert a. induction missing as [|skill rest IH]; intros a Hno; cbn [add_skills]; [done|].
  rewrite add_templates_unrelated.
  - apply IH. intros skill' key projects Hin. apply Hno. by right.
  - intros key projects. apply Hno. left.
Qed.

Lemma acc_ok_empty : acc_ok ([], ∅).
Proof.
  split; simpl; [constructor|]. intros t. split.
  - intros []%not_elem_of_empty.
  - intros []%elem_of_nil.
Qed.

Lemma templates_nonempty key projects :
  (key, projects) ∈ project_templates -> projects <> [].
Proof.
  unfold project_templates. intros H.
  repeat (apply elem_of_cons in H as [[= -> ->] | H]; [discriminate|]).
  by apply elem_of_nil in H.
Qed.

Lemma templates_in_all key projects proj :
  (key, projects) ∈ project_templates -> proj ∈ projects -> proj ∈ all_templates.
Proof.
  intros Hkey Hproj. unfold all_templates.
  apply list_elem_of_In, in_concat. exists projects.
  split; [|by apply list_elem_of_In].
  apply list_elem_of_In, list_elem_of_fmap. by exists (key, projects).
Qed.

Lemma elem_of_take_in {A} (x : A) n l : x ∈ take n l -> x ∈ l.
Proof. intros H. eapply elem_of_sublist; [exact H | apply sublist_take]. Qed.

Lemma fallback_projects :
  take 2 (templates_of "python")
  = default [] (snd <$> head project_templates).
Proof. reflexivity. Qed.

(** The recommended projects: between one and three, with pairwise
    different titles, each taken from the templates. *)
Theorem recommended_projects_shape missing role :
  let recs := recommended_projects (generate_recommendations missing role) in
  (1 <= length recs <= 3)%nat
  /\ NoDup (title <$> recs)
  /\ (forall proj, proj ∈ recs -> proj ∈ all_templates).
Proof.
  unfold generate_recommendations. cbn [recommended_projects].
  pose proof (add_skills_ok missing ([], ∅) acc_ok_empty) as [Hnd _].
  assert (Forall (fun p => p ∈ all_templates) (add_skills missing ([], ∅)).1)
    as Hall.
  { apply add_skills_all; [constructor|].
    intros skill key projects _ Hkey _. apply Forall_forall.
    intros proj. by apply (templates_in_all key projects). }
  destruct (add_skills missing ([], ∅)).1 as [|p found] eqn:E.
  - split.
    { assert (length (take 3 (take 2 (templates_of "python"))) = 2%nat) as ->
        by reflexivity. lia. }
    split.
    + refine (bool_decide_unpack _ _). vm_compute. exact I.
    + intros proj Hproj. apply (templates_in_all "python" (templates_of "python"));
        [left|]. by eapply elem_of_take_in.
  - split; [|split].
    + rewrite length_take. cbn [length]. lia.
    + rewrite fmap_take. eapply sublist_NoDup; [exact Hnd | apply sublist_take].
    + intros proj Hproj%elem_of_take_in. rewrite Forall_forall in Hall.
      by apply Hall.
Qed.

(** When some missing skill is related to a template key, every
    recommended project is filed under a key related to a missing skill;
    when none is (as for the empty list), the result is the first two
    python projects. *)
Theorem recommendations_relevant_or_fallback missing role :
  let recs := recommended_projects (generate_recommendations missing role) in
  ((exists skill key projects,
      skill ∈ missing /\ (key, projects) ∈ project_templates
      /\ related key (Py.lower skill) = true) ->
   forall proj, proj ∈ recs -> relevant missing proj)
  /\ ((forall skill key projects,
         skill ∈ missing -> (key, projects) ∈ project_templates ->
         related key (Py.lower skill) = false) ->
      recs = take 2 (templates_of "python")).
Proof.
  unfold generate_recommendations. cbn [recommended_projects]. split.
  - intros (skill & key & projects & Hskill & Hkey & Hrel).
    pose proof (add_skills_nonempty missing ([], ∅) skill key projects
                  acc_ok_empty Hskill Hkey Hrel (templates_nonempty _ _ Hkey))
      as Hne.
    assert (Forall (relevant missing) (add_skills missing ([], ∅)).1) as Hall.
    { apply add_skills_all; [constructor|].
      intros skill' key' projects' ? ? ?. apply Forall_forall. intros proj ?.
      by exists skill', key', projects'. }
    destruct (add_skills missing ([], ∅)).1 as [|p found]; [done|].
    intros proj Hproj%elem_of_take_in. rewrite Forall_forall in Hall.
    by apply Hall.
  - intros Hno. rewrite add_skills_unrelated by exact Hno. reflexivity.
Qed.

Lemma recommendations_relevant_or_fallback_witness :
  (forall proj,
     proj ∈ recommended_projects
              (generate_recommendations ["Docker"; "React"] "Full Stack Developer") ->
     relevant ["Docker"; "React"] proj)
  /\ recommended_projects (generate_recommendations ["SomethingRandom"] "Developer")
     = take 2 (templates_of "python").
Proof.
  split.
  - apply (recommendations_relevant_or_fallback ["Docker"; "React"]).
    exists "Docker", "docker", (templates_of "docker").
    split; [left|]. split; [|reflexivity]. do 3 right. left.
  - apply (recommendations_relevant_or_fallback ["SomethingRandom"]).
    intros skill key projects ->%list_elem_of_singleton Hkey.
    unfold project_templates in Hkey.
    repeat (apply elem_of_cons in Hkey as [[= -> ->] | Hkey]; [reflexivity|]).
    by apply elem_of_nil in Hkey.
Defined.

Lemma add_skills_lower missing a :
  add_skills (Py.lower <$> missing) a = add_skills missing a.
Proof.
  revert a. induction missing as [|skill rest IH]; intros a; [done|].
  rewrite fmap_cons. cbn [add_skills]. by rewrite lower_idem, IH.
Qed.

(** The recommendations do not depend on the letter case of the missing
    skills. *)
Theorem recommendations_ignore_case missing role :
  generate_recommendations (Py.lower <$> missing) role
  = generate_recommendations missing role.
Proof. unfold generate_recommendations. by rewrite add_skills_lower. Qed.

End RecommenderFacts.

Example test_recommendations_from_skills :
  Recommender.title
  <$> Recommender.recommended_projects
        (Recommender.generate_recommendations ["Docker"; "React"]
           "Full Stack Developer")
  = ["Microservices Orchestration"; "Interactive Dashboard"].
Proof. vm_compute. reflexivity. Qed.

(** ** Role retriever: adding roles, searching, and the snapshot *)

Section StoreFacts.

Import VectorStore.

(** The paths of a store. *)
Example paths_ex :
  Py.dirname "backend/data/faiss_index.bin" = "backend/data"
  /\ Py.dirname "backend/tests/temp_data/test_index.bin"
     = "backend/tests/temp_data"
  /\ Py.dirname "faiss_index.bin" = ""
  /\ Py.dirname "/index.bin" = "/"
  /\ Py.dirname "data//index.bin" = "data"
  /\ metadata_path "backend/data/faiss_index.bin"
     = "backend/data/faiss_index_meta.pkl"
  /\ metadata_path "a.bin/b.bin" = "a_meta.pkl/b_meta.pkl"
  /\ metadata_path "data/index" = "data/index"
  /\ Py.replace "abc" "" "-" = "-a-b-c-"
  /\ Py.replace "aaa" "aa" "b" = "ba".
Proof. repeat split; vm_compute; reflexivity. Qed.

Lemma replace_go_absent old new s i :
  Py.find_go old s i = (-1)%Z -> (0 <= i)%Z -> Py.replace_go old new 0 s = s.
Proof.
  revert i. induction s as [|c r IH]; intros i Hfind Hi; [reflexivity|].
  cbn [Py.find_go] in Hfind. cbn [Py.replace_go].
  destruct (String.prefix old (String c r)); [lia|].
  f_equal. apply (IH (i + 1)%Z); [exact Hfind | lia].
Qed.

(** A path in which [".bin"] does not occur is its own metadata path. *)
Lemma metadata_path_without_bin index_path :
  Py.contains ".bin" index_path = false ->
  metadata_path index_path = index_path.
Proof.
  unfold Py.contains, Py.find, metadata_path, Py.replace. intros H.
  apply negb_false_iff, Z.eqb_eq in H.
  assert ((Py.len index_path <? 0)%Z = false) as E
    by (apply Z.ltb_ge; unfold Py.len; lia).
  change (0 <? 0)%Z with false in H. cbv iota in H. rewrite E in H.
  apply (replace_go_absent _ _ _ 0%Z); [exact H | lia].
Qed.

Lemma dirname_empty : Py.dirname "" = "".
Proof. reflexivity. Qed.

Lemma replace_nonempty s old new :
  new <> "" -> s <> "" -> Py.replace s old new <> "".
Proof.
  intros Hnew Hs. destruct new as [|n new]; [done|].
  destruct s as [|c r]; [done|].
  destruct old as [|o old]; [done|].
  unfold Py.replace. cbn [Py.replace_go].
  destruct (String.prefix (String o old) (String c r)); done.
Qed.

(** [add_roles] on a store whose model attribute is set keeps the index
    and the metadata in lock-step, however the call ends.  With the
    libraries and a loaded model the new roles go to the end of the
    metadata, in order, and the index receives the embedding of each
    role's text at the same places (an absent index starts empty, with
    empty metadata); the call then returns exactly when [os.makedirs]
    makes the directory of [index_path], which it does not for a path
    without a directory part, and when it raises no file is touched.  A
    failed write does not make the call raise.  Without the libraries or
    without a model the call returns and leaves the store and the files as
    they are. *)
Theorem add_roles_keeps_lock_step avail encode index_path makedirs_ok
  write_index_result pickle_dump_result st fs roles :
  lock_step st ->
  model st <> ModelUnset ->
  exists r st' fs',
    add_roles avail encode index_path makedirs_ok write_index_result
      pickle_dump_result st fs roles = (r, st', fs')
    /\ lock_step st'
    /\ (avail = true -> model st = ModelLoaded ->
        index st'
        = Some (default [] (index st) ++ ((fun r => encode (role_text r)) <$> roles))
        /\ roles_metadata st'
           = (match index st with Some _ => roles_metadata st | None => [] end)
             ++ roles
        /\ (r = Ok tt <-> Py.dirname index_path <> "" /\ makedirs_ok = true)
        /\ (r <> Ok tt -> fs' = fs))
    /\ (avail = false \/ model st = ModelNone -> r = Ok tt /\ st' = st /\ fs' = fs).
Proof.
  intros Hlock Hmodel. unfold add_roles.
  destruct avail.
  2:{ exists (Ok tt), st, fs. repeat split; try done. }
  destruct (model st) eqn:Em; [done | |].
  { exists (Ok tt), st, fs. repeat split; try done. }
  set (embeddings := map (fun r => encode (role_text r)) roles).
  assert (exists ix metadata,
            match index st with
            | Some ix => (ix, roles_metadata st)
            | None => ([], [])
            end = (ix, metadata)
            /\ length ix = length metadata
            /\ ix = default [] (index st)
            /\ metadata = match index st with
                          | Some _ => roles_metadata st
                          | None => []
                          end) as (ix & metadata & -> & Hlen & -> & ->).
  { unfold lock_step in Hlock.
    destruct (index st) as [ix|];
      [exists ix, (roles_metadata st) | exists [], []]; repeat split; done. }
  unfold save_index, makedirs. cbn [index roles_metadata].
  assert (lock_step
            (Store ModelLoaded (Some (default [] (index st) ++ embeddings))
               (match index st with
                | Some _ => roles_metadata st
                | None => []
                end ++ roles))) as Hlock'.
  { unfold lock_step. cbn [index roles_metadata]. unfold embeddings.
    rewrite !length_app, length_map. lia. }
  destruct (Py.dirname index_path) as [|c d] eqn:Ed; cbn [Py.truthy negb].
  { eexists _, _, _. split; [reflexivity|]. split; [exact Hlock'|].
    split; [|intros [? | ?]; done].
    intros _ _. split; [reflexivity|]. split; [reflexivity|].
    split; [|done]. split; [done | intros [? _]; done]. }
  destruct makedirs_ok.
  2:{ eexists _, _, _. split; [reflexivity|]. split; [exact Hlock'|].
      split; [|intros [? | ?]; done].
      intros _ _. split; [reflexivity|]. split; [reflexivity|].
      split; [|done]. split; [done | intros [_ ?]; done]. }
  destruct write_index_result; cbn [write];
    (eexists _, _, _; split; [reflexivity|]; split; [exact Hlock'|];
     split; [|intros [? | ?]; done];
     intros _ _; split; [reflexivity|]; split; [reflexivity|];
     split; [|done]; split; done).
Qed.

Lemma add_roles_keeps_lock_step_witness :
  exists r st' fs',
    add_roles true (fun text => [inject_Z (Py.len text)])
      "backend/data/faiss_index.bin" true Written Written
      (fresh true) ∅
      [Role "DevOps Engineer" (Some "Infra as code.") (Some ["Docker"; "AWS"])]
    = (r, st', fs')
    /\ lock_step st'
    /\ (true = true -> model (fresh true) = ModelLoaded ->
        index st'
        = Some (default [] (index (fresh true))
                ++ ((fun r => [inject_Z (Py.len (role_text r))])
                      <$> [Role "DevOps Engineer" (Some "Infra as code.")
                                (Some ["Docker"; "AWS"])]))
        /\ roles_metadata st'
           = (match index (fresh true) with
              | Some _ => roles_metadata (fresh true)
              | None => []
              end)
             ++ [Role "DevOps Engineer" (Some "Infra as code.") (Some ["Docker"; "AWS"])]
        /\ (r = Ok tt
            <-> Py.dirname "backend/data/faiss_index.bin" <> "" /\ true = true)
        /\ (r <> Ok tt -> fs' = ∅))
    /\ (true = false \/ model (fresh true) = ModelNone
        -> r = Ok tt /\ st' = fresh true /\ fs' = ∅).
Proof.
  apply (add_roles_keeps_lock_step true (fun text => [inject_Z (Py.len text)])
           "backend/data/faiss_index.bin" true Written Written (fresh true) ∅).
  - reflexivity.
  - discriminate.
Defined.

(** The default call with a path that has no directory part: the role is
    stored in memory, [os.makedirs("")] raises and nothing is written. *)
Example add_roles_without_directory :
  add_roles true (fun text => [inject_Z (Py.len text)]) "faiss_index.bin" true
    Written Written (fresh true) ∅ [Role "DevOps Engineer" None None]
  = (Raise FileNotFoundError,
     Store ModelLoaded (Some [[17%Q]]) [Role "DevOps Engineer" None None], ∅).
Proof. vm_compute. reflexivity. Qed.

Lemma collect_stored metadata hits :
  (forall hit, hit ∈ hits -> (-1 <= hit.2)%Z) ->
  exists results,
    collect metadata hits = Ok results
    /\ (length results <= length hits)%nat
    /\ forall r, r ∈ results ->
         exists idx, (similarity_score r, idx) ∈ hits
                     /\ (0 <= idx)%Z
                     /\ metadata !! Z.to_nat idx = Some (found r).
Proof.
  induction hits as [|[distance idx] hits IH]; intros Hge; simpl.
  { exists []. split; [done|]. split; [done|]. intros r []%elem_of_nil. }
  destruct IH as (results & Hres & Hlen & Hin).
  { intros hit Hhit. apply Hge. by right. }
  assert (-1 <= idx)%Z as Hidx by (apply (Hge (distance, idx)); left).
  destruct (negb (idx =? -1)%Z && (idx <? Z.of_nat (length metadata))%Z) eqn:E.
  - apply andb_true_iff in E as [Hne Hlt].
    apply negb_true_iff, Z.eqb_neq in Hne. apply Z.ltb_lt in Hlt.
    unfold py_item.
    assert ((idx <? 0)%Z = false) as -> by (apply Z.ltb_ge; lia).
    assert ((idx <? 0)%Z = false) as -> by (apply Z.ltb_ge; lia).
    destruct (lookup_lt_is_Some_2 metadata (Z.to_nat idx)) as [r Hr]; [lia|].
    rewrite Hr. simpl. rewrite Hres. simpl.
    eexists. split; [reflexivity|]. split; [simpl; lia|].
    intros r' [-> | Hr']%elem_of_cons.
    + exists idx. simpl. split; [left|]. split; [lia | done].
    + destruct (Hin r' Hr') as (idx' & ? & ? & ?).
      exists idx'. split; [by right | done].
  - rewrite Hres. eexists. split; [reflexivity|]. split; [lia|].
    intros r' Hr'. destruct (Hin r' Hr') as (idx' & ? & ? & ?).
    exists idx'. split; [by right | done].
Qed.

(** [search_similar_roles] with a loaded model, when faiss answers with
    offsets that are [-1] or not negative: the search returns; it gives at
    most one role per hit, and every role it gives is the stored role at
    the offset of a hit, with that hit's distance.  A hit whose offset is
    beyond the metadata is passed over. *)
Theorem search_returns_stored_roles avail encode faiss_search st query k :
  model st = ModelLoaded ->
  (forall ix hit, hit ∈ faiss_search ix (encode query) k -> (-1 <= hit.2)%Z) ->
  exists results,
    search_similar_roles avail encode faiss_search st query k = Ok results
    /\ (length results
        <= length (faiss_search (default [] (index st)) (encode query) k))%nat
    /\ forall r, r ∈ results ->
         exists idx,
           (similarity_score r, idx)
             ∈ faiss_search (default [] (index st)) (encode query) k
           /\ (0 <= idx)%Z
           /\ roles_metadata st !! Z.to_nat idx = Some (found r).
Proof.
  intros Hmodel Hge. unfold search_similar_roles.
  assert (exists results : list scored_role,
            Ok [] = Ok results
            /\ (length results
                <= length (faiss_search (default [] (index st)) (encode query) k))%nat
            /\ forall r, r ∈ results ->
                 exists idx,
                   (similarity_score r, idx)
                     ∈ faiss_search (default [] (index st)) (encode query) k
                   /\ (0 <= idx)%Z
                   /\ roles_metadata st !! Z.to_nat idx = Some (found r))
    as Hempty.
  { exists []. split; [done|]. split; [simpl; lia|]. intros r []%elem_of_nil. }
  destruct avail; [|exact Hempty].
  destruct (index st) as [ix|]; [|exact Hempty].
  destruct (ntotal ix =? 0)%Z; [exact Hempty|].
  rewrite Hmodel. simpl. apply collect_stored. apply Hge.
Qed.

Lemma search_returns_stored_roles_witness :
  exists results,
    search_similar_roles true (fun _ => [1%Q])
      (fun ix _ k => [(0%Q, 1%Z); (2%Q, 7%Z); (3%Q, (-1)%Z)])
      (Store ModelLoaded (Some [[0%Q]; [1%Q]])
         [Role "Frontend Engineer" None None; Role "Data Scientist" None None])
      "statistics" 3
    = Ok results
    /\ (length results
        <= length [(0%Q, 1%Z); (2%Q, 7%Z); (3%Q, (-1)%Z)])%nat
    /\ forall r, r ∈ results ->
         exists idx,
           (similarity_score r, idx) ∈ [(0%Q, 1%Z); (2%Q, 7%Z); (3%Q, (-1)%Z)]
           /\ (0 <= idx)%Z
           /\ [Role "Frontend Engineer" None None; Role "Data Scientist" None None]
                !! Z.to_nat idx
              = Some (found r).
Proof.
  apply (search_returns_stored_roles true (fun _ => [1%Q])
           (fun ix _ k => [(0%Q, 1%Z); (2%Q, 7%Z); (3%Q, (-1)%Z)])
           (Store ModelLoaded (Some [[0%Q]; [1%Q]])
              [Role "Frontend Engineer" None None; Role "Data Scientist" None None])
           "statistics" 3).
  - reflexivity.
  - intros ix hit Hhit.
    repeat (apply elem_of_cons in Hhit as [-> | Hhit]; [simpl; lia|]).
    by apply elem_of_nil in Hhit.
Defined.

(** The snapshot round trip.  On a store with a loaded model, when
    [index_path] has a directory part that [os.makedirs] makes and both
    writes go through, [add_roles] returns, having written the index at
    [index_path] and then the metadata at [metadata_path].  A store
    initialised over these files with the same [index_path] holds the same
    index and the same metadata, provided the two paths differ.  When they
    are the same path, as for an [index_path] without [".bin"], the
    metadata has overwritten the index and the new store starts empty. *)
Theorem snapshot_round_trip encode index_path st fs roles :
  model st = ModelLoaded ->
  Py.dirname index_path <> "" ->
  exists st' fs',
    add_roles true encode index_path true Written Written st fs roles
    = (Ok tt, st', fs')
    /\ fs' = <[metadata_path index_path := PickleFile (roles_metadata st')]>
               (<[index_path := IndexFile (default [] (index st'))]> fs)
    /\ roles_metadata st'
       = (match index st with Some _ => roles_metadata st | None => [] end)
         ++ roles
    /\ (metadata_path index_path <> index_path ->
        init true true index_path fs' = st')
    /\ (metadata_path index_path = index_path ->
        init true true index_path fs' = Store ModelLoaded (Some []) []).
Proof.
  intros Hmodel Hdir. unfold add_roles. rewrite Hmodel.
  set (embeddings := map (fun r => encode (role_text r)) roles).
  assert (exists ix metadata,
            match index st with
            | Some ix => (ix, roles_metadata st)
            | None => ([], [])
            end = (ix, metadata)
            /\ metadata = match index st with
                          | Some _ => roles_metadata st
                          | None => []
                          end) as (ix & metadata & -> & Hmeta).
  { destruct (index st) as [ix|];
      [exists ix, (roles_metadata st) | exists [], []]; split; done. }
  unfold save_index, makedirs. cbn [index roles_metadata].
  destruct (Py.dirname index_path) as [|c d] eqn:Ed; [done|].
  cbn [Py.truthy negb write snd].
  assert (index_path <> "") as Hip.
  { intros ->. by rewrite dirname_empty in Ed. }
  assert (metadata_path index_path <> "") as Hmp
    by (by apply replace_nonempty).
  assert (Py.truthy index_path = true) as Tip by (by destruct index_path).
  assert (Py.truthy (metadata_path index_path) = true) as Tmp
    by (by destruct (metadata_path index_path)).
  eexists _, _. split; [reflexivity|]. cbn [index roles_metadata default].
  split; [reflexivity|]. split; [by rewrite Hmeta|].
  unfold init, _load_index, path_exists, read_index, pickle_load.
  rewrite Tip, Tmp. cbn [andb]. split.
  - intros Hne. rewrite lookup_insert_ne by done.
    rewrite !lookup_insert_eq.
    rewrite !bool_decide_eq_true_2 by eauto. reflexivity.
  - intros Heq. rewrite Heq. rewrite !lookup_insert_eq.
    rewrite !bool_decide_eq_true_2 by eauto. reflexivity.
Qed.

Lemma snapshot_round_trip_witness :
  exists st' fs',
    add_roles true (fun text => [inject_Z (Py.len text)])
      "backend/tests/temp_data/test_index.bin" true Written Written
      (fresh true) ∅
      [Role "DevOps Engineer" None None; Role "Data Scientist" None None]
    = (Ok tt, st', fs')
    /\ fs' = <[metadata_path "backend/tests/temp_data/test_index.bin"
               := PickleFile (roles_metadata st')]>
               (<["backend/tests/temp_data/test_index.bin"
                  := IndexFile (default [] (index st'))]> ∅)
    /\ roles_metadata st'
       = (match index (fresh true) with
          | Some _ => roles_metadata (fresh true)
          | None => []
          end)
         ++ [Role "DevOps Engineer" None None; Role "Data Scientist" None None]
    /\ (metadata_path "backend/tests/temp_data/test_index.bin"
        <> "backend/tests/temp_data/test_index.bin" ->
        init true true "backend/tests/temp_data/test_index.bin" fs' = st')
    /\ (metadata_path "backend/tests/temp_data/test_index.bin"
        = "backend/tests/temp_data/test_index.bin" ->
        init true true "backend/tests/temp_data/test_index.bin" fs'
        = Store ModelLoaded (Some []) []).
Proof.
  apply (snapshot_round_trip (fun text => [inject_Z (Py.len text)])
           "backend/tests/temp_data/test_index.bin" (fresh true) ∅).
  - reflexivity.
  - vm_compute. discriminate.
Defined.

(** A store saved at a path without [".bin"] comes back empty. *)
Example snapshot_lost_without_bin :
  let encode := fun text => [inject_Z (Py.len text)] in
  let roles := [Role "DevOps Engineer" None None] in
  let '(r, st', fs') :=
    add_roles true encode "data/roles" true Written Written (fresh true) ∅
      roles in
  r = Ok tt
  /\ roles_metadata st' = roles
  /\ fs' !! "data/roles" = Some (PickleFile roles)
  /\ init true true "data/roles" fs' = Store ModelLoaded (Some []) [].
Proof. vm_compute. repeat split; reflexivity. Qed.

(** Start-up without a usable snapshot: unless [index_path] holds an
    index and [metadata_path] a list of roles, a store with a loaded model
    starts from an empty index and empty metadata, whatever the files
    hold; without the libraries or without a model there is no index at
    all.  Start-up never raises. *)
Theorem init_without_snapshot avail model_loads index_path fs :
  (forall ix metadata,
     fs !! index_path = Some (IndexFile ix) ->
     fs !! metadata_path index_path = Some (PickleFile metadata) -> False) ->
  init avail model_loads index_path fs
  = if avail then
      if model_loads then Store ModelLoaded (Some []) []
      else Store ModelNone None []
    else Store ModelUnset None [].
Proof.
  intros Hbad. unfold init, _load_index, read_index, pickle_load.
  destruct avail; [|done]. destruct model_loads; [|done].
  destruct (path_exists fs index_path && path_exists fs (metadata_path index_path));
    [|reflexivity].
  destruct (fs !! index_path) as [[ix| |]|] eqn:Ei; try reflexivity.
  destruct (fs !! metadata_path index_path) as [[| |]|] eqn:Em; try reflexivity.
  destruct (Hbad ix metadata); reflexivity.
Qed.

Lemma init_without_snapshot_witness :
  init true true "data/index.bin" (<["data/index.bin" := IndexFile [[1%Q]]]> ∅)
  = Store ModelLoaded (Some []) [].
Proof.
  apply (init_without_snapshot true true "data/index.bin"
           (<["data/index.bin" := IndexFile [[1%Q]]]> ∅)).
  intros ix metadata _ H. vm_compute in H. discriminate H.
Defined.

End StoreFacts.

(** ** Skill-gap matcher: further properties *)

Section AnalyzerMore.

Import SkillGap.

Lemma truthy_lower s : Py.truthy (Py.lower s) = Py.truthy s.
Proof. by destruct s. Qed.

Lemma normalize_all_nonblank l x :
  x ∈ normalize_all l -> Py.truthy (Py.strip x) = true.
Proof.
  unfold normalize_all. intros (s & -> & Hs)%list_elem_of_fmap.
  apply list_elem_of_filter in Hs as [Hs _]. unfold normalize.
  rewrite strip_idem, <- lower_strip, truthy_lower. by apply Is_true_true.
Qed.

Lemma normalize_all_idem l : normalize_all (normalize_all l) = normalize_all l.
Proof.
  assert (forall k : list string,
            Forall (fun x => Py.truthy (Py.strip x) = true /\ normalize x = x) k ->
            normalize_all k = k) as Hfix.
  { induction 1 as [|x k [Ht Hn] _ IH]; [done|].
    unfold normalize_all in *. rewrite filter_cons_True by by apply Is_true_true.
    cbn [map]. by rewrite Hn, IH. }
  apply Hfix, Forall_forall. intros x Hx. split.
  - by eapply normalize_all_nonblank.
  - by eapply normalize_all_fixed.
Qed.

Lemma fallback_loop_nil reqs b :
  fallback_loop [] reqs b = Buckets (strong b) (weak b) (missing b ++ reqs).
Proof.
  revert b. induction reqs as [|q reqs IH]; intros b; simpl.
  - rewrite app_nil_r. by destruct b.
  - rewrite IH. unfold classify_fallback.
    rewrite bool_decide_eq_false_2 by apply not_elem_of_nil. simpl.
    by rewrite <- app_assoc.
Qed.

(** A resume list that is not empty but holds only blank entries: every
    normalized required skill is missing, the percentage is 0, and the
    similarity engine is not called even when scikit-learn is available. *)
Theorem blank_resume_all_missing avail engine resume required :
  resume <> [] ->
  normalize_all resume = [] ->
  exists r,
    analyze avail engine resume required = (Ok r, [])
    /\ strong_matches r = []
    /\ weak_matches r = []
    /\ missing_skills r = normalize_all required
    /\ (match_percentage r == 0)%Q.
Proof.
  intros Hne Hblank. unfold analyze, analyze_m.
  destruct resume as [|s0 resume]; [done|]. rewrite Hblank.
  unfold semantic_path. rewrite andb_false_r. simpl.
  unfold bind, ret. rewrite fallback_loop_nil. simpl.
  eexists. split; [reflexivity|]. simpl. repeat split.
  unfold percentage. simpl. destruct (0 <? _)%nat.
  - rewrite (round_comp _ 0 2); [apply round_zero|].
    unfold Num.mul. apply b64_zero.
    set (d := Num.of_int _).
    assert (Num.b64 (Num.add (fcount (@nil string))
                       (Num.b64 (fcount (@nil string) * (5 # 10))) / d) == 0)%Q
      as Hz.
    { apply b64_zero.
      change (Num.add (fcount (@nil string))
                (Num.b64 (fcount (@nil string) * (5 # 10)))) with 0%Q.
      unfold Qdiv. ring. }
    rewrite Hz. ring.
  - apply round_zero.
Qed.

Lemma blank_resume_all_missing_witness :
  exists r,
    analyze true toy_engine ["  "; ""] ["Python"; " Docker "] = (Ok r, [])
    /\ strong_matches r = []
    /\ weak_matches r = []
    /\ missing_skills r = normalize_all ["Python"; " Docker "]
    /\ (match_percentage r == 0)%Q.
Proof.
  apply (blank_resume_all_missing true toy_engine ["  "; ""]).
  - discriminate.
  - reflexivity.
Defined.

Lemma classify_semantic_log engine rs q b log :
  (classify_semantic engine rs q b log).2 = log ++ [(q, rs)].
Proof.
  unfold classify_semantic, bind, _calculate_similarities, ret, raise.
  repeat (match goal with
          | |- context [if ?c then _ else _] => destruct c
          | |- context [match ?o with Some _ => _ | None => _ end] =>
              lazymatch o with
              | Num.index _ _ => destruct o
              | _ !! _ => destruct o
              end
          end); reflexivity.
Qed.

Lemma semantic_loop_log engine rs reqs b log b' log' :
  semantic_loop engine rs reqs b log = (Ok b', log') ->
  log' = log ++ ((fun q => (q, rs)) <$> reqs).
Proof.
  revert b log. induction reqs as [|q reqs IH]; intros b log; simpl.
  - intros [= _ <-]. by rewrite app_nil_r.
  - unfold bind. pose proof (classify_semantic_log engine rs q b log) as Hlog.
    destruct (classify_semantic engine rs q b log) as [[b1|e] log1]; [|done].
    simpl in Hlog. subst log1. intros H%IH. by rewrite H, <- app_assoc.
Qed.

(** The calls to the similarity engine: on the similarity path (the
    library available, both normalized lists non-empty) there is one call
    per normalized required skill, in order, each against the whole
    normalized resume list; otherwise there is none. *)
Theorem engine_called_once_per_required_skill avail engine resume required :
  (avail = true -> engine_lengths engine) ->
  resume <> [] ->
  exists r log,
    analyze avail engine resume required = (Ok r, log)
    /\ log
       = if avail && bool_decide (normalize_all resume <> [])
            && bool_decide (normalize_all required <> [])
         then (fun q => (q, normalize_all resume)) <$> normalize_all required
         else [].
Proof.
  intros Hlen Hne. unfold analyze, analyze_m.
  destruct resume as [|s0 resume]; [done|].
  set (rs := normalize_all (s0 :: resume)). set (reqs := normalize_all required).
  assert (semantic_path avail rs reqs
          = avail && bool_decide (rs <> []) && bool_decide (reqs <> [])) as Hpath.
  { unfold semantic_path. destruct rs, reqs, avail; reflexivity. }
  rewrite <- Hpath. unfold bind. destruct (semantic_path avail rs reqs) eqn:E.
  - assert (avail = true) as Havail by (by destruct avail).
    destruct (semantic_loop_placed engine rs reqs (Buckets [] [] []) []
                (Hlen Havail)) as (b & log & Hrun & _).
    rewrite Hrun. eexists _, log. split; [reflexivity|].
    by apply semantic_loop_log in Hrun.
  - eexists _, []. split; reflexivity.
Qed.

Lemma engine_called_once_per_required_skill_witness :
  exists r log,
    analyze true toy_engine ["React.js"; "Python"] ["React"; " "; "Docker"]
    = (Ok r, log)
    /\ log
       = if true && bool_decide (normalize_all ["React.js"; "Python"] <> [])
            && bool_decide (normalize_all ["React"; " "; "Docker"] <> [])
         then (fun q => (q, normalize_all ["React.js"; "Python"]))
                <$> normalize_all ["React"; " "; "Docker"]
         else [].
Proof.
  apply (engine_called_once_per_required_skill true toy_engine).
  - intros _. apply toy_engine_lengths.
  - discriminate.
Defined.

(** The result depends on the two lists only through their normalized
    forms: the letter case, the surrounding white space and the blank
    entries of the inputs make no difference, as long as the resume list
    keeps an entry that is not blank. *)
Theorem analyze_depends_on_normal_forms avail engine resume required :
  normalize_all resume <> [] ->
  analyze avail engine resume required
  = analyze avail engine (normalize_all resume) (normalize_all required).
Proof.
  intros Hne. unfold analyze, analyze_m.
  destruct resume as [|s0 resume]; [done|].
  destruct (normalize_all (s0 :: resume)) as [|x rs] eqn:E; [done|].
  rewrite <- E, !normalize_all_idem. reflexivity.
Qed.

Lemma analyze_depends_on_normal_forms_witness :
  analyze false toy_engine [" React.JS"; ""; "PYTHON "] ["python"; "  "; "React"]
  = analyze false toy_engine (normalize_all [" React.JS"; ""; "PYTHON "])
            (normalize_all ["python"; "  "; "React"]).
Proof.
  apply (analyze_depends_on_normal_forms false toy_engine).
  discriminate.
Defined.

Lemma placed_all_sublists rs reqs b b' :
  placed_all rs reqs b b' ->
  exists s w m,
    strong b' = strong b ++ s
    /\ skill <$> weak b' = (skill <$> weak b) ++ w
    /\ missing b' = missing b ++ m
    /\ s `sublist_of` reqs /\ w `sublist_of` reqs /\ m `sublist_of` reqs.
Proof.
  induction 1 as [b | q reqs b b1 b2 Hq _ IH].
  - exists [], [], []. rewrite !app_nil_r. done.
  - destruct IH as (s & w & m & Hs & Hw & Hm & Hss & Hsw & Hsm).
    destruct Hq as [-> | res sim _ -> | ->]; simpl in *.
    + exists (q :: s), w, m. rewrite Hs, Hw, Hm, <- app_assoc.
      repeat split; try done; by constructor.
    + exists s, (q :: w), m. rewrite Hs, Hw, Hm, fmap_app, <- app_assoc.
      repeat split; try done; by constructor.
    + exists s, w, (q :: m). rewrite Hs, Hw, Hm, <- app_assoc.
      repeat split; try done; by constructor.
Qed.

(** Each of the three result lists keeps the order of the required
    list, whenever the similarity engine gives one similarity per resume
    skill: the strong matches and the skills of the weak matches are each
    obtained from the normalized required list by leaving entries out, and
    so are the missing skills when the resume list is not empty.  For an
    empty resume list the missing skills are the required list as it was
    given, not normalized. *)
Theorem result_lists_keep_order avail engine resume required :
  (avail = true -> engine_lengths engine) ->
  exists r log,
    analyze avail engine resume required = (Ok r, log)
    /\ strong_matches r `sublist_of` normalize_all required
    /\ (skill <$> weak_matches r) `sublist_of` normalize_all required
    /\ match resume with
       | [] => missing_skills r = required
       | _ :: _ => missing_skills r `sublist_of` normalize_all required
       end.
Proof.
  intros Hlen. destruct resume as [|s0 resume].
  { eexists _, _. split; [reflexivity|]. simpl.
    split; [apply sublist_nil_l|]. split; [apply sublist_nil_l | reflexivity]. }
  destruct (analyze_run avail engine (s0 :: resume) required Hlen)
    as (b & log & Hrun & Hb & _); [done|].
  eexists _, log. split; [exact Hrun|]. simpl.
  destruct (placed_all_sublists _ _ _ _ Hb) as (s & w & m & -> & -> & -> & ?).
  done.
Qed.

Lemma result_lists_keep_order_witness :
  exists r log,
    analyze true toy_engine ["React.js"; "Python"] ["Docker"; "React"; "python"; "Git"]
    = (Ok r, log)
    /\ strong_matches r `sublist_of` normalize_all ["Docker"; "React"; "python"; "Git"]
    /\ (skill <$> weak_matches r)
         `sublist_of` normalize_all ["Docker"; "React"; "python"; "Git"]
    /\ missing_skills r `sublist_of` normalize_all ["Docker"; "React"; "python"; "Git"].
Proof.
  apply (result_lists_keep_order true toy_engine ["React.js"; "Python"]).
  intros _. apply toy_engine_lengths.
Defined.

Lemma fallback_loop_weak rs reqs b w :
  w ∈ weak (fallback_loop rs reqs b) -> w ∈ weak b \/ skill w ∉ rs.
Proof.
  revert b. induction reqs as [|q reqs IH]; intros b; simpl; [by left|].
  intros [H | H]%IH; [|by right]. revert H.
  unfold classify_fallback. case_bool_decide as Hq; simpl; [by left|].
  destruct (first_substring rs q) eqn:E; simpl; [|by left].
  intros [? | ->%list_elem_of_singleton]%elem_of_app; [by left | by right].
Qed.

(** Fallback mode: a required skill that is not blank and equals a resume
    skill up to letter case and surrounding white space is a strong match,
    and it is neither a weak match nor missing.  (A blank required skill
    is dropped: it is in none of the three lists.) *)
Theorem fallback_equal_is_strong engine resume required s q :
  s ∈ resume -> q ∈ required ->
  Py.strip q <> "" ->
  normalize q = normalize s ->
  exists r,
    analyze false engine resume required = (Ok r, [])
    /\ normalize q ∈ strong_matches r
    /\ (normalize q ∉ skill <$> weak_matches r)
    /\ normalize q ∉ missing_skills r.
Proof.
  intros Hs Hq Hq_nonblank Heq.
  assert (resume <> []) as Hne by (intros ->; by apply elem_of_nil in Hs).
  assert (normalize q ∈ normalize_all required) as Hq_in.
  { unfold normalize_all. apply list_elem_of_fmap. exists q. split; [done|].
    apply list_elem_of_filter. split; [|done].
    destruct (Py.strip q); [done | exact I]. }
  assert (normalize q ∈ normalize_all resume) as Hs_in.
  { rewrite Heq. unfold normalize_all. apply list_elem_of_fmap. exists s.
    split; [done|]. apply list_elem_of_filter. split; [|done].
    assert (Py.strip (Py.lower q) = Py.strip (Py.lower s)) as H by exact Heq.
    rewrite <- !lower_strip in H.
    destruct (Py.strip s); [|exact I].
    destruct (Py.strip q); [done | discriminate H]. }
  destruct (analyze_run false engine resume required) as (b & log & Hrun & Hb & Hfb);
    [discriminate | exact Hne |].
  destruct Hfb as [Hloop ->]; [reflexivity|].
  eexists. split; [exact Hrun|]. simpl.
  assert (normalize q ∉ missing b) as Hmiss.
  { rewrite Hloop. intros [[]%elem_of_nil | [Hn _]]%fallback_loop_missing.
    by apply Hn. }
  assert (normalize q ∉ skill <$> weak b) as Hweak.
  { intros (w & Hw & Hin)%list_elem_of_fmap. rewrite Hloop in Hin.
    apply fallback_loop_weak in Hin as [[]%elem_of_nil | Hn].
    apply Hn. by rewrite <- Hw. }
  split; [|done].
  assert (normalize q ∈ classified b) as Hin.
  { rewrite (placed_all_classified _ _ _ _ Hb). simpl. exact Hq_in. }
  unfold classified in Hin.
  apply elem_of_app in Hin as [? | Hin]; [done|].
  apply elem_of_app in Hin as [? | ?]; done.
Qed.

Lemma fallback_equal_is_strong_witness :
  exists r,
    analyze false toy_engine ["Python"; "JavaScript"; "React"]
            [" PYTHON "; "React"; "Docker"]
    = (Ok r, [])
    /\ normalize " PYTHON " ∈ strong_matches r
    /\ (normalize " PYTHON " ∉ skill <$> weak_matches r)
    /\ normalize " PYTHON " ∉ missing_skills r.
Proof.
  apply (fallback_equal_is_strong toy_engine
           ["Python"; "JavaScript"; "React"] [" PYTHON "; "React"; "Docker"]
           "Python" " PYTHON ").
  - left.
  - left.
  - discriminate.
  - reflexivity.
Defined.

End AnalyzerMore.

(** ** Keyword extraction *)

Section KeywordFacts.

Lemma scan_match r text pos next rest se :
  se ∈ Re.scan r text pos next rest -> Re.match_at r text se.1 = Some se.2.
Proof.
  revert pos next. induction rest as [|c rest IH]; intros pos next; simpl.
  - destruct (pos <? next)%nat; [by intros []%elem_of_nil|].
    destruct (Re.match_at r text pos) eqn:E; [|by intros []%elem_of_nil].
    by intros [-> | []%elem_of_nil]%elem_of_cons.
  - destruct (pos <? next)%nat; [by apply IH|].
    destruct (Re.match_at r text pos) eqn:E; [|by apply IH].
    intros [-> | H]%elem_of_cons; [done | by eapply IH].
Qed.

Lemma give_back_spec k p lo n e :
  Re.give_back k p lo n = Some e ->
  exists m, (lo <= m <= n)%nat /\ k (p + m)%nat = Some e.
Proof.
  induction n as [|n IH]; simpl.
  - destruct (0 <? lo)%nat eqn:E; [done|]. apply Nat.ltb_ge in E.
    destruct (k (p + 0)%nat) eqn:Ek; [|done]. intros [= ->]. exists O. split; [lia | done].
  - destruct (S n <? lo)%nat eqn:E; [done|]. apply Nat.ltb_ge in E.
    destruct (k (p + S n)%nat) eqn:Ek.
    + intros [= ->]. exists (S n). split; [lia | done].
    + intros (m & Hm & Hk)%IH. exists m. split; [lia | done].
Qed.

Lemma word3_match text s e :
  Re.match_at Re.word3 text s = Some e ->
  exists m, (3 <= m <= Re.word_run (Py.drop s text))%nat /\ e = (s + m)%nat.
Proof.
  unfold Re.word3. cbn [Re.match_at].
  destruct (Re.boundary text s); [|done].
  intros (m & Hm & Hk)%give_back_spec. exists m. split; [done|].
  destruct (Re.boundary text (s + m)); by inversion Hk.
Qed.

Lemma word_run_le_length u : (Re.word_run u <= String.length u)%nat.
Proof.
  induction u as [|c u IH]; simpl; [lia|]. destruct (Py.isword c); lia.
Qed.

Lemma length_drop n s : String.length (Py.drop n s) = (String.length s - n)%nat.
Proof.
  revert s. induction n as [|n IH]; intros s; simpl; [lia|].
  destruct s as [|c s]; simpl; [done | apply IH].
Qed.

Lemma take_drop n s : Py.take n s +:+ Py.drop n s = s.
Proof.
  revert s. induction n as [|n IH]; intros s; [by destruct s|].
  destruct s as [|c s]; [done|]. simpl. rewrite append_cons. by rewrite IH.
Qed.

Lemma slice_take_drop text s m :
  (s + m <= String.length text)%nat ->
  Py.slice text (Z.of_nat s) (Z.of_nat (s + m)) = Py.take m (Py.drop s text).
Proof.
  intros Hle. unfold Py.slice, Py.clamp, Py.len.
  assert ((Z.of_nat s <? 0)%Z = false) as -> by (apply Z.ltb_ge; lia).
  assert ((Z.of_nat (s + m) <? 0)%Z = false) as -> by (apply Z.ltb_ge; lia).
  replace (Z.to_nat (Z.min (Z.max (Z.of_nat s) 0) (Z.of_nat (String.length text))))
    with s by lia.
  replace (Z.to_nat (Z.min (Z.max (Z.of_nat (s + m)) 0)
                           (Z.of_nat (String.length text))))
    with (s + m)%nat by lia.
  by replace (s + m - s)%nat with m by lia.
Qed.

Lemma take_word_run u m :
  (m <= Re.word_run u)%nat ->
  String.length (Py.take m u) = m /\ Re.word_run (Py.take m u) = m.
Proof.
  revert u. induction m as [|m IH]; intros u Hm; [by destruct u|].
  destruct u as [|c u]; simpl in *; [lia|].
  destruct (Py.isword c) eqn:E; [|lia].
  destruct (IH u) as [H1 H2]; [lia|]. rewrite H1, H2. done.
Qed.

Lemma lower_take n s : Py.lower (Py.take n s) = Py.take n (Py.lower s).
Proof.
  revert s. induction n as [|n IH]; intros s; [by destruct s|].
  destruct s as [|c s]; simpl; [done | by rewrite IH].
Qed.

Lemma lower_drop n s : Py.lower (Py.drop n s) = Py.drop n (Py.lower s).
Proof.
  revert s. induction n as [|n IH]; intros s; [done|].
  destruct s as [|c s]; simpl; [done | by rewrite IH].
Qed.

Lemma append_assoc a b c : (a +:+ b) +:+ c = a +:+ (b +:+ c).
Proof.
  induction a as [|x a IH]; [done|]. rewrite !append_cons. by rewrite IH.
Qed.

(** What [re.findall] returns for the keyword pattern: words of the
    text, of three characters or more. *)
Lemma findall_word3 text w :
  w ∈ Re.findall Re.word3 text ->
  exists s m,
    (3 <= m)%nat /\ (s + m <= String.length text)%nat
    /\ w = Py.take m (Py.drop s text)
    /\ (m <= Re.word_run (Py.drop s text))%nat.
Proof.
  unfold Re.findall, Re.finditer.
  intros H. apply list_elem_of_fmap in H as ([a b] & -> & H).
  apply list_elem_of_fmap in H as ([s e] & Heq & Hse).
  simpl in Heq. injection Heq as -> ->.
  apply scan_match in Hse. simpl in Hse.
  apply word3_match in Hse as (m & Hm & ->). simpl.
  pose proof (word_run_le_length (Py.drop s text)) as Hrun.
  rewrite length_drop in Hrun.
  exists s, m. split; [lia|]. split; [lia|]. split; [|lia].
  apply slice_take_drop. lia.
Qed.

(** Every extracted keyword has at least three characters, all of them
    word characters, is in lower case, is not a stop word, and occurs in
    the lowered text. *)
Theorem extract_keywords_shape nltk_stopwords text w :
  w ∈ ATSScorer._extract_keywords nltk_stopwords text ->
  (3 <= String.length w)%nat
  /\ Re.word_run w = String.length w
  /\ Py.lower w = w
  /\ (w ∉ default ATSScorer.fallback_stop_words nltk_stopwords)
  /\ substring_of w (Py.lower text).
Proof.
  unfold ATSScorer._extract_keywords.
  intros [Hstop Hw]%elem_of_list_to_set%list_elem_of_filter.
  apply findall_word3 in Hw as (s & m & Hm & Hlen & -> & Hrun).
  destruct (take_word_run _ _ Hrun) as [H1 H2].
  split; [lia|]. split; [congruence|]. split.
  - by rewrite <- lower_drop, <- lower_take, lower_idem.
  - split.
    + intros Hin. apply Hstop. by apply elem_of_list_to_set.
    + exists (Py.take s (Py.lower text)),
             (Py.drop m (Py.drop s (Py.lower text))).
      by rewrite take_drop, take_drop.
Qed.

Lemma extract_keywords_shape_witness :
  (3 <= String.length "flask")%nat
  /\ Re.word_run "flask" = String.length "flask"
  /\ Py.lower "flask" = "flask"
  /\ ("flask" ∉ default ATSScorer.fallback_stop_words None)
  /\ substring_of "flask" (Py.lower "Seeking a Python developer who knows Flask, SQL, and Docker.").
Proof.
  apply (extract_keywords_shape None
           "Seeking a Python developer who knows Flask, SQL, and Docker.").
  apply elem_of_list_to_set. refine (bool_decide_unpack _ _). vm_compute. exact I.
Defined.

End KeywordFacts.

(** ** Compatibility scorer: further properties *)

Section ScorerMore.

Import ATSScorer.
Local Open Scope Q_scope.

Variable nltk_stopwords : option (list string).

Ltac in_list :=
  repeat first [apply list_elem_of_here | apply list_elem_of_further].

Lemma min_100 x : x <= 100 -> Num.min x 100 == x.
Proof.
  intros Hx. unfold Num.min. destruct (Qle_bool x 100) eqn:E; [reflexivity|].
  apply Qle_bool_iff in Hx. congruence.
Qed.

Lemma inject_nat_eq (a b : nat) :
  inject_Z (Z.of_nat a) == inject_Z (Z.of_nat b) <-> a = b.
Proof.
  split; [|by intros ->]. intros H. unfold Qeq in H. simpl in H. lia.
Qed.

(** A ratio of two counts times 100 as the scorer computes it, the
    numerator at most the denominator: the quotient is rounded, then the
    product.  A proper ratio stays below 100 as long as the denominator is
    at most [2^53]. *)
Lemma ratio_100 (a b : nat) :
  (a <= b)%nat -> (0 < b)%nat ->
  let x := Num.mul (Num.b64 (inject_Z (Z.of_nat a) / inject_Z (Z.of_nat b))) 100 in
  0 <= x <= 100
  /\ (a = b -> x == 100)
  /\ (x == 0 <-> a = O)
  /\ ((Z.of_nat b <= 2 ^ 53)%Z -> x == 100 -> a = b).
Proof.
  intros Hab Hb x.
  assert (0 < inject_Z (Z.of_nat b)) as HbQ.
  { change 0 with (inject_Z 0). rewrite <- Zlt_Qlt. lia. }
  assert (inject_Z (Z.of_nat a) <= inject_Z (Z.of_nat b)) as HabQ.
  { rewrite <- Zle_Qle. lia. }
  assert (0 <= inject_Z (Z.of_nat a)) as HaQ.
  { change 0 with (inject_Z 0). rewrite <- Zle_Qle. lia. }
  set (qa := inject_Z (Z.of_nat a)) in *. set (qb := inject_Z (Z.of_nat b)) in *.
  assert (qb * (qa / qb) == qa) as Hr by (apply Qmult_div_r; lra).
  assert (qa / qb <= 1) as Hle by (apply Qle_shift_div_r; lra).
  assert (0 <= qa / qb) as Hge by (apply Qle_shift_div_l; lra).
  set (r := qa / qb) in *.
  split; [apply percent_bounds; lra|]. split; [|split].
  - intros Hab'. assert (r == 1) as Hr1.
    { assert (qa == qb) as Hq by (unfold qa, qb; by rewrite Hab').
      assert (~ qb == 0) as Hnz by lra.
      apply (proj1 (Qmult_inj_l r 1 qb Hnz)). lra. }
    unfold x, Num.mul.
    assert (Num.b64 r == 1) as H1
      by (rewrite (b64_proper _ _ Hr1); apply b64_one).
    rewrite (b64_proper (Num.b64 r * 100) 100) by (rewrite H1; ring).
    apply b64_hundred.
  - split.
    + intros Hx. destruct a as [|a]; [reflexivity|]. exfalso.
      assert (0 < qa) as Hpos.
      { unfold qa. change 0 with (inject_Z 0). rewrite <- Zlt_Qlt. lia. }
      assert (0 < r) as Hrpos by (apply Qlt_shift_div_l; lra).
      pose proof (b64_pos_lt _ Hrpos) as Hb1.
      assert (0 < Num.b64 r * 100) as Hprod by lra.
      pose proof (b64_pos_lt _ Hprod) as Hb2.
      unfold x, Num.mul in Hx. lra.
    + intros ->. unfold x, Num.mul. apply b64_zero.
      assert (Num.b64 r == 0) as H0.
      { apply b64_zero. unfold r, qa, Qdiv. change (inject_Z (Z.of_nat 0)) with 0.
        ring. }
      rewrite H0. ring.
  - intros Hsmall Hx. destruct (decide (a = b)) as [|Hne]; [done|]. exfalso.
    assert (qa <= qb - 1) as Hlt.
    { assert (inject_Z (Z.of_nat b - 1) == qb - 1) as Hq.
      { unfold qb, Z.sub, Qminus. rewrite inject_Z_plus, inject_Z_opp.
        reflexivity. }
      assert (qa <= inject_Z (Z.of_nat b - 1))
        by (unfold qa; rewrite <- Zle_Qle; lia).
      lra. }
    assert (qb <= 9007199254740992) as Hmax.
    { unfold qb. change 9007199254740992 with (inject_Z (2 ^ 53)).
      by rewrite <- Zle_Qle. }
    set (p := 9007199254740991 # 9007199254740992).
    assert (r <= p) as Hrp by (apply Qle_shift_div_r; unfold p; lra).
    pose proof (b64_mono _ _ Hge Hrp) as Hm1.
    assert (Num.b64 p <= p) as Hp by (vm_compute; discriminate).
    pose proof (b64_nonneg _ Hge) as Hn1.
    assert (0 <= Num.b64 r * 100) as Hn2 by lra.
    assert (Num.b64 r * 100 <= p * 100) as Hm2 by lra.
    pose proof (b64_mono _ _ Hn2 Hm2) as Hm3.
    assert (Num.b64 (p * 100) < 100) as Hp2 by (vm_compute; reflexivity).
    unfold x, Num.mul in Hx. lra.
Qed.

(** The keyword result: the matching keywords are keywords of the job
    description found in the resume, the missing ones are keywords of the
    job description not found there, and at most ten of each are listed.
    The score is 100 when the job description has keywords and the resume
    has them all, and only then if the job description has at most [2^53]
    keywords (beyond that the rounded ratio of a resume that lacks a
    keyword can be 1); it is 0 exactly when the resume has none of them. *)
Theorem keyword_result_sound resume_data jd :
  let jd_keywords := _extract_keywords nltk_stopwords jd in
  let resume_keywords :=
    _extract_keywords nltk_stopwords
      (Py.lower (default "" (raw_text resume_data) +:+ " "
                 +:+ get_str (default ∅ (sections resume_data)) "skills")) in
  exists kw,
    _score_keywords nltk_stopwords resume_data jd = Ok kw
    /\ (forall w, w ∈ matching_keywords kw ->
                  w ∈ jd_keywords /\ w ∈ resume_keywords)
    /\ (forall w, w ∈ missing_keywords kw ->
                  w ∈ jd_keywords /\ w ∉ resume_keywords)
    /\ (length (matching_keywords kw) <= 10)%nat
    /\ (length (missing_keywords kw) <= 10)%nat
    /\ (jd_keywords <> ∅ /\ jd_keywords ⊆ resume_keywords -> kw_score kw == 100)
    /\ ((Z.of_nat (size jd_keywords) <= 2 ^ 53)%Z ->
        (kw_score kw == 100
         <-> jd_keywords <> ∅ /\ jd_keywords ⊆ resume_keywords))
    /\ (kw_score kw == 0 <-> jd_keywords ∩ resume_keywords = ∅).
Proof.
  intros jd_keywords resume_keywords. unfold _score_keywords.
  fold jd_keywords resume_keywords.
  set (matches := jd_keywords ∩ resume_keywords).
  set (missing := jd_keywords ∖ resume_keywords).
  assert (forall w, w ∈ first_of 10 matches ->
                    w ∈ jd_keywords /\ w ∈ resume_keywords) as Hm.
  { intros w Hw%elem_of_take_in%elem_of_elements. set_solver. }
  assert (forall w, w ∈ first_of 10 missing ->
                    w ∈ jd_keywords /\ w ∉ resume_keywords) as Hmiss.
  { intros w Hw%elem_of_take_in%elem_of_elements. set_solver. }
  assert (forall s : gset string, (length (first_of 10 s) <= 10)%nat) as Hten.
  { intros s. unfold first_of. rewrite length_take. lia. }
  case_bool_decide as Hjd; cbn [outcome_bind].
  - eexists. split; [reflexivity|]. cbn [kw_score matching_keywords missing_keywords].
    split; [exact Hm|]. split; [exact Hmiss|]. split; [apply Hten|].
    split; [apply Hten|].
    assert (Num.min (Num.mul 0 100) 100 == 0) as H0 by reflexivity.
    split; [by intros [? _]|]. split.
    + intros _. split; [|by intros [? _]]. intros H. exfalso.
      rewrite H0 in H. discriminate H.
    + split; [|intros _; exact H0]. intros _. subst matches. rewrite Hjd.
      set_solver.
  - destruct (size_positive jd_keywords Hjd) as [Hz Hpos].
    unfold py_div. rewrite Hz. cbn [outcome_bind].
    eexists. split; [reflexivity|]. cbn [kw_score matching_keywords missing_keywords].
    split; [exact Hm|]. split; [exact Hmiss|]. split; [apply Hten|].
    split; [apply Hten|].
    assert (matches ⊆ jd_keywords) as Hsub by set_solver.
    assert (size jd_keywords <> O) as Hsize.
    { intros H%size_empty_iff. apply Hjd. by apply leibniz_equiv. }
    destruct (ratio_100 (size matches) (size jd_keywords))
      as ((Hge & Hle) & H100 & H0 & Hsmall);
      [by apply subseteq_size | lia |].
    rewrite (min_100 _ Hle).
    assert (jd_keywords <> ∅ /\ jd_keywords ⊆ resume_keywords
            -> size matches = size jd_keywords) as Hall.
    { intros [_ Hall]. f_equal. apply leibniz_equiv. set_solver. }
    split; [intros H; by apply H100, Hall|]. split.
    + intros Hbound. split; [|intros H; by apply H100, Hall].
      intros Hsz%(Hsmall Hbound). split; [done|].
      assert (matches ≡ jd_keywords) as Heq
        by (apply set_subseteq_size_equiv; [done | lia]).
      set_solver.
    + rewrite H0. split.
      * intros Hsz%size_empty_iff. by apply leibniz_equiv.
      * intros ->. apply size_empty.
Qed.

(** The formatting result: the missing sections are those of education,
    experience and skills whose text is absent or blank.  With [m] of them
    missing the score is the binary64 quotient [(3 - m) / 3] times 100,
    rounded again: 100, 66.66666666666666, 33.33333333333333 or 0.  It is
    within [10^-13] of [100 * (3 - m) / 3], below [200 / 3] when one section
    is missing, and 100 exactly when none is missing. *)
#[warnings="-inexact-float"] Theorem formatting_result_counts (sections : gmap string string) :
  exists fmt,
    _score_formatting sections = Ok fmt
    /\ (forall name,
          name ∈ missing_sections fmt
          <-> name ∈ ["education"; "experience"; "skills"]
              /\ Py.strip (get_str sections name) = "")
    /\ (let exact := 100 * (3 - count (missing_sections fmt)) / 3 in
        fmt_score fmt
        == Num.mul (Num.b64 ((3 - count (missing_sections fmt)) / 3)) 100
        /\ fmt_score fmt
           == match length (missing_sections fmt) with
              | 0%nat => 100
              | 1%nat => Num.of_float 66.66666666666666
              | 2%nat => Num.of_float 33.33333333333333
              | _ => 0
              end
        /\ exact - (1 # 10000000000000) <= fmt_score fmt <= exact
        /\ (length (missing_sections fmt) = 1%nat -> fmt_score fmt < exact))
    /\ (fmt_score fmt == 100 <-> missing_sections fmt = []).
Proof.
  unfold _score_formatting.
  assert (forall name,
            Py.truthy (Py.strip (get_str sections name)) = false
            <-> Py.strip (get_str sections name) = "") as Hblank.
  { intros name. by destruct (Py.strip (get_str sections name)). }
  destruct (Py.truthy (Py.strip (get_str sections "education"))) eqn:E1;
    destruct (Py.truthy (Py.strip (get_str sections "experience"))) eqn:E2;
    destruct (Py.truthy (Py.strip (get_str sections "skills"))) eqn:E3;
    rewrite !filter_cons, filter_nil, E1, E2, E3; simpl;
    (eexists; split; [reflexivity|]); simpl;
    (split; [|split;
               [split; [vm_compute; reflexivity|];
                split; [vm_compute; reflexivity|];
                split; [split; vm_compute; discriminate|];
                first [intros _; vm_compute; reflexivity | discriminate]|]]).
  all: try (split; [intros H; vm_compute in H; discriminate H | discriminate]).
  all: try (split; reflexivity).
  all: intros name; rewrite <- Hblank; split.
  all: try (intros H;
            repeat (apply elem_of_cons in H as [-> | H];
                    [split; [in_list | assumption]|]);
            by apply elem_of_nil in H).
  all: intros [H Hb];
    repeat (apply elem_of_cons in H as [-> | H];
            [first [congruence | in_list]|]);
    by apply elem_of_nil in H.
Qed.

End ScorerMore.

(** ** A resume without text *)

Section BlankResume.

Import ATSScorer.

(** Every character of [s] is white space. *)
Abbreviation all_space s :=
  (Forall (fun c => Py.isspace c = true) (list_ascii_of_string s)).

Lemma isspace_not_word c : Py.isspace c = true -> Py.isword c = false.
Proof. destruct c as [[] [] [] [] [] [] [] []]; simpl; by intros. Qed.

Lemma rstrip_empty s : Py.rstrip s = "" -> all_space s.
Proof.
  induction s as [|c s IH]; simpl; [constructor|].
  destruct (Py.rstrip s); [|discriminate].
  destruct (Py.isspace c) eqn:E; [|discriminate].
  intros _. constructor; [exact E | by apply IH].
Qed.

Lemma lstrip_all_space s : all_space (Py.lstrip s) -> all_space s.
Proof.
  induction s as [|c s IH]; simpl; [done|].
  destruct (Py.isspace c) eqn:E; [|done].
  intros H. constructor; [exact E | by apply IH].
Qed.

Lemma strip_empty s : Py.strip s = "" -> all_space s.
Proof. intros H. by apply lstrip_all_space, rstrip_empty. Qed.

Lemma all_space_append a b : all_space a -> all_space b -> all_space (a +:+ b).
Proof.
  induction a as [|c a IH]; [done|]. rewrite append_cons. simpl.
  intros Ha Hb. inversion Ha; subst. constructor; [done | by apply IH].
Qed.

Lemma all_space_lower s : all_space s -> all_space (Py.lower s).
Proof.
  induction s as [|c s IH]; simpl; [done|]. intros H. inversion H; subst.
  constructor; [by rewrite isspace_lower_char | by apply IH].
Qed.

Lemma all_space_word_at s p : all_space s -> Re.word_at s p = false.
Proof.
  unfold Re.word_at. revert p. induction s as [|c s IH]; intros p H; [by destruct p|].
  inversion H; subst. destruct p as [|p]; simpl.
  - by apply isspace_not_word.
  - by apply IH.
Qed.

Lemma scan_no_boundary r text pos next rest :
  (forall p, Re.boundary text p = false) ->
  Re.scan (Re.Bnd :: r) text pos next rest = [].
Proof.
  intros Hno. revert pos next. induction rest as [|c rest IH]; intros pos next;
    simpl; rewrite Hno; by destruct (pos <? next)%nat.
Qed.

Lemma all_space_no_keywords nltk_stopwords s :
  all_space s -> _extract_keywords nltk_stopwords s = ∅.
Proof.
  intros Hs. unfold _extract_keywords, Re.findall, Re.finditer, Re.word3.
  rewrite scan_no_boundary; [done|].
  intros p. unfold Re.boundary.
  rewrite (all_space_word_at _ p) by by apply all_space_lower.
  destruct p as [|p]; [done|].
  by rewrite (all_space_word_at _ p) by by apply all_space_lower.
Qed.

(** A resume whose raw text is blank and whose five scored sections are
    absent or blank: for every job description the five scores are all 0,
    the overall score is 0, and all four suggestions are made. *)
Theorem blank_resume_scores_zero nltk_stopwords resume_data jd :
  Py.strip (default "" (raw_text resume_data)) = "" ->
  (forall name,
     Py.strip (get_str (default ∅ (sections resume_data)) name) = "") ->
  exists r,
    calculate_score nltk_stopwords resume_data jd = Ok r
    /\ (kw_score (b_keywords (breakdown r)) == 0)%Q
    /\ exp_score (b_experience (breakdown r)) = 0%Q
    /\ proj_score (b_projects (breakdown r)) = 0%Q
    /\ cert_score (b_certifications (breakdown r)) = 0%Q
    /\ (fmt_score (b_formatting (breakdown r)) == 0)%Q
    /\ (overall_score r == 0)%Q
    /\ length (suggestions r) = 4%nat.
Proof.
  intros Hraw Hsections.
  set (secs := default ∅ (sections resume_data)) in *.
  assert (_extract_keywords nltk_stopwords
            (Py.lower (default "" (raw_text resume_data) +:+ " "
                       +:+ get_str secs "skills")) = ∅) as Hres.
  { apply all_space_no_keywords, all_space_lower, all_space_append;
      [by apply strip_empty|].
    apply (all_space_append " "); [by repeat constructor|].
    by apply strip_empty. }
  unfold calculate_score, _score_keywords. fold secs. rewrite Hres.
  assert (forall jdk : gset string, jdk ∩ ∅ = ∅) as -> by set_solver.
  assert (forall jdk : gset string, jdk ∖ ∅ = jdk) as -> by set_solver.
  rewrite size_empty.
  unfold _score_experience, _score_projects, _score_certifications,
    _score_formatting.
  rewrite !filter_cons, filter_nil, !Hsections. simpl.
  case_bool_decide as Hjd; simpl.
  - eexists. split; [reflexivity|]. simpl. repeat split.
  - destruct (size_positive _ Hjd) as [Hz _]. unfold py_div. rewrite Hz. simpl.
    eexists. split; [reflexivity|]. simpl.
    change (inject_Z (Z.of_nat 0)) with 0%Q.
    set (n := inject_Z (Z.of_nat (size (_extract_keywords nltk_stopwords jd)))).
    assert (Num.b64 (0 / n) == 0)%Q as Hb
      by (apply b64_zero; unfold Qdiv; ring).
    assert (Num.mul (Num.b64 (0 / n)) 100 == 0)%Q as Hm
      by (unfold Num.mul; apply b64_zero; rewrite Hb; ring).
    assert (Num.min (Num.mul (Num.b64 (0 / n)) 100) 100 == 0)%Q as Hmin.
    { rewrite min_100; [exact Hm|]. rewrite Hm. lra. }
    split; [exact Hmin|]. split; [reflexivity|]. split; [reflexivity|].
    split; [reflexivity|]. split; [reflexivity|]. split.
    + rewrite (round_comp _ 0 2); [reflexivity|].
      apply weighted_total_zero;
        cbn [b_keywords b_experience b_projects b_certifications b_formatting
             kw_score exp_score proj_score cert_score fmt_score];
        first [exact Hmin | reflexivity].
    + reflexivity.
Qed.

Lemma blank_resume_scores_zero_witness :
  exists r,
    calculate_score None (Resume None None)
      "Seeking a Python developer who knows Flask." = Ok r
    /\ (kw_score (b_keywords (breakdown r)) == 0)%Q
    /\ exp_score (b_experience (breakdown r)) = 0%Q
    /\ proj_score (b_projects (breakdown r)) = 0%Q
    /\ cert_score (b_certifications (breakdown r)) = 0%Q
    /\ (fmt_score (b_formatting (breakdown r)) == 0)%Q
    /\ (overall_score r == 0)%Q
    /\ length (suggestions r) = 4%nat.
Proof.
  apply (blank_resume_scores_zero None (Resume None None)).
  - reflexivity.
  - intros name. reflexivity.
Defined.

End BlankResume.

(** ** Section segmentation: further properties *)

Section SegmenterMore.

Import ResumeParser.

Lemma substring_of_refl s : substring_of s s.
Proof.
  exists "", "". rewrite append_empty. clear.
  induction s as [|c s IH]; [done|]. rewrite append_cons. by rewrite <- IH.
Qed.

Lemma append_empty_r s : s +:+ "" = s.
Proof. induction s as [|c s IH]; [done|]. rewrite append_cons. by rewrite IH. Qed.

Lemma substring_of_trans a b c :
  substring_of a b -> substring_of b c -> substring_of a c.
Proof.
  intros (p1 & q1 & ->) (p2 & q2 & ->).
  exists (p2 +:+ p1), (q1 +:+ q2). by rewrite !append_assoc.
Qed.

Lemma substring_of_empty s : substring_of "" s.
Proof. exists "", s. done. Qed.

Lemma lstrip_substring s : substring_of (Py.lstrip s) s.
Proof.
  induction s as [|c s IH]; simpl; [apply substring_of_refl|].
  destruct (Py.isspace c); [|apply substring_of_refl].
  destruct IH as (p & q & H). exists (String c p), q.
  rewrite append_cons. by rewrite <- H.
Qed.

Lemma rstrip_prefix s : exists post, s = Py.rstrip s +:+ post.
Proof.
  induction s as [|c s [post IH]]; simpl; [by exists ""|].
  destruct (Py.rstrip s) as [|d r] eqn:E.
  - destruct (Py.isspace c).
    + by exists (String c s).
    + exists s. by rewrite append_cons.
  - exists post. rewrite append_cons. by rewrite <- IH.
Qed.

Lemma strip_substring s : substring_of (Py.strip s) s.
Proof.
  eapply substring_of_trans; [|apply lstrip_substring].
  unfold Py.strip. destruct (rstrip_prefix (Py.lstrip s)) as [post H].
  exists "", post. by rewrite append_empty.
Qed.

Lemma drop_substring n s : substring_of (Py.drop n s) s.
Proof.
  exists (Py.take n s), "". by rewrite append_empty_r, take_drop.
Qed.

Lemma take_substring n s : substring_of (Py.take n s) s.
Proof.
  exists "", (Py.drop n s). by rewrite append_empty, take_drop.
Qed.

Lemma slice_substring s a b : substring_of (Py.slice s a b) s.
Proof.
  unfold Py.slice. eapply substring_of_trans;
    [apply take_substring | apply drop_substring].
Qed.

(** The content kept for a header is trimmed and occurs in the text. *)
Lemma section_content_ok text a b :
  Py.strip (section_content text a b) = section_content text a b
  /\ substring_of (section_content text a b) text.
Proof.
  unfold section_content.
  destruct (Py.find _ Py.nl 0 =? -1)%Z.
  - split; [apply strip_idem|].
    eapply substring_of_trans; [apply strip_substring | apply slice_substring].
  - split; [apply strip_idem|].
    eapply substring_of_trans; [apply strip_substring|].
    eapply substring_of_trans; [apply drop_substring|].
    eapply substring_of_trans; [apply strip_substring | apply slice_substring].
Qed.

Lemma fill_sections_values (P : string -> Prop) text hs (m : gmap string string) :
  (forall a b, P (section_content text a b)) ->
  map_Forall (fun _ v => P v) m ->
  map_Forall (fun _ v => P v) (fill_sections text hs m).
Proof.
  intros Hcontent. revert m.
  induction hs as [|[start name] hs IH]; intros m Hm; simpl; [done|].
  apply IH. by apply map_Forall_insert_2.
Qed.

Lemma empty_sections_values (P : string -> Prop) :
  P "" -> map_Forall (fun _ v => P v) empty_sections.
Proof.
  intros HP. unfold empty_sections.
  repeat (apply map_Forall_insert_2; [exact HP|]). apply map_Forall_empty.
Qed.

(** Every value of the returned mapping occurs in the text as one piece;
    and when a header was accepted, every value is trimmed and the
    remainder section is empty: the text before the first header is not
    kept. *)
Theorem sections_come_from_text text name v :
  segment_sections text !! name = Some v ->
  substring_of v text
  /\ (header_indices text <> [] ->
      Py.strip v = v /\ segment_sections text !! "others" = Some "").
Proof.
  unfold segment_sections.
  pose proof (sort_headers_perm (header_indices text)) as Hperm.
  destruct (sort_headers (header_indices text)) as [|h hs] eqn:E.
  - apply Permutation_nil in Hperm. intros Hv. split; [|by rewrite Hperm].
    revert Hv. revert name v. apply map_Forall_insert_2; [apply substring_of_refl|].
    apply empty_sections_values, substring_of_empty.
  - intros Hv. split.
    + revert Hv. revert name v. apply fill_sections_values.
      * intros a b. apply section_content_ok.
      * apply empty_sections_values, substring_of_empty.
    + intros _. split.
      * revert Hv. revert name v. apply fill_sections_values.
        -- intros a b. apply section_content_ok.
        -- by apply empty_sections_values.
      * rewrite fill_sections_absent; [reflexivity|].
        intros (h' & Hname & Hh')%list_elem_of_fmap.
        rewrite Hperm in Hh'. apply header_indices_names in Hh'.
        rewrite <- Hname in Hh'. by apply others_not_a_name.
Qed.

Lemma sections_come_from_text_witness :
  substring_of "B.S. Computer Science"
    ("John Doe" +:+ Py.nl +:+ "EDUCATION" +:+ Py.nl +:+ "B.S. Computer Science"
     +:+ Py.nl)
  /\ (ResumeParser.header_indices
        ("John Doe" +:+ Py.nl +:+ "EDUCATION" +:+ Py.nl +:+ "B.S. Computer Science"
         +:+ Py.nl) <> [] ->
      Py.strip "B.S. Computer Science" = "B.S. Computer Science"
      /\ ResumeParser.segment_sections
           ("John Doe" +:+ Py.nl +:+ "EDUCATION" +:+ Py.nl
            +:+ "B.S. Computer Science" +:+ Py.nl) !! "others" = Some "").
Proof.
  apply (sections_come_from_text
           ("John Doe" +:+ Py.nl +:+ "EDUCATION" +:+ Py.nl
            +:+ "B.S. Computer Science" +:+ Py.nl) "education").
  vm_compute. reflexivity.
Defined.

Lemma get_drop p text d :
  String.get p text = Some d -> Py.drop p text = String d (Py.drop (S p) text).
Proof.
  revert text. induction p as [|p IH]; intros text; destruct text as [|c text];
    simpl; try done.
  - by intros [= ->].
  - apply IH.
Qed.

Lemma get_beyond p text :
  (String.length text <= p)%nat -> String.get p text = None.
Proof.
  revert p. induction text as [|c text IH]; intros p Hp; [by destruct p|].
  destruct p as [|p]; simpl in *; [lia|]. apply IH. lia.
Qed.

Lemma boundary_in_range text q :
  Re.boundary text q = true -> (q <= String.length text)%nat.
Proof.
  intros H. destruct (Nat.le_gt_cases q (String.length text)) as [?|Hgt]; [done|].
  unfold Re.boundary, Re.word_at in H.
  rewrite (get_beyond q) in H by lia.
  destruct q as [|q]; [done|]. by rewrite (get_beyond q) in H by lia.
Qed.

Lemma match_literal lit r text p e :
  Re.match_at (Re.literal lit ++ r) text p = Some e ->
  Py.take (String.length lit) (Py.drop p text) = lit
  /\ Re.match_at r text (p + String.length lit) = Some e.
Proof.
  revert p. induction lit as [|c lit IH]; intros p.
  - simpl. rewrite Nat.add_0_r. intros H. split; [by destruct (Py.drop p text) | done].
  - cbn [Re.literal app Re.match_at].
    destruct (String.get p text) as [d|] eqn:Eg; [|done].
    destruct (Ascii.eqb_spec c d) as [<-|]; [|done].
    intros [Htake Hrest]%IH. rewrite (get_drop _ _ _ Eg).
    cbn [String.length Py.take]. rewrite Htake. split; [done|].
    by rewrite <- Nat.add_succ_comm.
Qed.

Lemma bounded_match lit text s e :
  Re.match_at (Re.bounded lit) text s = Some e ->
  e = (s + String.length lit)%nat
  /\ (s + String.length lit <= String.length text)%nat
  /\ Py.slice text (Z.of_nat s) (Z.of_nat e) = lit
  /\ Re.boundary text s = true
  /\ Re.boundary text e = true.
Proof.
  unfold Re.bounded. cbn [Re.match_at].
  destruct (Re.boundary text s); [|done].
  intros [Htake Hend]%match_literal. cbn [Re.match_at] in Hend.
  destruct (Re.boundary text (s + String.length lit)) eqn:Eb; [|done].
  injection Hend as <-. pose proof (boundary_in_range _ _ Eb).
  split; [done|]. split; [done|]. split; [by rewrite slice_take_drop|].
  split; [reflexivity | exact Eb].
Qed.

Lemma first_short_in text name ms h :
  h ∈ first_short text name ms ->
  exists span, span ∈ ms /\ h = (span.1, name) /\ short_line text span = true.
Proof.
  induction ms as [|span ms IH]; simpl; [by intros []%elem_of_nil|].
  destruct (short_line text span) eqn:E.
  - intros [-> | []%elem_of_nil]%elem_of_cons. exists span. split; [left | done].
  - intros (span' & ? & ? & ?)%IH. exists span'. split; [by right | done].
Qed.

Lemma patterns_are_bounded name patterns pattern :
  (name, patterns) ∈ sections_patterns -> pattern ∈ patterns ->
  exists lit, pattern = Re.bounded lit.
Proof.
  unfold sections_patterns. intros Hentry Hpattern.
  repeat (apply elem_of_cons in Hentry as [[= -> ->] | Hentry];
          [apply list_elem_of_In in Hpattern;
           repeat (destruct Hpattern as [<- | Hpattern]; [by eexists|]);
           destruct Hpattern|]).
  by apply elem_of_nil in Hentry.
Qed.

(** Every accepted header is an occurrence of a synonym of its section:
    at its offset the text reads the synonym, with a word boundary ([\b])
    at its first character and one after its last, and the line it stands
    on has fewer than 50 characters once trimmed. *)
Theorem accepted_headers_are_synonyms text start name :
  (start, name) ∈ header_indices text ->
  exists patterns lit,
    (name, patterns) ∈ sections_patterns
    /\ Re.bounded lit ∈ patterns
    /\ (0 <= start)%Z
    /\ (start + Py.len lit <= Py.len text)%Z
    /\ Py.slice text start (start + Py.len lit) = lit
    /\ Re.boundary text (Z.to_nat start) = true
    /\ Re.boundary text (Z.to_nat (start + Py.len lit)) = true
    /\ short_line text (start, (start + Py.len lit)%Z) = true.
Proof.
  intros H%list_elem_of_In. unfold header_indices in H.
  apply in_flat_map in H as ([name' patterns] & Hentry & H).
  apply in_flat_map in H as (pattern & Hpattern & H).
  apply list_elem_of_In in Hentry, Hpattern, H. cbn [fst snd] in *.
  apply first_short_in in H as ([a b] & Hspan & Heq & Hshort).
  cbn [fst] in Heq. injection Heq as -> ->.
  destruct (patterns_are_bounded _ _ _ Hentry Hpattern) as [lit ->].
  unfold Re.finditer in Hspan.
  apply list_elem_of_fmap in Hspan as ([s e] & Heq & Hse).
  cbn [fst snd] in Heq. injection Heq as -> ->.
  apply scan_match in Hse. cbn [fst snd] in Hse.
  apply bounded_match in Hse as (He & Hlen & Hslice & Hb1 & Hb2). subst e.
  assert (Z.of_nat (s + String.length lit) = (Z.of_nat s + Py.len lit)%Z) as Hz
    by (unfold Py.len; lia).
  rewrite Hz in *.
  exists patterns, lit.
  split; [done|]. split; [done|]. split; [lia|].
  split; [unfold Py.len; lia|]. split; [exact Hslice|].
  split; [by rewrite Nat2Z.id|].
  split; [by rewrite <- Hz, Nat2Z.id | exact Hshort].
Qed.

Lemma accepted_headers_are_synonyms_witness :
  exists patterns lit,
    (("skills" : string), patterns) ∈ sections_patterns
    /\ Re.bounded lit ∈ patterns
    /\ (0 <= 9)%Z
    /\ (9 + Py.len lit <= Py.len ("John Doe" +:+ Py.nl +:+ "TECHNICAL SKILLS"))%Z
    /\ Py.slice ("John Doe" +:+ Py.nl +:+ "TECHNICAL SKILLS") 9 (9 + Py.len lit) = lit
    /\ Re.boundary ("John Doe" +:+ Py.nl +:+ "TECHNICAL SKILLS") (Z.to_nat 9)
       = true
    /\ Re.boundary ("John Doe" +:+ Py.nl +:+ "TECHNICAL SKILLS")
         (Z.to_nat (9 + Py.len lit)) = true
    /\ short_line ("John Doe" +:+ Py.nl +:+ "TECHNICAL SKILLS")
         (9%Z, (9 + Py.len lit)%Z) = true.
Proof.
  apply (accepted_headers_are_synonyms
           ("John Doe" +:+ Py.nl +:+ "TECHNICAL SKILLS") 9 "skills").
  vm_compute. right. left.
Defined.

End SegmenterMore.

(** ** The matcher of the cleaning and contact patterns *)

Section MatcherFacts.

Lemma give_back_none k p lo n :
  Re.give_back k p lo n = None ->
  forall m, (lo <= m <= n)%nat -> k (p + m)%nat = None.
Proof.
  induction n as [|n IH]; simpl.
  - destruct (0 <? lo)%nat eqn:E.
    + apply Nat.ltb_lt in E. intros _ m Hm. lia.
    + destruct (k (p + 0)%nat) eqn:Ek; [done|]. intros _ m Hm.
      by replace m with 0%nat by lia.
  - destruct (S n <? lo)%nat eqn:E.
    + apply Nat.ltb_lt in E. intros _ m Hm. lia.
    + destruct (k (p + S n)%nat) eqn:Ek; [done|]. intros H m Hm.
      destruct (decide (m = S n)) as [->|]; [done|]. apply IH; [done | lia].
Qed.

(** A repetition keeps the largest number of characters after which the
    rest of the pattern matches. *)
Lemma give_back_max k p lo n e :
  Re.give_back k p lo n = Some e ->
  exists m, (lo <= m <= n)%nat /\ k (p + m)%nat = Some e
    /\ forall m', (m < m' <= n)%nat -> k (p + m')%nat = None.
Proof.
  induction n as [|n IH]; simpl.
  - destruct (0 <? lo)%nat eqn:E; [done|]. apply Nat.ltb_ge in E.
    destruct (k (p + 0)%nat) eqn:Ek; [|done]. intros [= ->]. exists O.
    split; [lia|]. split; [done|]. intros m' Hm'. lia.
  - destruct (S n <? lo)%nat eqn:E; [done|]. apply Nat.ltb_ge in E.
    destruct (k (p + S n)%nat) eqn:Ek.
    + intros [= ->]. exists (S n). split; [lia|]. split; [done|].
      intros m' Hm'. lia.
    + intros (m & Hm & Hk & Hmax)%IH. exists m. split; [lia|]. split; [done|].
      intros m' Hm'. destruct (decide (m' = S n)) as [->|]; [done|].
      apply Hmax. lia.
Qed.

Lemma class_run_le cls s : (Rx.class_run cls s <= String.length s)%nat.
Proof.
  induction s as [|c s IH]; simpl; [lia|]. destruct (cls c); lia.
Qed.

Lemma class_run_get cls s i :
  (i < Rx.class_run cls s)%nat ->
  exists c, String.get i s = Some c /\ cls c = true.
Proof.
  revert i. induction s as [|c s IH]; intros i; simpl; [lia|].
  destruct (cls c) eqn:E; [|lia]. destruct i as [|i]; [by exists c|].
  intros Hi. apply IH. lia.
Qed.

Lemma get_drop_add p i text :
  String.get i (Py.drop p text) = String.get (p + i) text.
Proof.
  revert text. induction p as [|p IH]; intros text; [done|].
  destruct text as [|c text]; simpl; [by destruct i | apply IH].
Qed.

(** What a successful run of a pattern went through: the rest of the
    pattern matched from some offset [q] on, at least [min_len r]
    characters further, inside the text, and every character in between
    belongs to one of the pattern's classes. *)
Lemma run_spec r text p k e :
  Rx.run r text p k = Some e ->
  exists q, k q = Some e /\ (p + Rx.min_len r <= q)%nat
    /\ ((p <= String.length text)%nat -> (q <= String.length text)%nat)
    /\ forall i, (p <= i < q)%nat ->
         exists c cls,
           String.get i text = Some c /\ cls ∈ Rx.classes r /\ cls c = true.
Proof.
  revert p k. induction r as [| |cls lo hi|a IHa b IHb|a IHa b IHb|a IHa];
    intros p k; cbn [Rx.run Rx.min_len Rx.classes].
  - intros H. exists p. split; [done|]. split; [lia|]. split; [done|].
    intros i Hi. lia.
  - destruct (Re.boundary text p); [|done]. intros H. exists p.
    split; [done|]. split; [lia|]. split; [done|]. intros i Hi. lia.
  - intros (m & Hm & Hk)%give_back_spec. exists (p + m)%nat.
    assert (m <= Rx.class_run cls (Py.drop p text))%nat as Hrun
      by (destruct hi; lia).
    pose proof (class_run_le cls (Py.drop p text)) as Hle.
    rewrite length_drop in Hle.
    split; [done|]. split; [lia|]. split; [lia|].
    intros i Hi. destruct (class_run_get cls (Py.drop p text) (i - p)) as (c & Hc & Hcls);
      [lia|].
    rewrite get_drop_add in Hc. replace (p + (i - p))%nat with i in Hc by lia.
    exists c, cls. split; [done|]. split; [apply list_elem_of_singleton; done | done].
  - intros (q1 & Hk1 & Hlen1 & Hin1 & Hc1)%IHa.
    apply IHb in Hk1 as (q & Hk & Hlen & Hin & Hc).
    exists q. split; [done|]. split; [lia|]. split; [tauto|].
    intros i Hi. destruct (Nat.lt_ge_cases i q1) as [Hlt|Hge].
    + destruct (Hc1 i) as (c & cls & ? & ? & ?); [lia|].
      exists c, cls. split; [done|]. split; [apply elem_of_app; by left | done].
    + destruct (Hc i) as (c & cls & ? & ? & ?); [lia|].
      exists c, cls. split; [done|]. split; [apply elem_of_app; by right | done].
  - destruct (Rx.run a text p k) as [e'|] eqn:Ea.
    + intros [= ->]. apply IHa in Ea as (q & Hk & Hlen & Hin & Hc).
      exists q. split; [done|]. split; [lia|]. split; [done|].
      intros i Hi. destruct (Hc i Hi) as (c & cls & ? & ? & ?).
      exists c, cls. split; [done|]. split; [apply elem_of_app; by left | done].
    + intros (q & Hk & Hlen & Hin & Hc)%IHb.
      exists q. split; [done|]. split; [lia|]. split; [done|].
      intros i Hi. destruct (Hc i Hi) as (c & cls & ? & ? & ?).
      exists c, cls. split; [done|]. split; [apply elem_of_app; by right | done].
  - destruct (Rx.run a text p k) as [e'|] eqn:Ea.
    + intros [= ->]. apply IHa in Ea as (q & Hk & Hlen & Hin & Hc).
      exists q. split; [done|]. split; [lia|]. done.
    + intros H. exists p. split; [done|]. split; [lia|]. split; [done|].
      intros i Hi. lia.
Qed.

Lemma rx_scan_match r text pos next rest se :
  se ∈ Rx.scan r text pos next rest ->
  Rx.match_at r text se.1 = Some se.2
  /\ (pos <= se.1 <= pos + String.length rest)%nat.
Proof.
  revert pos next. induction rest as [|c rest IH]; intros pos next; simpl.
  - destruct (pos <? next)%nat; [by intros []%elem_of_nil|].
    destruct (Rx.match_at r text pos) eqn:E; [|by intros []%elem_of_nil].
    intros [-> | []%elem_of_nil]%elem_of_cons. simpl. split; [done | lia].
  - destruct (pos <? next)%nat.
    { intros [H1 H2]%IH. split; [done | lia]. }
    destruct (Rx.match_at r text pos) eqn:E.
    + intros [-> | [H1 H2]%IH]%elem_of_cons; simpl; (split; [done | lia]).
    + intros [H1 H2]%IH. split; [done | lia].
Qed.

Lemma take_chars (P : ascii -> Prop) m u :
  (forall j, (j < m)%nat -> exists c, String.get j u = Some c /\ P c) ->
  Forall P (list_ascii_of_string (Py.take m u)) /\ String.length (Py.take m u) = m.
Proof.
  revert u. induction m as [|m IH]; intros u H; [by destruct u|].
  destruct u as [|c u].
  - destruct (H O) as (c & Hc & _); [lia | done].
  - simpl. destruct (IH u) as [H1 H2].
    + intros j Hj. apply (H (S j)). lia.
    + split; [|by rewrite H2]. constructor; [|done].
      destruct (H O) as (c' & [= <-] & Hc); [lia | done].
Qed.

Lemma get_take_in m u j c :
  (j < m)%nat -> String.get j u = Some c ->
  c ∈ list_ascii_of_string (Py.take m u).
Proof.
  revert u j. induction m as [|m IH]; intros u j Hj; [lia|].
  destruct u as [|d u]; [by destruct j|]. simpl.
  destruct j as [|j].
  - intros [= ->]. apply elem_of_cons. by left.
  - intros H. apply elem_of_cons. right. apply (IH u j); [lia | done].
Qed.

(** The text of a match found by [re.findall] or [re.search]. *)
Lemma rx_findall_spec r text w :
  w ∈ Rx.findall r text ->
  exists s e,
    Rx.match_at r text s = Some e /\ (s <= e <= String.length text)%nat
    /\ w = Py.take (e - s) (Py.drop s text).
Proof.
  unfold Rx.findall. intros H.
  apply list_elem_of_fmap in H as ([s e] & -> & Hse).
  apply rx_scan_match in Hse as [Hm Hs]. cbn [fst snd] in *.
  pose proof Hm as Hm'. unfold Rx.match_at in Hm'.
  apply run_spec in Hm' as (q & [= ->] & Hlen & Hin & _).
  exists s, e. split; [done|]. split; [lia|].
  replace (Z.of_nat e) with (Z.of_nat (s + (e - s))) by lia.
  apply slice_take_drop. lia.
Qed.

Lemma rx_search_spec r text w :
  Rx.search r text = Some w -> w ∈ Rx.findall r text.
Proof.
  unfold Rx.search. destruct (Rx.findall r text) as [|x l]; [done|].
  intros [= ->]. apply elem_of_cons. by left.
Qed.

(** A match is one piece of the text, has at least [min_len r]
    characters, and consists of characters of the pattern's classes. *)
Lemma rx_findall_shape r text w :
  w ∈ Rx.findall r text ->
  substring_of w text
  /\ (Rx.min_len r <= String.length w)%nat
  /\ Forall (fun c => exists cls, cls ∈ Rx.classes r /\ cls c = true)
       (list_ascii_of_string w).
Proof.
  intros (s & e & Hm & Hse & ->)%rx_findall_spec.
  split.
  { eapply substring_of_trans; [apply take_substring | apply drop_substring]. }
  unfold Rx.match_at in Hm.
  apply run_spec in Hm as (q & [= ->] & Hlen & Hin & Hc).
  destruct (take_chars (fun c => exists cls, cls ∈ Rx.classes r /\ cls c = true)
              (e - s) (Py.drop s text)) as [H1 H2].
  - intros j Hj. destruct (Hc (s + j)%nat) as (c & cls & Hget & Hcls & Hin'); [lia|].
    exists c. rewrite get_drop_add. split; [done|]. by exists cls.
  - split; [lia | done].
Qed.

End MatcherFacts.

(** ** Contact details *)

Section ContactFacts.

Import ResumeText.

Lemma run_seq a b text p k :
  Rx.run (Rx.Seq a b) text p k = Rx.run a text p (fun q => Rx.run b text q k).
Proof. reflexivity. Qed.

(** A match of the e-mail pattern has an [@] after its first character. *)
Lemma email_match text s e :
  Rx.match_at email_pattern text s = Some e ->
  exists q, (s < q < e)%nat /\ String.get q text = Some "@"%char.
Proof.
  unfold Rx.match_at, email_pattern. cbn [Rx.seq].
  rewrite run_seq. intros (q0 & H & H0 & _)%run_spec.
  rewrite run_seq in H. apply run_spec in H as (q1 & H & H1 & _).
  rewrite run_seq in H. apply run_spec in H as (q2 & H & H2 & _ & Hat).
  apply run_spec in H as (q3 & [= ->] & H3 & _).
  cbn [Rx.min_len Rx.plus Rx.chr Rx.one] in *.
  exists q1. split; [lia|].
  destruct (Hat q1) as (c & cls & Hget & Hcls & Hc); [lia|].
  apply list_elem_of_singleton in Hcls as ->.
  apply Ascii.eqb_eq in Hc as <-. done.
Qed.

Lemma email_has_at text w :
  Rx.search email_pattern text = Some w ->
  "@"%char ∈ list_ascii_of_string w.
Proof.
  intros (s & e & Hm & Hse & ->)%rx_search_spec%rx_findall_spec.
  apply email_match in Hm as (q & Hq & Hget).
  apply (get_take_in _ _ (q - s)); [lia|].
  rewrite get_drop_add. by replace (s + (q - s))%nat with q by lia.
Qed.

Lemma links_found text link :
  link ∈ links (extract_contact_info text) ->
  link ∈ Rx.findall url_pattern text
  /\ email (extract_contact_info text) <> Some link.
Proof.
  unfold extract_contact_info. cbn [links email].
  destruct (Rx.search email_pattern text) as [w|] eqn:E; [|done].
  pose proof (email_has_at _ _ E) as Hat.
  destruct w as [|c w]; [by apply elem_of_nil in Hat|]. cbn [Py.truthy].
  intros [Hne Hin]%list_elem_of_filter. split; [done | congruence].
Qed.

Ltac by_cases_on c :=
  destruct c as [[|] [|] [|] [|] [|] [|] [|] [|]]; vm_compute; congruence.

(** An e-mail address that was found occurs in the text, contains an
    [@], has at least six characters, and is not among the links. *)
Theorem found_email_shape text address :
  email (extract_contact_info text) = Some address ->
  substring_of address text
  /\ "@"%char ∈ list_ascii_of_string address
  /\ (6 <= String.length address)%nat
  /\ address ∉ links (extract_contact_info text).
Proof.
  intros H. pose proof H as Hsearch.
  unfold extract_contact_info in Hsearch. cbn [email] in Hsearch.
  destruct (rx_findall_shape _ _ _ (rx_search_spec _ _ _ Hsearch))
    as (Hsub & Hlen & _).
  split; [done|]. split; [by apply email_has_at with text|]. split; [exact Hlen|].
  intros [_ Hne]%links_found. by rewrite H in Hne.
Qed.

Lemma found_email_shape_witness :
  substring_of "john.doe@example.com" sample_text
  /\ "@"%char ∈ list_ascii_of_string "john.doe@example.com"
  /\ (6 <= String.length "john.doe@example.com")%nat
  /\ ("john.doe@example.com" : string) ∉ links (extract_contact_info sample_text).
Proof. apply (found_email_shape sample_text). reflexivity. Defined.

(** Every link is one piece of the text of at least four characters,
    has no white space in it, and is not the e-mail address. *)
Theorem links_shape text link :
  link ∈ links (extract_contact_info text) ->
  substring_of link text
  /\ (4 <= String.length link)%nat
  /\ Forall (fun c => Py.isspace c = false) (list_ascii_of_string link)
  /\ email (extract_contact_info text) <> Some link.
Proof.
  intros [Hin Hne]%links_found.
  destruct (rx_findall_shape _ _ _ Hin) as (Hsub & Hlen & Hchars).
  split; [done|]. split; [exact Hlen|]. split; [|done].
  eapply Forall_impl; [exact Hchars|].
  intros c (cls & Hcls & Hc). revert Hc.
  cbv [url_pattern Rx.seq Rx.classes Rx.lit Rx.chr Rx.one Rx.plus Rx.star
       Rx.maybe app] in Hcls.
  repeat (apply elem_of_cons in Hcls as [-> | Hcls]; [by_cases_on c|]).
  by apply elem_of_nil in Hcls.
Qed.

Lemma links_shape_witness :
  substring_of "linkedin.com/in/johndoe" sample_text
  /\ (4 <= String.length "linkedin.com/in/johndoe")%nat
  /\ Forall (fun c => Py.isspace c = false)
       (list_ascii_of_string "linkedin.com/in/johndoe")
  /\ email (extract_contact_info sample_text) <> Some "linkedin.com/in/johndoe".
Proof.
  apply (links_shape sample_text).
  refine (bool_decide_unpack _ _). vm_compute. exact I.
Defined.

(** A telephone number that was found occurs in the text, has at least
    seven characters, and is made of digits, separators (a hyphen, a dot
    or white space, a line break included), [+] and parentheses. *)
Theorem found_phone_shape text number :
  phone (extract_contact_info text) = Some number ->
  substring_of number text
  /\ (7 <= String.length number)%nat
  /\ Forall (fun c => digit c || phone_sep c || among "+()" c = true)
       (list_ascii_of_string number).
Proof.
  unfold extract_contact_info. cbn [phone]. intros H%rx_search_spec.
  destruct (rx_findall_shape _ _ _ H) as (Hsub & Hlen & Hchars).
  split; [done|]. split; [exact Hlen|].
  eapply Forall_impl; [exact Hchars|].
  intros c (cls & Hcls & Hc). revert Hc.
  cbv [phone_pattern Rx.seq Rx.classes Rx.lit Rx.chr Rx.one Rx.plus Rx.star
       Rx.maybe app] in Hcls.
  repeat (apply elem_of_cons in Hcls as [-> | Hcls]; [by_cases_on c|]).
  by apply elem_of_nil in Hcls.
Qed.

Lemma found_phone_shape_witness :
  substring_of "(123) 456-7890" sample_text
  /\ (7 <= String.length "(123) 456-7890")%nat
  /\ Forall (fun c => digit c || phone_sep c || among "+()" c = true)
       (list_ascii_of_string "(123) 456-7890").
Proof. apply (found_phone_shape sample_text). reflexivity. Defined.

(** The expectations of [test_extract_contact_info]. *)
Example test_extract_contact_info :
  extract_contact_info sample_text
  = ContactInfo (Some "john.doe@example.com") (Some "(123) 456-7890")
      ["linkedin.com/in/johndoe"].
Proof. reflexivity. Qed.

End ContactFacts.

(** ** Cleaning the extracted text *)

Section CleanFacts.

Import ResumeText.

Lemma chars_append a b :
  list_ascii_of_string (a +:+ b) = list_ascii_of_string a ++ list_ascii_of_string b.
Proof.
  induction a as [|c a IH]; [done|]. rewrite append_cons. simpl. by rewrite IH.
Qed.

Lemma substring_chars (P : ascii -> Prop) a b :
  substring_of a b ->
  Forall P (list_ascii_of_string b) -> Forall P (list_ascii_of_string a).
Proof.
  intros (pre & post & ->). rewrite !chars_append.
  by intros [_ [H _]%Forall_app]%Forall_app.
Qed.

Lemma drop_S p text c r : Py.drop p text = String c r -> Py.drop (S p) text = r.
Proof.
  revert text. induction p as [|p IH]; intros text.
  - simpl. by intros ->.
  - destruct text as [|d text]; [done|]. apply IH.
Qed.

Lemma drop_add p m text : Py.drop (p + m) text = Py.drop m (Py.drop p text).
Proof.
  revert text. induction p as [|p IH]; intros text; [done|].
  destruct text as [|d text]; simpl; [by destruct m | apply IH].
Qed.

(** *** The first substitution: no character above 127 is left *)

Lemma nonascii_match_some text p e :
  Rx.match_at nonascii_run text p = Some e -> (p < e)%nat.
Proof.
  unfold Rx.match_at. intros (q & [= ->] & Hlen & _)%run_spec.
  cbn [Rx.min_len nonascii_run Rx.plus] in Hlen. lia.
Qed.

Lemma nonascii_match_none text p c r :
  Py.drop p text = String c r ->
  Rx.match_at nonascii_run text p = None -> nonascii c = false.
Proof.
  intros Hd. unfold Rx.match_at, nonascii_run, Rx.plus. cbn [Rx.run].
  rewrite Hd. cbn [Rx.class_run]. destruct (nonascii c) eqn:E; [|done].
  intros H. apply give_back_none with (m := 1%nat) in H; [done | lia].
Qed.

Lemma sub_nonascii_chars text rest pos next :
  Py.drop pos text = rest ->
  Forall (fun c => nonascii c = false)
    (list_ascii_of_string (Rx.sub_go nonascii_run " " text pos next rest)).
Proof.
  revert pos next. induction rest as [|c rest IH]; intros pos next Hd;
    cbn [Rx.sub_go].
  - destruct (pos <? next)%nat; [constructor|].
    destruct (Rx.match_at nonascii_run text pos); by repeat constructor.
  - destruct (pos <? next)%nat; [by eapply IH, drop_S|].
    destruct (Rx.match_at nonascii_run text pos) as [e|] eqn:E.
    + apply nonascii_match_some in E.
      destruct (e <=? pos)%nat eqn:E2; [apply Nat.leb_le in E2; lia|].
      rewrite chars_append. apply Forall_app. split; [by repeat constructor|].
      by eapply IH, drop_S.
    + constructor; [by eapply nonascii_match_none | by eapply IH, drop_S].
Qed.

(** A substitution brings in no character that is neither in the text
    nor in the replacement. *)
Lemma sub_go_chars (P : ascii -> Prop) r repl text rest pos next :
  Forall P (list_ascii_of_string repl) ->
  Forall P (list_ascii_of_string rest) ->
  Forall P (list_ascii_of_string (Rx.sub_go r repl text pos next rest)).
Proof.
  intros Hrepl. revert pos next.
  induction rest as [|c rest IH]; intros pos next Hrest; cbn [Rx.sub_go].
  - destruct (pos <? next)%nat; [constructor|].
    destruct (Rx.match_at r text pos); [done | constructor].
  - apply Forall_cons in Hrest as [Hc Hrest].
    destruct (pos <? next)%nat; [by apply IH|].
    destruct (Rx.match_at r text pos) as [e|].
    + destruct (e <=? pos)%nat; rewrite chars_append; apply Forall_app;
        (split; [done|]); [|by apply IH].
      constructor; [done | by apply IH].
    + constructor; [done | by apply IH].
Qed.

(** A pattern that matches nowhere leaves the text as it is. *)
Lemma sub_go_no_match r repl text rest pos next :
  (forall p, Rx.match_at r text p = None) -> (next <= pos)%nat ->
  Rx.sub_go r repl text pos next rest = rest.
Proof.
  intros Hnone. revert pos. induction rest as [|c rest IH]; intros pos Hle;
    cbn [Rx.sub_go].
  - destruct (pos <? next)%nat; [done|]. by rewrite Hnone.
  - destruct (pos <? next)%nat eqn:E; [apply Nat.ltb_lt in E; lia|].
    rewrite Hnone. f_equal. apply IH. lia.
Qed.

Lemma ascii_no_match text p :
  Forall (fun c => nonascii c = false) (list_ascii_of_string text) ->
  Rx.match_at nonascii_run text p = None.
Proof.
  intros Hall. unfold Rx.match_at, nonascii_run, Rx.plus. cbn [Rx.run].
  apply (substring_chars _ _ _ (drop_substring p text)) in Hall.
  destruct (Py.drop p text) as [|c r]; [done|].
  apply Forall_cons in Hall as [Hc _]. cbn [Rx.class_run]. by rewrite Hc.
Qed.

(** *** The second substitution: no blank line is left *)

Lemma run_chr c text p k :
  Rx.run (Rx.chr c) text p k
  = match Py.drop p text with
    | String d _ => if Ascii.eqb c d then k (S p) else None
    | EmptyString => None
    end.
Proof.
  unfold Rx.chr, Rx.one. cbn [Rx.run].
  destruct (Py.drop p text) as [|d r]; [done|]. cbn [Rx.class_run].
  destruct (Ascii.eqb c d); [|done].
  replace (Nat.min (S (Rx.class_run (Ascii.eqb c) r)) 1) with 1%nat by lia.
  simpl. rewrite Nat.add_1_r. by destruct (k (S p)).
Qed.

Lemma class_run_drop cls j r :
  (j <= Rx.class_run cls r)%nat ->
  Rx.class_run cls (Py.drop j r) = (Rx.class_run cls r - j)%nat.
Proof.
  revert r. induction j as [|j IH]; intros r; [simpl; lia|].
  destruct r as [|c r]; simpl; [lia|]. destruct (cls c); [|intros; lia].
  intros H. apply IH. lia.
Qed.

Lemma class_run_extend cls m r c t :
  (m <= Rx.class_run cls r)%nat -> Py.drop m r = String c t -> cls c = true ->
  (m < Rx.class_run cls r)%nat.
Proof.
  revert r. induction m as [|m IH]; intros r.
  - simpl. intros _ -> Hc. simpl. rewrite Hc. lia.
  - destruct r as [|d r]; simpl; [intros; lia|].
    destruct (cls d); [|intros; lia].
    intros Hm Hd Hc. assert (m < Rx.class_run cls r)%nat by (apply IH; [lia | done | done]).
    lia.
Qed.

Lemma lead_nl_intro m r t :
  (m <= Rx.class_run Py.isspace r)%nat -> Py.drop m r = String Py.LF t ->
  lead_nl r = true.
Proof.
  revert r. induction m as [|m IH]; intros r.
  - simpl. by intros _ ->.
  - destruct r as [|c r]; simpl; [intros; lia|].
    destruct (Py.isspace c); [|intros; lia]. intros Hm Hd.
    destruct (Ascii.eqb c Py.LF); [done|]. apply IH; [lia | done].
Qed.

Lemma lead_nl_elim r :
  lead_nl r = true ->
  exists m t, (m <= Rx.class_run Py.isspace r)%nat /\ Py.drop m r = String Py.LF t.
Proof.
  induction r as [|c r IH]; simpl; [done|].
  destruct (Ascii.eqb c Py.LF) eqn:E.
  - apply Ascii.eqb_eq in E as ->. intros _. exists O, r. split; [lia | done].
  - destruct (Py.isspace c); [|done].
    intros (m & t & Hm & Hd)%IH. exists (S m), t. split; [lia | done].
Qed.

(** A match of the blank-line pattern starts at a line feed followed by
    white space with a second line feed in it, has at least two
    characters, and ends after the last line feed of that white space. *)
Lemma blank_some text p e :
  Rx.match_at blank_lines text p = Some e ->
  exists r,
    Py.drop p text = String Py.LF r /\ lead_nl r = true
    /\ (p + 2 <= e <= String.length text)%nat
    /\ lead_nl (Py.drop e text) = false.
Proof.
  unfold Rx.match_at, blank_lines. rewrite run_seq, run_chr.
  destruct (Py.drop p text) as [|d r] eqn:Hd; [done|].
  destruct (Ascii.eqb Py.LF d) eqn:E; [|done].
  apply Ascii.eqb_eq in E as <-. pose proof (drop_S _ _ _ _ Hd) as Hr.
  rewrite run_seq. unfold Rx.star. cbn [Rx.run]. rewrite Hr.
  intros (m & Hm & Hk & Hmax)%give_back_max.
  rewrite run_chr in Hk.
  destruct (Py.drop (S p + m) text) as [|d t] eqn:Hdm; [done|].
  destruct (Ascii.eqb Py.LF d) eqn:E; [|done].
  apply Ascii.eqb_eq in E as <-. injection Hk as <-.
  assert (Py.drop m r = String Py.LF t) as Hmr by (by rewrite <- Hr, <- drop_add).
  assert (m < Rx.class_run Py.isspace r)%nat as Hlt
    by (by apply (class_run_extend _ _ _ Py.LF t); [lia | |]).
  pose proof (class_run_le Py.isspace r) as Hle.
  assert (String.length r = String.length text - S p)%nat as Hlen
    by (by rewrite <- Hr, length_drop).
  exists r. split; [done|]. split; [by apply (lead_nl_intro m r t); [lia|]|].
  split; [lia|].
  destruct (lead_nl (Py.drop (S (S p + m)) text)) eqn:Hlead; [|done].
  apply lead_nl_elim in Hlead as (m2 & t2 & Hm2 & Hd2).
  assert (Py.drop (S (S p + m)) text = Py.drop (S m) r) as Heq.
  { rewrite <- Hr. replace (S (S p + m)) with (S p + S m)%nat by lia.
    apply drop_add. }
  rewrite Heq in Hm2, Hd2. rewrite class_run_drop in Hm2 by lia.
  assert (m < S m + m2 <= Rx.class_run Py.isspace r)%nat as Hrange by lia.
  apply Hmax in Hrange. rewrite run_chr in Hrange.
  replace (Py.drop (S p + (S m + m2)) text) with (String Py.LF t2) in Hrange.
  - by rewrite Ascii.eqb_refl in Hrange.
  - rewrite <- Hd2, <- Hr, <- !drop_add. f_equal; lia.
Qed.

Lemma blank_none text p r :
  Py.drop p text = String Py.LF r ->
  Rx.match_at blank_lines text p = None -> lead_nl r = false.
Proof.
  intros Hd. unfold Rx.match_at, blank_lines. rewrite run_seq, run_chr, Hd.
  rewrite Ascii.eqb_refl, run_seq. unfold Rx.star. cbn [Rx.run].
  pose proof (drop_S _ _ _ _ Hd) as Hr. rewrite Hr. intros Hnone.
  destruct (lead_nl r) eqn:Hlead; [|done].
  apply lead_nl_elim in Hlead as (m & t & Hm & Hdm).
  apply give_back_none with (m := m) in Hnone; [|lia].
  rewrite run_chr in Hnone.
  replace (Py.drop (S p + m) text) with (String Py.LF t) in Hnone.
  - by rewrite Ascii.eqb_refl in Hnone.
  - by rewrite <- Hdm, <- Hr, <- drop_add.
Qed.

(** Inside a match nothing is written. *)
Lemma sub_go_skip r repl text rest pos next :
  Py.drop pos text = rest -> (pos <= next <= String.length text)%nat ->
  Rx.sub_go r repl text pos next rest
  = Rx.sub_go r repl text next next (Py.drop next text).
Proof.
  revert pos. induction rest as [|c rest IH]; intros pos Hd Hle.
  - pose proof (length_drop pos text) as Hlen. rewrite Hd in Hlen. simpl in Hlen.
    assert (pos = next) as -> by lia. by rewrite Hd.
  - cbn [Rx.sub_go]. destruct (pos <? next)%nat eqn:E.
    + apply Nat.ltb_lt in E. apply IH; [by eapply drop_S | lia].
    + apply Nat.ltb_ge in E. assert (pos = next) as -> by lia.
      rewrite Hd. cbn [Rx.sub_go]. by rewrite Nat.ltb_irrefl.
Qed.

Lemma collapse_ok text n rest pos next :
  (String.length rest <= n)%nat -> Py.drop pos text = rest -> (next <= pos)%nat ->
  no_blank_line (Rx.sub_go blank_lines Py.nl text pos next rest) = true
  /\ lead_nl (Rx.sub_go blank_lines Py.nl text pos next rest) = lead_nl rest.
Proof.
  revert rest pos next.
  induction n as [|n IH]; intros rest pos next Hn Hd Hle;
    (assert ((pos <? next)%nat = false) as Hlt by (apply Nat.ltb_ge; lia));
    destruct rest as [|c r]; cbn [Rx.sub_go]; rewrite ?Hlt; simpl in Hn; try lia.
  1, 2: destruct (Rx.match_at blank_lines text pos) as [e|] eqn:E; [|done];
        apply blank_some in E as (r & Hr & _); congruence.
  pose proof (drop_S _ _ _ _ Hd) as Hr.
  destruct (Rx.match_at blank_lines text pos) as [e|] eqn:E.
  - apply blank_some in E as (r' & Hr' & _ & He & Hlead).
    rewrite Hd in Hr'. injection Hr' as -> <-.
    destruct (e <=? pos)%nat eqn:E2; [apply Nat.leb_le in E2; lia|].
    rewrite (sub_go_skip _ _ _ r (S pos) e Hr) by lia.
    assert (String.length r = String.length text - S pos)%nat as Hlen
      by (by rewrite <- Hr, length_drop).
    destruct (IH (Py.drop e text) e e) as [H1 H2];
      [rewrite length_drop; lia | done | lia |].
    unfold Py.nl at 1 3. rewrite append_cons, append_empty.
    cbn [no_blank_line lead_nl]. rewrite H1, H2, Hlead. done.
  - destruct (IH r (S pos) next) as [H1 H2]; [lia | done | lia |].
    cbn [no_blank_line lead_nl]. rewrite H1, H2.
    destruct (Ascii.eqb c Py.LF) eqn:Ec; [|done].
    apply Ascii.eqb_eq in Ec as ->.
    by rewrite (blank_none _ _ _ Hd E).
Qed.

Lemma lead_nl_prefix a b : lead_nl a = true -> lead_nl (a +:+ b) = true.
Proof.
  induction a as [|c a IH]; [done|]. rewrite append_cons. simpl.
  destruct (Ascii.eqb c Py.LF); [done|]. destruct (Py.isspace c); [exact IH | done].
Qed.

Lemma no_blank_line_substring a b :
  substring_of a b -> no_blank_line b = true -> no_blank_line a = true.
Proof.
  intros (pre & post & ->).
  induction pre as [|c pre IH].
  - rewrite append_empty. clear. induction a as [|c a IH]; [done|].
    rewrite append_cons. simpl.
    intros [H1 H2]%andb_true_iff. apply andb_true_iff. split; [|by apply IH].
    destruct (Ascii.eqb c Py.LF); [|done]. simpl in *.
    destruct (lead_nl a) eqn:E; [|done]. by rewrite lead_nl_prefix in H1.
  - rewrite append_cons. simpl. intros [_ H]%andb_true_iff. by apply IH.
Qed.

Lemma no_blank_no_match text p :
  no_blank_line text = true -> Rx.match_at blank_lines text p = None.
Proof.
  intros H. destruct (Rx.match_at blank_lines text p) as [e|] eqn:E; [|done].
  apply blank_some in E as (r & Hd & Hlead & _).
  apply (no_blank_line_substring _ _ (drop_substring p text)) in H.
  rewrite Hd in H. simpl in H. by rewrite Hlead in H.
Qed.

Lemma between_line_feeds ws post :
  lead_nl (ws +:+ String Py.LF post) = false ->
  Exists (fun c => Py.isspace c = false) (list_ascii_of_string ws).
Proof.
  induction ws as [|c ws IH]; [done|]. rewrite append_cons. simpl.
  destruct (Ascii.eqb c Py.LF); [done|].
  destruct (Py.isspace c) eqn:E; [|by intros _; apply Exists_cons_hd].
  intros H. apply Exists_cons_tl. by apply IH.
Qed.

Lemma clean_text_ascii text :
  Forall (fun c => nonascii c = false) (list_ascii_of_string (clean_text text)).
Proof.
  unfold clean_text.
  apply (substring_chars _ _ _ (strip_substring _)).
  apply sub_go_chars; [by repeat constructor|].
  by apply sub_nonascii_chars.
Qed.

Lemma clean_text_collapsed text : no_blank_line (clean_text text) = true.
Proof.
  unfold clean_text.
  apply (no_blank_line_substring _ _ (strip_substring _)).
  by eapply collapse_ok.
Qed.

(** The cleaned text has no character above 127 and neither starts nor
    ends with white space: trimming it again changes nothing. *)
Theorem clean_text_plain text :
  Forall (fun c => (nat_of_ascii c < 128)%nat) (list_ascii_of_string (clean_text text))
  /\ Py.strip (clean_text text) = clean_text text.
Proof.
  split; [|apply strip_idem].
  eapply Forall_impl; [apply clean_text_ascii|].
  intros c. unfold nonascii. intros H%Nat.leb_gt. lia.
Qed.

(** The cleaned text has no blank line: between two line feeds of it
    there is a character that is not white space. *)
Theorem clean_text_no_blank_lines text before between after :
  clean_text text = before +:+ Py.nl +:+ between +:+ Py.nl +:+ after ->
  Exists (fun c => Py.isspace c = false) (list_ascii_of_string between).
Proof.
  intros H. pose proof (clean_text_collapsed text) as Hclean.
  assert (substring_of (Py.nl +:+ between +:+ Py.nl +:+ after) (clean_text text))
    as Hsub by (exists before, ""; by rewrite append_empty_r).
  apply (no_blank_line_substring _ _ Hsub) in Hclean.
  unfold Py.nl in Hclean. rewrite !append_cons, !append_empty in Hclean.
  simpl in Hclean. apply andb_true_iff in Hclean as [Hlead _].
  apply (between_line_feeds _ after).
  by destruct (lead_nl (between +:+ String Py.LF after)).
Qed.

Lemma clean_text_no_blank_lines_witness :
  Exists (fun c => Py.isspace c = false) (list_ascii_of_string "Skills").
Proof.
  apply (clean_text_no_blank_lines
           ("Name" +:+ Py.nl +:+ " " +:+ Py.nl +:+ Py.nl +:+ "Skills" +:+ Py.nl
            +:+ "Python" +:+ Py.nl)
           "Name" "Skills" "Python").
  reflexivity.
Defined.

(** Cleaning a cleaned text changes nothing. *)
Theorem clean_text_idempotent text :
  clean_text (clean_text text) = clean_text text.
Proof.
  pose proof (clean_text_ascii text) as Hascii.
  pose proof (clean_text_collapsed text) as Hclean.
  unfold clean_text at 1. unfold Rx.sub.
  rewrite (sub_go_no_match nonascii_run); [|by intros p; apply ascii_no_match | lia].
  rewrite (sub_go_no_match blank_lines); [|by intros p; apply no_blank_no_match | lia].
  apply strip_idem.
Qed.

End CleanFacts.

(** ** The parser as a whole *)

Section ParseFacts.

Import ResumeParser ResumeText.

Variable pdf_pages : string -> outcome (list (option string)).

Lemma segment_sections_values (P : string -> Prop) text :
  P text -> P "" -> (forall a b, P (section_content text a b)) ->
  map_Forall (fun _ v => P v) (segment_sections text).
Proof.
  intros Htext Hempty Hcontent. unfold segment_sections.
  destruct (sort_headers (header_indices text)) as [|h hs].
  - apply map_Forall_insert_2; [done | by apply empty_sections_values].
  - apply fill_sections_values; [done | by apply empty_sections_values].
Qed.

(** A parsed résumé keeps the extracted text as it was read, and every
    section of it is one piece of the cleaned text, so it has no
    character above 127. *)
Theorem parsed_sections_are_clean path pages result name v :
  pdf_pages path = Ok pages ->
  parse pdf_pages path = Ok result ->
  sections result !! name = Some v ->
  raw_text result = join_pages pages
  /\ substring_of v (clean_text (raw_text result))
  /\ Forall (fun c => (nat_of_ascii c < 128)%nat) (list_ascii_of_string v).
Proof.
  unfold parse, extract_text_from_pdf. intros ->. cbn. intros [= <-].
  cbn [sections raw_text]. intros Hv. split; [done|].
  assert (substring_of v (clean_text (join_pages pages))) as Hsub.
  { revert Hv. revert name v. apply segment_sections_values.
    - apply substring_of_refl.
    - apply substring_of_empty.
    - intros a b. apply section_content_ok. }
  split; [done|].
  apply (substring_chars _ _ _ Hsub), clean_text_plain.
Qed.

End ParseFacts.

Lemma parsed_sections_are_clean_witness :
  substring_of "Python, SQL"
    (ResumeText.clean_text
       ("Skills" +:+ Py.nl +:+ Py.nl +:+ Py.nl +:+ "Python, SQL" +:+ Py.nl))
  /\ Forall (fun c => (nat_of_ascii c < 128)%nat)
       (list_ascii_of_string "Python, SQL").
Proof.
  refine (proj2 (parsed_sections_are_clean
                   (fun _ => Ok [Some ("Skills" +:+ Py.nl); None;
                                 Some (Py.nl +:+ "Python, SQL")])
                   "cv.pdf" _ _ "skills" "Python, SQL" eq_refl eq_refl _)).
  reflexivity.
Defined.

(** ** The upload filter and the analysis endpoint *)

Section ApiFacts.

Import Api.

Lemma after_last_none c s :
  c ∉ list_ascii_of_string s -> after_last c s = None.
Proof.
  induction s as [|d s IH]; [done|]. simpl.
  intros [Hne Hin]%not_elem_of_cons. rewrite (IH Hin).
  destruct (Ascii.eqb_spec c d); [done | done].
Qed.

Lemma after_last_intro c stem t :
  c ∉ list_ascii_of_string t -> after_last c (stem +:+ String c t) = Some t.
Proof.
  intros Hin. induction stem as [|d stem IH].
  - rewrite append_empty. simpl. rewrite (after_last_none _ _ Hin).
    by rewrite Ascii.eqb_refl.
  - rewrite append_cons. simpl. by rewrite IH.
Qed.

Lemma after_last_elim c s t :
  after_last c s = Some t -> exists stem, s = stem +:+ String c t.
Proof.
  revert t. induction s as [|d s IH]; intros t; [done|]. simpl.
  destruct (after_last c s) as [t'|].
  - intros [= ->]. destruct (IH t eq_refl) as [stem ->].
    by exists (String d stem).
  - destruct (Ascii.eqb_spec c d) as [->|]; [|done]. intros [= ->].
    by exists "".
Qed.

(** A file name is accepted exactly when it has a dot followed by [pdf]
    in any mixture of upper and lower case. *)
Theorem allowed_file_iff filename :
  allowed_file filename = true
  <-> exists stem extension,
        filename = stem +:+ "." +:+ extension /\ Py.lower extension = "pdf".
Proof.
  unfold allowed_file. split.
  - destruct (after_last "." filename) as [extension|] eqn:E; [|done].
    intros H%bool_decide_eq_true. apply after_last_elim in E as [stem ->].
    exists stem, extension. split; [done|].
    by apply list_elem_of_singleton in H.
  - intros (stem & extension & -> & Hlower).
    change ("." +:+ extension) with (String "." extension).
    rewrite after_last_intro.
    + rewrite Hlower. by apply bool_decide_eq_true, list_elem_of_singleton.
    + destruct extension as [|c1 [|c2 [|c3 [|c4 rest]]]]; try done.
      injection Hlower as H1 H2 H3.
      intros Hin. repeat (apply elem_of_cons in Hin as [<- | Hin]; [done|]).
      by apply elem_of_nil in Hin.
Qed.

(** The first piece of a split is the start of the string, the others
    lie further on, and no piece has the separator in it. *)
Lemma split_on_spec c s w0 ws :
  split_on c s = w0 :: ws ->
  (exists post, s = w0 +:+ post)
  /\ Forall (fun w => (c ∉ list_ascii_of_string w) /\ substring_of w s) (w0 :: ws).
Proof.
  revert w0 ws. induction s as [|d s IH]; intros w0 ws; simpl.
  - intros [= <- <-]. split; [by exists ""|].
    constructor; [|constructor]. split; [apply not_elem_of_nil | apply substring_of_empty].
  - destruct (Ascii.eqb_spec c d) as [->|Hne].
    + intros [= <- <-]. split; [by exists (String d s)|].
      constructor; [split; [apply not_elem_of_nil | apply substring_of_empty]|].
      destruct (split_on d s) as [|v0 vs] eqn:E; [constructor|].
      destruct (IH v0 vs eq_refl) as [_ Hall].
      eapply Forall_impl; [exact Hall|]. intros w [Hw (pre & post & ->)].
      split; [done|]. by exists (String d pre), post.
    + destruct (split_on c s) as [|v0 vs] eqn:E.
      * intros [= <- <-]. split; [by exists s|].
        constructor; [|constructor]. split.
        -- simpl. by intros [?|[]%elem_of_nil]%elem_of_cons.
        -- by exists "", s.
      * intros [= <- <-]. destruct (IH v0 vs eq_refl) as [[post ->] Hall].
        apply Forall_cons in Hall as [[Hv0 _] Hall].
        split; [by exists post|]. constructor.
        -- split; [|by exists "", post].
           simpl. by intros [?|?]%elem_of_cons.
        -- eapply Forall_impl; [exact Hall|]. intros w [Hw (pre & post' & Heq)].
           split; [done|]. exists (String d pre), post'.
           by rewrite append_cons, <- Heq.
Qed.

(** The skills handed to the matcher are pieces of the skills section
    between commas: without a comma, trimmed and not empty. *)
Theorem skills_list_shape text skill :
  skill ∈ skills_list text ->
  substring_of skill text
  /\ (","%char ∉ list_ascii_of_string skill)
  /\ Py.strip skill = skill
  /\ skill <> "".
Proof.
  unfold skills_list.
  intros (piece & -> & [Htruthy Hin]%list_elem_of_filter)%list_elem_of_fmap.
  destruct (split_on "," text) as [|w0 ws] eqn:E; [by apply elem_of_nil in Hin|].
  apply split_on_spec in E as [_ Hall].
  rewrite Forall_forall in Hall. destruct (Hall piece Hin) as [Hcomma Hsub].
  split; [eapply substring_of_trans; [apply strip_substring | done]|].
  split.
  - intros Hc. apply Hcomma.
    destruct (strip_substring piece) as (pre & post & Heq).
    rewrite Heq, !chars_append. apply elem_of_app. right.
    apply elem_of_app. by left.
  - split; [apply strip_idem|]. by destruct (Py.strip piece).
Qed.

Lemma skills_list_shape_witness :
  substring_of "SQL" "Python,  SQL ,, "
  /\ (","%char ∉ list_ascii_of_string "SQL")
  /\ Py.strip "SQL" = "SQL"
  /\ ("SQL" : string) <> "".
Proof.
  apply skills_list_shape. refine (bool_decide_unpack _ _). vm_compute. exact I.
Defined.

Variable nltk_stopwords : option (list string).
Variable SKLEARN_AVAILABLE : bool.
Variable tfidf_cosine : string -> list string -> option (list Q).
Variable VECTOR_SEARCH_AVAILABLE : bool.
Variable encode : string -> VectorStore.vector.
Variable faiss_search :
  list VectorStore.vector -> VectorStore.vector -> Z -> list (Q * Z).
Variable vector_store : VectorStore.store.
Variable insights : Type.
Variable llm_analyze : ATSScorer.resume -> string -> list string -> insights.

#[local] Abbreviation analyze_resume :=
  (Api.analyze_resume nltk_stopwords SKLEARN_AVAILABLE tfidf_cosine
     VECTOR_SEARCH_AVAILABLE encode faiss_search vector_store insights llm_analyze).
#[local] Abbreviation search :=
  (VectorStore.search_similar_roles VECTOR_SEARCH_AVAILABLE encode faiss_search
     vector_store).

(** A résumé without the ['sections'] key is never analysed: the answer
    has status 500, although the scorer alone accepts such a résumé. *)
Theorem analyze_requires_sections data resume role :
  resume_data data = Some resume -> target_role data = Some role ->
  ATSScorer.sections resume = None ->
  (exists report, ATSScorer.calculate_score nltk_stopwords resume "" = Ok report)
  /\ exists cause, analyze_resume data = Status500 cause.
Proof.
  intros Hresume Hrole Hsections.
  split.
  { destruct (calculate_score_ok nltk_stopwords resume "") as (r & Hr & _).
    by exists r. }
  unfold Api.analyze_resume. rewrite Hresume, Hrole.
  unfold analyze_body.
  destruct (job_requirements _ _ _ _ _ _ _) as [[jd skills]|e]; cbn;
    [|by exists e].
  destruct (calculate_score_ok nltk_stopwords resume jd) as (r & -> & _).
  cbn. rewrite Hsections. cbn. by eexists.
Qed.

(** When no job description is sent and the store finds no role, the
    résumé is compared with the four generic skills, no keyword is
    scored, and the answer names the description as generic. *)
Theorem analyze_generic_fallback data resume role sections gap log :
  resume_data data = Some resume -> target_role data = Some role ->
  default "" (job_description data) = "" ->
  search role 1%Z = Ok [] ->
  ATSScorer.sections resume = Some sections ->
  SkillGap.analyze SKLEARN_AVAILABLE tfidf_cosine
    (skills_list (ATSScorer.get_str sections "skills"))
    ["Python"; "JavaScript"; "SQL"; "Git"] = (Ok gap, log) ->
  exists body,
    analyze_resume data = Status200 body
    /\ skill_gap _ body = gap
    /\ description_used _ body = "Generic"
    /\ ATSScorer.kw_score
         (ATSScorer.b_keywords (ATSScorer.breakdown (ats_analysis _ body))) == 0
    /\ ATSScorer.matching_keywords
         (ATSScorer.b_keywords (ATSScorer.breakdown (ats_analysis _ body))) = [].
Proof.
  intros Hresume Hrole Hjd Hsearch Hsections Hgap.
  unfold Api.analyze_resume. rewrite Hresume, Hrole, Hjd.
  unfold analyze_body, job_requirements. cbn [Py.truthy negb].
  rewrite Hsearch. cbn.
  destruct (ATSScorer.calculate_score nltk_stopwords resume "") as [r|e] eqn:E.
  2: { destruct (calculate_score_ok nltk_stopwords resume "") as (r & Hr & _).
       congruence. }
  cbn. rewrite Hsections. cbn. unfold fallback_skills. rewrite Hgap. cbn.
  eexists. split; [reflexivity|]. cbn.
  split; [done|]. split; [done|].
  unfold ATSScorer.calculate_score in E.
  destruct (ATSScorer._score_keywords nltk_stopwords resume "") as [kw|] eqn:Ekw;
    [|done].
  cbn in E.
  destruct (ATSScorer._score_experience _ _ _) as [ex|]; [|done]. cbn in E.
  destruct (ATSScorer._score_formatting _) as [fm|]; [|done]. cbn in E.
  injection E as <-. cbn.
  unfold ATSScorer._score_keywords in Ekw.
  assert (ATSScorer._extract_keywords nltk_stopwords "" = ∅) as Hkw by reflexivity.
  rewrite Hkw in Ekw. rewrite bool_decide_eq_true_2 in Ekw by done.
  cbn in Ekw. injection Ekw as <-. cbn.
  split; [reflexivity|].
  unfold ATSScorer.first_of.
  replace (∅ ∩ _ : gset string) with (∅ : gset string) by set_solver.
  by rewrite elements_empty.
Qed.

(** When no job description is sent and the role found has no
    description, the answer has status 500, although [add_roles] stores
    such a role. *)
Theorem role_without_description_fails data resume role found_role others :
  resume_data data = Some resume -> target_role data = Some role ->
  default "" (job_description data) = "" ->
  search role 1%Z = Ok (found_role :: others) ->
  VectorStore.description (VectorStore.found found_role) = None ->
  analyze_resume data = Status500 (KeyError "description").
Proof.
  intros Hresume Hrole Hjd Hsearch Hdescription.
  unfold Api.analyze_resume. rewrite Hresume, Hrole, Hjd.
  unfold analyze_body, job_requirements. cbn [Py.truthy negb].
  rewrite Hsearch. cbn. by rewrite Hdescription.
Qed.

End ApiFacts.

Lemma analyze_requires_sections_witness :
  (exists report,
     ATSScorer.calculate_score None
       (ATSScorer.Resume (Some "Python Developer with SQL skills") None) ""
     = Ok report)
  /\ exists cause,
       Api.analyze_resume None true SkillGap.toy_engine false (fun _ => [])
         (fun _ _ _ => []) (VectorStore.fresh false) unit (fun _ _ _ => tt)
         (Api.Request
            (Some (ATSScorer.Resume (Some "Python Developer with SQL skills") None))
            (Some "Backend Developer") None)
       = Api.Status500 cause.
Proof.
  apply (analyze_requires_sections None true SkillGap.toy_engine false
           (fun _ => []) (fun _ _ _ => []) (VectorStore.fresh false) unit
           (fun _ _ _ => tt) _ _ "Backend Developer");
    reflexivity.
Defined.

Lemma analyze_generic_fallback_witness :
  exists body,
    Api.analyze_resume None true SkillGap.toy_engine false (fun _ => [])
      (fun _ _ _ => []) (VectorStore.fresh false) unit (fun _ _ _ => tt)
      Api.sample_request
    = Api.Status200 body
    /\ Api.skill_gap _ body
       = SkillGap.Report (Num.b64 50) ["python"; "sql"] [] ["javascript"; "git"]
    /\ Api.description_used _ body = "Generic"
    /\ ATSScorer.kw_score
         (ATSScorer.b_keywords (ATSScorer.breakdown (Api.ats_analysis _ body))) == 0
    /\ ATSScorer.matching_keywords
         (ATSScorer.b_keywords (ATSScorer.breakdown (Api.ats_analysis _ body))) = [].
Proof.
  eapply (analyze_generic_fallback None true SkillGap.toy_engine false
            (fun _ => []) (fun _ _ _ => []) (VectorStore.fresh false) unit
            (fun _ _ _ => tt) Api.sample_request _ "Backend Developer" _ _
            [("python", ["python"; "sql"]); ("javascript", ["python"; "sql"]);
             ("sql", ["python"; "sql"]); ("git", ["python"; "sql"])]);
    reflexivity.
Defined.

Lemma role_without_description_fails_witness :
  Api.analyze_resume None true SkillGap.toy_engine true (fun _ => [0%Q])
    (fun _ _ _ => [(0%Q, 0%Z)]) Api.bare_role_store unit (fun _ _ _ => tt)
    Api.sample_request
  = Api.Status500 (Api.KeyError "description").
Proof.
  eapply (role_without_description_fails None true SkillGap.toy_engine true
            (fun _ => [0%Q]) (fun _ _ _ => [(0%Q, 0%Z)]) Api.bare_role_store unit
            (fun _ _ _ => tt) Api.sample_request _ "Backend Developer");
    reflexivity.
Defined.

(** The expectation of [test_analyze_endpoint_structure], with the vector
    libraries missing: status 200. *)
Example test_analyze_endpoint_structure :
  exists body,
    Api.analyze_resume None true SkillGap.toy_engine false (fun _ => [])
      (fun _ _ _ => []) (VectorStore.fresh false) unit (fun _ _ _ => tt)
      Api.sample_request
    = Api.Status200 body.
Proof. eexists. reflexivity. Qed.

(** ** The answer of the language model *)

Section AgentFacts.

Import LLMAgent.

Abbreviation free q s := (q ∉ list_ascii_of_string s).

Lemma split_go_skip sep a rest :
  split_go sep (String.length a) (a +:+ rest) = split_go sep 0 rest.
Proof.
  induction a as [|c a IH]; [done|]. rewrite append_cons. simpl. exact IH.
Qed.

Lemma prefix_cons a s1 b s2 :
  String.prefix (String a s1) (String b s2)
  = if Ascii.eqb a b then String.prefix s1 s2 else false.
Proof.
  simpl. destruct (ascii_dec a b) as [->|Hne]; [by rewrite Ascii.eqb_refl|].
  by destruct (Ascii.eqb_spec a b).
Qed.

Lemma prefix_other q sep c r :
  c <> q -> String.prefix (String q sep) (String c r) = false.
Proof. intros Hne. simpl. by destruct (ascii_dec q c) as [->|]. Qed.

Lemma prefix_append sep rest : String.prefix sep (sep +:+ rest) = true.
Proof. apply prefix_spec. by exists rest. Qed.

(** A piece without the first character of the separator in it ends at
    the next occurrence of the separator. *)
Lemma split_first q sep pre rest :
  free q pre ->
  split (String q sep) (pre +:+ String q sep +:+ rest)
  = pre :: split (String q sep) rest.
Proof.
  unfold split. induction pre as [|c pre IH]; intros Hfree.
  - rewrite append_empty. rewrite append_cons. cbn [split_go].
    rewrite <- append_cons, prefix_append.
    replace (String.length (String q sep) - 1)%nat with (String.length sep)
      by (simpl; lia).
    by rewrite split_go_skip.
  - apply not_elem_of_cons in Hfree as [Hne Hfree].
    rewrite append_cons. cbn [split_go]. rewrite prefix_other by done.
    by rewrite IH.
Qed.

Lemma split_free q sep s : free q s -> split (String q sep) s = [s].
Proof.
  unfold split. induction s as [|c s IH]; intros Hfree; [done|].
  apply not_elem_of_cons in Hfree as [Hne Hfree].
  cbn [split_go]. rewrite prefix_other by done. by rewrite IH.
Qed.

(** Between the two fences there is one piece for the longer
    separator, unless [json] follows the closing fence. *)
Lemma split_json_fence_closing body post :
  free "`"%char body -> free "`"%char post ->
  String.prefix "json" post = false ->
  split json_fence (body +:+ fence +:+ post) = [body +:+ fence +:+ post].
Proof.
  intros Hbody Hpost Hjson. unfold split.
  induction body as [|c body IH].
  - rewrite append_empty. unfold fence, json_fence.
    rewrite !append_cons, append_empty.
    pose proof (split_free "`" "``json" post Hpost) as Hrest.
    unfold split in Hrest.
    assert (String.prefix "```json" (String "`" (String "`" (String "`" post)))
            = false) as H1.
    { rewrite !prefix_cons. exact Hjson. }
    assert (String.prefix "```json" (String "`" (String "`" post)) = false) as H2.
    { rewrite !prefix_cons. cbn [Ascii.eqb Bool.eqb]. destruct post as [|d post']; [done|].
      rewrite prefix_cons. destruct (Ascii.eqb_spec "`" d) as [<-|]; [|done].
      exfalso. apply Hpost. simpl. apply elem_of_cons. by left. }
    assert (String.prefix "```json" (String "`" post) = false) as H3.
    { rewrite prefix_cons. cbn [Ascii.eqb Bool.eqb]. destruct post as [|d post']; [done|].
      rewrite prefix_cons. destruct (Ascii.eqb_spec "`" d) as [<-|]; [|done].
      exfalso. apply Hpost. simpl. apply elem_of_cons. by left. }
    cbn [split_go]. rewrite H1. cbn [split_go]. rewrite H2.
    cbn [split_go]. rewrite H3. unfold json_fence in Hrest. by rewrite Hrest.
  - apply not_elem_of_cons in Hbody as [Hne Hbody].
    rewrite append_cons. cbn [split_go]. unfold json_fence at 1.
    rewrite prefix_other by done. by rewrite IH.
Qed.

Lemma py_item_0 {A} (a : A) l : VectorStore.py_item (a :: l) 0 = Ok a.
Proof. reflexivity. Qed.

Lemma py_item_1 {A} (a b : A) l : VectorStore.py_item (a :: b :: l) 1 = Ok b.
Proof. reflexivity. Qed.

Lemma strip_fences_json before body after :
  free "`"%char before -> free "`"%char body -> free "`"%char after ->
  strip_fences (before +:+ json_fence +:+ body +:+ fence +:+ after)
  = Ok (Py.strip body).
Proof.
  intros Hbefore Hbody Hafter. unfold strip_fences.
  rewrite (proj2 (contains_spec json_fence _)) by (by exists before, (body +:+ fence +:+ after)).
  unfold json_fence at 1 2. rewrite split_first by done.
  destruct (String.prefix "json" after) eqn:Hjson.
  - apply prefix_spec in Hjson as [after' ->].
    assert (body +:+ fence +:+ "json" +:+ after'
            = body +:+ json_fence +:+ after') as -> by reflexivity.
    unfold json_fence. rewrite split_first by done.
    rewrite py_item_1. cbn [outcome_bind].
    unfold fence. rewrite split_free by done. by rewrite py_item_0.
  - fold json_fence. rewrite split_json_fence_closing by done.
    rewrite py_item_1. cbn [outcome_bind].
    unfold fence. rewrite split_first by done. by rewrite py_item_0.
Qed.

Variable json : Type.
Variable json_loads : string -> option json.

(** An answer that wraps its JSON in a [```json] fence and has no other
    back quote is read from the trimmed text inside the fence; when that
    text is not JSON the mock analysis is returned. *)
Theorem fenced_answer_is_unwrapped invoke resume role requirements
    before body after :
  invoke resume role requirements
    = Some (before +:+ "```json" +:+ body +:+ "```" +:+ after) ->
  free "`"%char before -> free "`"%char body -> free "`"%char after ->
  analyze_resume json json_loads (Some invoke) resume role requirements
  = match json_loads (Py.strip body) with
    | Some j => Parsed json j
    | None => Fallback json (_mock_analysis role)
    end.
Proof.
  intros Hanswer Hbefore Hbody Hafter. unfold analyze_resume.
  rewrite Hanswer.
  change (before +:+ "```json" +:+ body +:+ "```" +:+ after)
    with (before +:+ json_fence +:+ body +:+ fence +:+ after).
  by rewrite strip_fences_json.
Qed.

End AgentFacts.

Lemma fenced_answer_is_unwrapped_witness :
  LLMAgent.analyze_resume string
    (fun s => if String.prefix "{" s then Some s else None)
    (Some (fun _ _ _ =>
             Some ("Here is the analysis:" +:+ Py.nl +:+ "```json" +:+ Py.nl
                   +:+ "{}" +:+ Py.nl +:+ "```" +:+ Py.nl)))
    (ATSScorer.Resume None None) "Dev" []
  = LLMAgent.Parsed string "{}".
Proof.
  apply (fenced_answer_is_unwrapped string
           (fun s => if String.prefix "{" s then Some s else None)
           _ (ATSScorer.Resume None None) "Dev" []
           ("Here is the analysis:" +:+ Py.nl) (Py.nl +:+ "{}" +:+ Py.nl) Py.nl).
  - reflexivity.
  - vm_compute. intros H. by repeat (apply elem_of_cons in H as [H|H]; [discriminate H|]);
      apply elem_of_nil in H.
  - vm_compute. intros H. by repeat (apply elem_of_cons in H as [H|H]; [discriminate H|]);
      apply elem_of_nil in H.
  - vm_compute. intros H. by repeat (apply elem_of_cons in H as [H|H]; [discriminate H|]);
      apply elem_of_nil in H.
Defined.

(** The expectations of [test_mock_analysis_fallback] and
    [test_chat_offline_message]. *)
Example test_mock_analysis_fallback :
  LLMAgent.analyze_resume unit (fun _ => None) None (ATSScorer.Resume None None)
    "Software Engineer" []
  = LLMAgent.Fallback unit (LLMAgent._mock_analysis "Software Engineer")
  /\ LLMAgent.score (LLMAgent._mock_analysis "Software Engineer") = 75%Z.
Proof. split; reflexivity. Qed.

Example test_chat_offline_message :
  Py.contains "offline mode" (LLMAgent.chat_with_mentor None "Hello" None) = true.
Proof. reflexivity. Qed.
